(** * passManager: the authentication gate and the per-user vault of
      [backend/server.js], embedded and checked against its specification.

    The Express handlers are embedded as computations in a small
    state-and-exception monad over the two MongoDB collections.  What the
    server takes from outside (the clock, the driver's id generator, bcrypt,
    jsonwebtoken, the ObjectId constructor) is a field of the class
    [Externals]; everything else follows the handler bodies line by line. *)

From stdpp Require Import base option list strings sorting gmap.
From Stdlib Require Import ZArith Ascii String Lia DecimalString.

Open Scope Z_scope.
Open Scope string_scope.

Set Warnings "-register-all".

(** ** JavaScript strings

    A string is a sequence of code units; the embedding covers the code units
    below 256, one [ascii] each.  In that range the ECMAScript WhiteSpace and
    LineTerminator code points (the ones [trim] removes and [\s] matches) are
    TAB, LF, VT, FF, CR, SPACE and NBSP. *)

Definition isWhiteSpace (c : ascii) : bool :=
  let n := nat_of_ascii c in
  ((9 <=? n)%nat && (n <=? 13)%nat) || (n =? 32)%nat || (n =? 160)%nat.

Fixpoint trimStart (s : string) : string :=
  match s with
  | EmptyString => EmptyString
  | String c s' => if isWhiteSpace c then trimStart s' else s
  end.

Fixpoint trimEnd (s : string) : string :=
  match s with
  | EmptyString => EmptyString
  | String c s' =>
      match trimEnd s' with
      | EmptyString => if isWhiteSpace c then EmptyString else String c EmptyString
      | t => String c t
      end
  end.

(** [String.prototype.trim] *)
Definition trim (s : string) : string := trimEnd (trimStart s).

(** [String.prototype.toLowerCase] on code units below 256: A-Z and the
    Latin-1 capitals (all of 192..222 but the multiplication sign 215) move up
    by 32, every other code unit maps to itself. *)
Definition lowerUnit (c : ascii) : ascii :=
  let n := nat_of_ascii c in
  if ((65 <=? n)%nat && (n <=? 90)%nat)
     || ((192 <=? n)%nat && (n <=? 222)%nat && negb (n =? 215)%nat)
  then ascii_of_nat (n + 32) else c.

Fixpoint toLowerCase (s : string) : string :=
  match s with
  | EmptyString => EmptyString
  | String c s' => String (lowerUnit c) (toLowerCase s')
  end.

(** [s.split(sep)] for a one-character separator. *)
Fixpoint split (sep : ascii) (s : string) : list string :=
  match s with
  | EmptyString => [EmptyString]
  | String c s' =>
      if Ascii.eqb c sep then EmptyString :: split sep s'
      else match split sep s' with
           | h :: t => String c h :: t
           | [] => [String c EmptyString]
           end
  end.

(** ** Regular expressions

    The one pattern of the server, [/^[^\s@]+@[^\s@]+\.[^\s@]+$/], is matched
    with Brzozowski derivatives; [test] is anchored at both ends as the
    pattern is. *)

Inductive regex : Type :=
| Void
| Eps
| Class (p : ascii -> bool)
| Seq (r1 r2 : regex)
| Alt (r1 r2 : regex)
| Star (r : regex).

Fixpoint nullable (r : regex) : bool :=
  match r with
  | Void => false
  | Eps => true
  | Class _ => false
  | Seq r1 r2 => nullable r1 && nullable r2
  | Alt r1 r2 => nullable r1 || nullable r2
  | Star _ => true
  end.

Fixpoint deriv (c : ascii) (r : regex) : regex :=
  match r with
  | Void => Void
  | Eps => Void
  | Class p => if p c then Eps else Void
  | Seq r1 r2 =>
      if nullable r1 then Alt (Seq (deriv c r1) r2) (deriv c r2)
      else Seq (deriv c r1) r2
  | Alt r1 r2 => Alt (deriv c r1) (deriv c r2)
  | Star r1 => Seq (deriv c r1) (Star r1)
  end.

Fixpoint test (r : regex) (s : string) : bool :=
  match s with
  | EmptyString => nullable r
  | String c s' => test (deriv c r) s'
  end.

Definition Plus (r : regex) : regex := Seq r (Star r).
Definition Lit (a : ascii) : regex := Class (Ascii.eqb a).

(** [[^\s@]] *)
Definition notSpaceAt (c : ascii) : bool :=
  negb (isWhiteSpace c) && negb (Ascii.eqb c "@").

Definition emailRegex : regex :=
  Seq (Plus (Class notSpaceAt))
      (Seq (Lit "@")
           (Seq (Plus (Class notSpaceAt))
                (Seq (Lit ".") (Plus (Class notSpaceAt))))).

(** What the pattern says, read as a language: the strings each expression
    stands for. *)
Inductive matches : regex -> string -> Prop :=
| matches_Eps : matches Eps EmptyString
| matches_Class p c : p c = true -> matches (Class p) (String c EmptyString)
| matches_Seq r1 r2 s1 s2 :
    matches r1 s1 -> matches r2 s2 -> matches (Seq r1 r2) (s1 ++ s2)
| matches_Alt_l r1 r2 s : matches r1 s -> matches (Alt r1 r2) s
| matches_Alt_r r1 r2 s : matches r2 s -> matches (Alt r1 r2) s
| matches_Star_nil r : matches (Star r) EmptyString
| matches_Star_cons r s1 s2 :
    matches r s1 -> matches (Star r) s2 -> matches (Star r) (s1 ++ s2).

(** every code unit of [s] is in [[^\s@]] *)
Fixpoint clean (s : string) : bool :=
  match s with
  | EmptyString => true
  | String c s' => notSpaceAt c && clean s'
  end.

(** [s.includes(sub)] *)
Fixpoint includes (s sub : string) : bool :=
  String.prefix sub s
  || match s with
     | EmptyString => false
     | String _ s' => includes s' sub
     end.

(** ** JSON values

    What [body-parser] can put in a field of [req.body]; [JUndefined] is an
    absent field.  Numbers are kept as integers: the handlers only test a
    number for truthiness and read properties it does not have. *)

Inductive jsval : Type :=
| JUndefined
| JNull
| JBool (b : bool)
| JNum (n : Z)
| JStr (s : string)
| JArr (l : list jsval)
| JObj (fields : list (string * jsval)).

(** [!!v] *)
Definition truthy (v : jsval) : bool :=
  match v with
  | JUndefined | JNull => false
  | JBool b => b
  | JNum n => negb (n =? 0)%Z
  | JStr s => negb (String.eqb s EmptyString)
  | JArr _ | JObj _ => true
  end.

(** ** Exceptions and results *)

Inductive exn : Type :=
| TypeError            (* a method or property missing on the receiver *)
| IllegalArguments     (* bcryptjs, on a non-string argument *)
| BSONError            (* new ObjectId on a malformed string *)
| DuplicateKey.        (* E11000, insertOne on an _id in use *)

Inductive result (A : Type) : Type :=
| Ok (a : A)
| Throw (e : exn).
Arguments Ok {A} a.
Arguments Throw {A} e.

#[global] Instance result_ret : MRet result := fun A a => Ok a.
#[global] Instance result_bind : MBind result := fun A B f r =>
  match r with
  | Ok a => f a
  | Throw e => Throw e
  end.

(** [v.trim()] and [v.toLowerCase()]: JSON values other than strings carry no
    such function. *)
Definition js_trim (v : jsval) : result string :=
  match v with JStr s => Ok (trim s) | _ => Throw TypeError end.

Definition js_toLowerCase (v : jsval) : result string :=
  match v with JStr s => Ok (toLowerCase s) | _ => Throw TypeError end.

Fixpoint assoc (k : string) (fields : list (string * jsval)) : jsval :=
  match fields with
  | [] => JUndefined
  | (k', v) :: rest => if String.eqb k k' then v else assoc k rest
  end.

(** [v.length] *)
Definition js_length (v : jsval) : result jsval :=
  match v with
  | JUndefined | JNull => Throw TypeError
  | JBool _ | JNum _ => Ok JUndefined
  | JStr s => Ok (JNum (Z.of_nat (String.length s)))
  | JArr l => Ok (JNum (Z.of_nat (List.length l)))
  | JObj fields => Ok (assoc "length" fields)
  end.

(** ** Documents

    An [ObjectId] is kept as its 24-digit hexadecimal string, the form in which
    it travels in a URL, in a JSON body and in a token payload.  A [Date] is
    its number of milliseconds. *)

Definition ObjectId : Type := string.
Definition Date : Type := Z.

(** A document of the [users] collection. *)
Module User.
Record t : Type := mk {
  _id : ObjectId;
  username : string;
  email : string;
  password : string;          (* the bcrypt hash *)
  createdAt : Date
}.
End User.

(** A document of the [passwords] collection. *)
Module Cred.
Record t : Type := mk {
  _id : ObjectId;
  site : string;
  username : string;
  password : jsval;
  userId : string;
  createdAt : Date;
  updatedAt : Date
}.
End Cred.

(** The claims of a token, [{ id, username }]. *)
Module Claims.
Record t : Type := mk { id : string; username : string }.
End Claims.

(** ** The world a handler runs in

    The two collections in the order a collection scan visits them, a count of
    the values already drawn from the environment (clock readings, generated
    ids, salts), and the log of the round trips made to the database. *)

Inductive db_op : Type :=
| users_findOne_op
| users_insertOne_op
| passwords_find_op
| passwords_findOne_op
| passwords_insertOne_op
| passwords_updateOne_op
| passwords_deleteOne_op.

Record world : Type := mkWorld {
  users : list User.t;
  passwords : list Cred.t;
  drawn : nat;
  db_log : list db_op
}.

Definition set_users (us : list User.t) (w : world) : world :=
  mkWorld us (passwords w) (drawn w) (db_log w).
Definition set_passwords (ps : list Cred.t) (w : world) : world :=
  mkWorld (users w) ps (drawn w) (db_log w).
Definition draw (w : world) : world :=
  mkWorld (users w) (passwords w) (S (drawn w)) (db_log w).
Definition logged (op : db_op) (w : world) : world :=
  mkWorld (users w) (passwords w) (drawn w) (db_log w ++ [op]).

(** ** The handler monad: state over [world], with exceptions *)

Definition M (A : Type) : Type := world -> result A * world.

#[global] Instance M_ret : MRet M := fun A a w => (Ok a, w).
#[global] Instance M_bind : MBind M := fun A B f m w =>
  match m w with
  | (Ok a, w') => f a w'
  | (Throw e, w') => (Throw e, w')
  end.
#[global] Instance M_throw : MThrow exn M := fun A e w => (Throw e, w).

(** a value or an exception computed without the world *)
Definition lift {A : Type} (r : result A) : M A := fun w => (r, w).

(** [try { body } catch (error) { handler }] *)
Definition try_catch {A : Type} (body : M A) (handler : exn -> M A) : M A :=
  fun w =>
    match body w with
    | (Ok a, w') => (Ok a, w')
    | (Throw e, w') => handler e w'
    end.

(** a computation that leaves the [passwords] collection as it found it *)
Definition keeps_passwords {A : Type} (m : M A) : Prop :=
  forall w, passwords (snd (m w)) = passwords w.

(** a computation that leaves the part [f] of the world as it found it *)
Definition preserves {A B : Type} (f : world -> B) (m : M A) : Prop :=
  forall w, f (snd (m w)) = f w.

(** ** Collections *)

(** [updateOne]: the first matching document is rewritten in place. *)
Fixpoint update_first {A : Type} (q : A -> bool) (f : A -> A) (l : list A) : list A :=
  match l with
  | [] => []
  | d :: l' => if q d then f d :: l' else d :: update_first q f l'
  end.

(** [deleteOne]: the first matching document is removed. *)
Fixpoint delete_first {A : Type} (q : A -> bool) (l : list A) : list A :=
  match l with
  | [] => []
  | d :: l' => if q d then l' else d :: delete_first q l'
  end.

(** [sort({ createdAt: -1 })]: no document before one created later. *)
Definition newest_first (a b : Cred.t) : Prop :=
  (Cred.createdAt b <= Cred.createdAt a)%Z.

#[global] Instance newest_first_dec : RelDecision newest_first :=
  fun a b => Z_le_dec (Cred.createdAt b) (Cred.createdAt a).

#[global] Instance newest_first_total : Total newest_first.
Proof. intros a b. unfold newest_first. lia. Qed.

#[global] Instance newest_first_trans : Transitive newest_first.
Proof. intros a b c. unfold newest_first. lia. Qed.

(** ** Responses *)

Module Summary.
Record t : Type := mk { id : ObjectId; username : string; email : string }.
End Summary.

Inductive body : Type :=
| Message (success : bool) (message : string)
| Registered (message : string) (userId : ObjectId)
| LoggedIn (token : string) (user : Summary.t) (message : string)
| Records (docs : list Cred.t)
| Inserted (insertedId : ObjectId) (message : string).

Record response : Type := mkResponse { status : nat; json : body }.

(** [res.status(code).json({ success, message })] *)
Definition reply (code : nat) (success : bool) (message : string) : response :=
  mkResponse code (Message success message).

(** The shape every body has that the handlers send: [success] is [false]
    exactly on the error statuses 400, 401, 404 and 500, a message is never
    empty, and the bodies without [success: false] go with 200 or 201. *)
Definition shaped (res : response) : bool :=
  match json res with
  | Message success message =>
      negb (String.eqb message "")
      && (if success then (status res =? 200)%nat
          else (status res =? 400)%nat || (status res =? 401)%nat
               || (status res =? 404)%nat || (status res =? 500)%nat)
  | Registered message _ => negb (String.eqb message "") && (status res =? 201)%nat
  | LoggedIn _ _ message => negb (String.eqb message "") && (status res =? 200)%nat
  | Records _ => (status res =? 200)%nat
  | Inserted _ message => negb (String.eqb message "") && (status res =? 201)%nat
  end.

(** every response the computation can return satisfies [P] *)
Definition answers (P : response -> Prop) (m : M response) : Prop :=
  forall w res w', m w = (Ok res, w') -> P res.

(** ** What the server takes from outside *)

(** [jwt.verify(token, process.env.JWT_SECRET)] returns the decoded claims or
    throws an error with a [name]. *)
Inductive verified : Type :=
| Decoded (claims : Claims.t)
| Rejected (name : string).

Class Externals : Type := {
  (** [ToString] of a JSON value that is not a string (number formatting,
      array joining); only [RegExp.prototype.test] asks for it. *)
  ToString : jsval -> string;
  (** The abstract relational comparison of a string, array or object with a
      number, after [ToPrimitive] and [ToNumber]; [None] when [NaN] is met. *)
  compare_coerced : jsval -> Z -> option comparison;
  (** [new ObjectId(id)] on a string: the id, or [None] where the driver
      throws.  [ObjectId.isValid] accepts exactly the strings the constructor
      takes. *)
  new_ObjectId : string -> option ObjectId;
  jwt_verify : string -> verified;
  (** [jwt.sign(claims, secret, { expiresIn })], with the draw that fixes its
      [iat]. *)
  jwt_sign : Claims.t -> nat -> string;
  (** [bcrypt.hash(s, rounds)] on a string, with the draw that fixes its salt,
      and [bcrypt.compare(s, hash)] on strings. *)
  bcrypt_hash : string -> nat -> nat -> string;
  bcrypt_compare : string -> string -> bool;
  (** The clock and the driver's id generator, by draw. *)
  clock : nat -> Date;
  generate_id : nat -> ObjectId
}.

(** ** The server *)

Section Server.

Context {ext : Externals}.

(** *** Coercions and comparisons *)

Definition js_String (v : jsval) : string :=
  match v with JStr s => s | _ => ToString v end.

(** [v] compared with the number [n] *)
Definition js_compare (v : jsval) (n : Z) : option comparison :=
  match v with
  | JUndefined => None
  | JNull => Some (0 ?= n)%Z
  | JBool b => Some ((if b then 1 else 0) ?= n)%Z
  | JNum z => Some (z ?= n)%Z
  | _ => compare_coerced v n
  end.

(** [v < n] *)
Definition js_lt (v : jsval) (n : Z) : bool :=
  match js_compare v n with Some Lt => true | _ => false end.

(** [v >= n] *)
Definition js_ge (v : jsval) (n : Z) : bool :=
  match js_compare v n with Some Eq | Some Gt => true | _ => false end.

(** *** Environment draws *)

(** [new Date()] *)
Definition new_Date : M Date := fun w => (Ok (clock (drawn w)), draw w).

Definition ObjectId_isValid (id : string) : bool :=
  match new_ObjectId id with Some _ => true | None => false end.

Definition ObjectId_of (id : string) : M ObjectId :=
  match new_ObjectId id with
  | Some oid => mret oid
  | None => mthrow BSONError
  end.

(** bcryptjs refuses anything but strings. *)
Definition bcrypt_hash_js (s : jsval) (rounds : nat) : M string :=
  match s with
  | JStr p => fun w => (Ok (bcrypt_hash p rounds (drawn w)), draw w)
  | _ => mthrow IllegalArguments
  end.

Definition bcrypt_compare_js (s : jsval) (hash : string) : M bool :=
  match s with
  | JStr p => mret (bcrypt_compare p hash)
  | _ => mthrow IllegalArguments
  end.

Definition jwt_sign_now (claims : Claims.t) : M string :=
  fun w => (Ok (jwt_sign claims (drawn w)), draw w).

(** *** Collection operations, one round trip each *)

Definition users_findOne (q : User.t -> bool) : M (option User.t) :=
  fun w => (Ok (List.find q (users w)), logged users_findOne_op w).

(** [insertOne]: the driver generates the [_id]; the server refuses an
    [_id] already in the collection; a new document goes last. *)
Definition users_insertOne (doc : ObjectId -> User.t) : M ObjectId :=
  fun w =>
    let oid := generate_id (drawn w) in
    let w1 := logged users_insertOne_op (draw w) in
    if existsb (fun d => String.eqb (User._id d) oid) (users w)
    then (Throw DuplicateKey, w1)
    else (Ok oid, set_users (users w ++ [doc oid]) w1).

(** [find(q).sort({ createdAt: -1 }).toArray()] *)
Definition passwords_find_sorted (q : Cred.t -> bool) : M (list Cred.t) :=
  fun w => (Ok (merge_sort newest_first (List.filter q (passwords w))),
            logged passwords_find_op w).

Definition passwords_findOne (q : Cred.t -> bool) : M (option Cred.t) :=
  fun w => (Ok (List.find q (passwords w)), logged passwords_findOne_op w).

Definition passwords_insertOne (doc : ObjectId -> Cred.t) : M ObjectId :=
  fun w =>
    let oid := generate_id (drawn w) in
    let w1 := logged passwords_insertOne_op (draw w) in
    if existsb (fun d => String.eqb (Cred._id d) oid) (passwords w)
    then (Throw DuplicateKey, w1)
    else (Ok oid, set_passwords (passwords w ++ [doc oid]) w1).

Definition passwords_updateOne (q : Cred.t -> bool) (set : Cred.t -> Cred.t) : M unit :=
  fun w => (Ok tt, set_passwords (update_first q set (passwords w))
                                 (logged passwords_updateOne_op w)).

Definition passwords_deleteOne (q : Cred.t -> bool) : M unit :=
  fun w => (Ok tt, set_passwords (delete_first q (passwords w))
                                 (logged passwords_deleteOne_op w)).

(** *** The token gate *)

(** [authHeader && authHeader.split(" ")[1]]; [None] is [undefined]. *)
Definition bearer (authHeader : option string) : option string :=
  match authHeader with
  | None => None
  | Some h => if String.eqb h "" then Some "" else split " " h !! 1%nat
  end.

(** [!token] *)
Definition no_token (token : option string) : bool :=
  match token with
  | None => true
  | Some t => String.eqb t ""
  end.

Definition verifyToken (authHeader : option string)
    (next : Claims.t -> M response) : M response :=
  let token := bearer authHeader in
  if no_token token then
    mret (reply 401 false "Access denied. No token provided.")
  else
    match jwt_verify (default "" token) with
    | Decoded decoded => next decoded
    | Rejected name =>
        if String.eqb name "TokenExpiredError" then
          mret (reply 401 false "Token expired. Please login again.")
        else
          mret (reply 401 false "Invalid token.")
    end.

(** *** Input validation helpers

    Each is used under [!] only, so it returns the truthiness of the
    source's result. *)

Definition validateEmail (email : jsval) : bool :=
  test emailRegex (js_String email).

(** [password && password.length >= 6] *)
Definition validatePassword (password : jsval) : result bool :=
  if truthy password then
    match js_length password with
    | Ok len => Ok (js_ge len 6)
    | Throw e => Throw e
    end
  else Ok false.

(** [username && username.trim().length >= 2] *)
Definition validateUsername (username : jsval) : result bool :=
  if truthy username then
    match js_trim username with
    | Ok t => Ok (2 <=? String.length t)%nat
    | Throw e => Throw e
    end
  else Ok false.

(** *** Identity routes *)

Definition internal_error (message : string) : exn -> M response :=
  fun _ => mret (reply 500 false message).

(** [POST /api/auth/register] *)
Definition register (username email password : jsval) : M response :=
  try_catch
    (if negb (truthy username) || negb (truthy email) || negb (truthy password) then
       mret (reply 400 false "All fields are required")
     else if negb (validateEmail email) then
       mret (reply 400 false "Please provide a valid email address")
     else
       okUsername ← lift (validateUsername username);
       if negb okUsername then
         mret (reply 400 false "Username must be at least 2 characters long")
       else
         okPassword ← lift (validatePassword password);
         if negb okPassword then
           mret (reply 400 false "Password must be at least 6 characters long")
         else
           qEmail ← lift (js_toLowerCase email);
           qUsername ← lift (js_toLowerCase username);
           existingUser ← users_findOne (fun d =>
             String.eqb (User.email d) qEmail || String.eqb (User.username d) qUsername);
           match existingUser with
           | Some existing =>
               lowered ← lift (js_toLowerCase email);
               let field :=
                 if String.eqb (User.email existing) lowered then "Email" else "Username" in
               mret (reply 400 false (field ++ " already exists"))
           | None =>
               hashedPassword ← bcrypt_hash_js password 12;
               newUsername ← lift (js_trim username);
               newEmail ← lift (js_toLowerCase email);
               now ← new_Date;
               insertedId ← users_insertOne (fun oid =>
                 User.mk oid newUsername newEmail hashedPassword now);
               mret (mkResponse 201 (Registered "User registered successfully" insertedId))
           end)
    (internal_error "Internal server error").

(** *** Register, suspended at its lookup

    The handler is an [async] function.  At [await usersCollection.findOne]
    (line 105) it hands the query to the store and is suspended until the
    answer arrives; the handlers of other requests run in between.
    [register_lookup] is the handler up to that answer, [register_resume]
    is the handler from that answer on; both are inside the one
    [try]/[catch]. *)

(** [inl]: the response was sent already; [inr]: the answer of [findOne],
    with which the handler goes on. *)
Definition register_lookup (username email password : jsval)
    : M (response + option User.t) :=
  if negb (truthy username) || negb (truthy email) || negb (truthy password) then
    mret (inl (reply 400 false "All fields are required"))
  else if negb (validateEmail email) then
    mret (inl (reply 400 false "Please provide a valid email address"))
  else
    okUsername ← lift (validateUsername username);
    if negb okUsername then
      mret (inl (reply 400 false "Username must be at least 2 characters long"))
    else
      okPassword ← lift (validatePassword password);
      if negb okPassword then
        mret (inl (reply 400 false "Password must be at least 6 characters long"))
      else
        qEmail ← lift (js_toLowerCase email);
        qUsername ← lift (js_toLowerCase username);
        existingUser ← users_findOne (fun d =>
          String.eqb (User.email d) qEmail || String.eqb (User.username d) qUsername);
        mret (inr existingUser).

Definition register_resume (username email password : jsval)
    (existingUser : option User.t) : M response :=
  match existingUser with
  | Some existing =>
      lowered ← lift (js_toLowerCase email);
      let field :=
        if String.eqb (User.email existing) lowered then "Email" else "Username" in
      mret (reply 400 false (field ++ " already exists"))
  | None =>
      hashedPassword ← bcrypt_hash_js password 12;
      newUsername ← lift (js_trim username);
      newEmail ← lift (js_toLowerCase email);
      now ← new_Date;
      insertedId ← users_insertOne (fun oid =>
        User.mk oid newUsername newEmail hashedPassword now);
      mret (mkResponse 201 (Registered "User registered successfully" insertedId))
  end.

(** The first part under the handler's [catch]. *)
Definition register_begin (username email password : jsval)
    : M (response + option User.t) :=
  try_catch (register_lookup username email password)
    (fun error => res ← internal_error "Internal server error" error; mret (inl res)).

(** The second part under the handler's [catch]; nothing is left to do
    when the response was sent in the first part. *)
Definition register_finish (username email password : jsval)
    (suspended : response + option User.t) : M response :=
  match suspended with
  | inl res => mret res
  | inr existingUser =>
      try_catch (register_resume username email password existingUser)
        (internal_error "Internal server error")
  end.

(** Two registrations that overlap: the second request arrives while the
    first is suspended, so both lookups are answered before either handler
    goes on to hash and insert. *)
Definition register_overlapped
    (username1 email1 password1 username2 email2 password2 : jsval)
    : M (response * response) :=
  suspended1 ← register_begin username1 email1 password1;
  suspended2 ← register_begin username2 email2 password2;
  res1 ← register_finish username1 email1 password1 suspended1;
  res2 ← register_finish username2 email2 password2 suspended2;
  mret (res1, res2).

(** [POST /api/auth/login] *)
Definition login (email password : jsval) : M response :=
  try_catch
    (if negb (truthy email) || negb (truthy password) then
       mret (reply 400 false "Email and password are required")
     else if negb (validateEmail email) then
       mret (reply 400 false "Please provide a valid email address")
     else
       qEmail ← lift (js_toLowerCase email);
       found ← users_findOne (fun d => String.eqb (User.email d) qEmail);
       match found with
       | None => mret (reply 401 false "Invalid email or password")
       | Some user =>
           isMatch ← bcrypt_compare_js password (User.password user);
           if negb isMatch then
             mret (reply 401 false "Invalid email or password")
           else
             token ← jwt_sign_now (Claims.mk (User._id user) (User.username user));
             mret (mkResponse 200
                     (LoggedIn token
                        (Summary.mk (User._id user) (User.username user) (User.email user))
                        "Login successful"))
       end)
    (internal_error "Internal server error").

(** *** Vault routes, behind the gate *)

(** the filter [{ userId: req.user.id }] *)
Definition owned_by (user : Claims.t) (d : Cred.t) : bool :=
  String.eqb (Cred.userId d) (Claims.id user).

(** the filter [{ _id: new ObjectId(id) }] *)
Definition has_id (oid : ObjectId) (d : Cred.t) : bool :=
  String.eqb (Cred._id d) oid.

(** [{ $set: { site, username, password, updatedAt } }] *)
Definition set_fields (site username : string) (password : jsval)
    (updatedAt : Date) (d : Cred.t) : Cred.t :=
  Cred.mk (Cred._id d) site username password (Cred.userId d)
          (Cred.createdAt d) updatedAt.

(** [GET /api/passwords] *)
Definition list_passwords (user : Claims.t) : M response :=
  try_catch
    (findResult ← passwords_find_sorted (owned_by user);
     mret (mkResponse 200 (Records findResult)))
    (internal_error "Failed to retrieve passwords").

(** The input validation of [POST /api/passwords]: the 400 response of the
    first guard that fires, [None] when all four let the request through. *)
Definition save_validation (site username password : jsval)
    : result (option response) :=
  if negb (truthy site) || negb (truthy username) || negb (truthy password) then
    mret (Some (reply 400 false "Site, username, and password are required"))
  else
    trimmedSite ← js_trim site;
    if (String.length trimmedSite <? 3)%nat then
      mret (Some (reply 400 false "Site must be at least 3 characters long"))
    else
      trimmedUsername ← js_trim username;
      if (String.length trimmedUsername <? 1)%nat then
        mret (Some (reply 400 false "Username cannot be empty"))
      else
        len ← js_length password;
        if js_lt len 1 then
          mret (Some (reply 400 false "Password cannot be empty"))
        else mret None.

(** [POST /api/passwords] *)
Definition save_password (user : Claims.t) (site username password : jsval)
    : M response :=
  try_catch
    (rejected ← lift (save_validation site username password);
     match rejected with
     | Some res => mret res
     | None =>
         newSite ← lift (js_trim site);
         newUsername ← lift (js_trim username);
         createdAt ← new_Date;
         updatedAt ← new_Date;
         insertedId ← passwords_insertOne (fun oid =>
           Cred.mk oid newSite newUsername password (Claims.id user)
                   createdAt updatedAt);
         mret (mkResponse 201 (Inserted insertedId "Password saved successfully"))
     end)
    (internal_error "Failed to save password").

(** The input validation of [PUT /api/passwords/:id], after the id check:
    the guards the handler has. *)
Definition update_validation (site username password : jsval)
    : result (option response) :=
  if negb (truthy site) || negb (truthy username) || negb (truthy password) then
    mret (Some (reply 400 false "Site, username, and password are required"))
  else
    trimmedSite ← js_trim site;
    if (String.length trimmedSite <? 3)%nat then
      mret (Some (reply 400 false "Site must be at least 3 characters long"))
    else mret None.

(** [PUT /api/passwords/:id] *)
Definition update_password (user : Claims.t) (id : string)
    (site username password : jsval) : M response :=
  try_catch
    (if negb (ObjectId_isValid id) then
       mret (reply 400 false "Invalid password ID format")
     else
       rejected ← lift (update_validation site username password);
       match rejected with
       | Some res => mret res
       | None =>
           oid ← ObjectId_of id;
           found ← passwords_findOne (fun d => has_id oid d && owned_by user d);
           match found with
           | None => mret (reply 404 false "Password not found or access denied")
           | Some _ =>
               newSite ← lift (js_trim site);
               newUsername ← lift (js_trim username);
               updatedAt ← new_Date;
               target ← ObjectId_of id;
               passwords_updateOne (has_id target)
                 (set_fields newSite newUsername password updatedAt);;
               mret (reply 200 true "Password updated successfully")
           end
       end)
    (internal_error "Failed to update password").

(** [DELETE /api/passwords/:id] *)
Definition delete_password (user : Claims.t) (id : string) : M response :=
  try_catch
    (if negb (ObjectId_isValid id) then
       mret (reply 400 false "Invalid password ID format")
     else
       oid ← ObjectId_of id;
       found ← passwords_findOne (fun d => has_id oid d && owned_by user d);
       match found with
       | None => mret (reply 404 false "Password not found or access denied")
       | Some _ =>
           target ← ObjectId_of id;
           passwords_deleteOne (has_id target);;
           mret (reply 200 true "Password deleted successfully")
       end)
    (internal_error "Failed to delete password").

(** *** Requests *)

Inductive request : Type :=
| POST_register (username email password : jsval)
| POST_login (email password : jsval)
| GET_passwords (authorization : option string)
| POST_passwords (authorization : option string) (site username password : jsval)
| PUT_passwords (authorization : option string) (id : string)
    (site username password : jsval)
| DELETE_passwords (authorization : option string) (id : string).

Definition route (r : request) : M response :=
  match r with
  | POST_register username email password => register username email password
  | POST_login email password => login email password
  | GET_passwords auth => verifyToken auth list_passwords
  | POST_passwords auth site username password =>
      verifyToken auth (fun user => save_password user site username password)
  | PUT_passwords auth id site username password =>
      verifyToken auth (fun user => update_password user id site username password)
  | DELETE_passwords auth id =>
      verifyToken auth (fun user => delete_password user id)
  end.

(** One request served: the response sent and the world left behind.  An
    exception no handler caught reaches the global error handler. *)
Definition serve (r : request) (w : world) : response * world :=
  match route r w with
  | (Ok res, w') => (res, w')
  | (Throw _, w') => (reply 500 false "Internal server error", w')
  end.

(** Requests served one after the other. *)
Fixpoint serve_all (rs : list request) (w : world) : list response * world :=
  match rs with
  | [] => ([], w)
  | r :: rs' =>
      let '(res, w1) := serve r w in
      let '(ress, w2) := serve_all rs' w1 in
      (res :: ress, w2)
  end.

(** *** Vocabulary of the specification *)

(** The request carries a token that verifies, and [user] is what the gate
    puts in [req.user]. *)
Definition authenticated (authorization : option string) (user : Claims.t) : Prop :=
  exists token, bearer authorization = Some token /\ token <> "" /\
                jwt_verify token = Decoded user.

(** The authorization header of a request to a protected route. *)
Definition protected (r : request) : option (option string) :=
  match r with
  | POST_register _ _ _ | POST_login _ _ => None
  | GET_passwords auth | POST_passwords auth _ _ _
  | PUT_passwords auth _ _ _ _ | DELETE_passwords auth _ => Some auth
  end.

(** The identity the gate would hand to the handler of [r]. *)
Definition caller (r : request) : option Claims.t :=
  match protected r with
  | Some auth =>
      let token := bearer auth in
      if no_token token then None
      else match jwt_verify (default "" token) with
           | Decoded user => Some user
           | Rejected _ => None
           end
  | None => None
  end.

(** Who created which record: a ledger kept beside the store, written when
    a Create answers with the id it inserted and never otherwise. *)
Definition record_creation (r : request) (res : response)
    (ledger : gmap string string) : gmap string string :=
  match r, caller r, json res with
  | POST_passwords _ _ _ _, Some user, Inserted oid _ => <[oid := Claims.id user]> ledger
  | _, _, _ => ledger
  end.

Fixpoint run (rs : list request) (w : world) (ledger : gmap string string)
    : world * gmap string string :=
  match rs with
  | [] => (w, ledger)
  | r :: rs' =>
      let '(res, w1) := serve r w in
      run rs' w1 (record_creation r res ledger)
  end.

(** Every stored record is owned by the caller the ledger names. *)
Definition owners_are_creators (w : world) (ledger : gmap string string) : Prop :=
  forall d, d ∈ passwords w -> ledger !! Cred._id d = Some (Cred.userId d).

(** [_id] is unique in the collection, as MongoDB has it. *)
Definition unique_ids (w : world) : Prop :=
  NoDup (map Cred._id (passwords w)).

End Server.

(** ** Invariants of the two collections *)

(** No two users share an email. *)
Definition emails_unique (w : world) : Prop :=
  NoDup (map User.email (users w)).

(** Every stored email is lower-case and every stored username is trimmed. *)
Definition users_normalised (w : world) : Prop :=
  forall d, d ∈ users w ->
    toLowerCase (User.email d) = User.email d
    /\ trim (User.username d) = User.username d.

(** Every stored record has a trimmed site of three code units or more and a
    trimmed username. *)
Definition records_normalised (w : world) : Prop :=
  forall d, d ∈ passwords w ->
    trim (Cred.site d) = Cred.site d
    /\ (3 <= String.length (Cred.site d))%nat
    /\ trim (Cred.username d) = Cred.username d.

(** ** The client: [services/api.js] *)

Module Api.

(** [localStorage], a map from keys to strings; [getItem] is the lookup. *)
Definition getToken (localStorage : gmap string string) : option string :=
  localStorage !! "token".

Definition setToken (token : string) (localStorage : gmap string string)
    : gmap string string :=
  <["token" := token]> localStorage.

Definition removeToken (localStorage : gmap string string) : gmap string string :=
  delete "user" (delete "token" localStorage).

(** [!!getToken()] *)
Definition isAuthenticated (localStorage : gmap string string) : bool :=
  match getToken localStorage with
  | Some token => negb (String.eqb token "")
  | None => false
  end.

(** [getAuthHeaders()]: the [Authorization] header it puts beside the
    content type, if any: [...(token && { Authorization: `Bearer ${token}` })]. *)
Definition getAuthHeaders (localStorage : gmap string string) : option string :=
  match localStorage !! "token" with
  | Some token => if String.eqb token "" then None else Some ("Bearer " ++ token)
  | None => None
  end.

(** [data.message] *)
Definition message_of (data : body) : option string :=
  match data with
  | Message _ message => Some message
  | Registered message _ => Some message
  | LoggedIn _ _ message => Some message
  | Records _ => None
  | Inserted _ message => Some message
  end.

(** [response.ok] *)
Definition ok (res : response) : bool :=
  (200 <=? status res)%nat && (status res <=? 299)%nat.

(** [handleResponse]: the parsed body, or the message of the [Error] thrown:
    [data.message || `HTTP error! status: ${response.status}`]. *)
Definition handleResponse (res : response) : body + string :=
  if ok res then inl (json res)
  else
    let fallback :=
      "HTTP error! status: " ++ NilZero.string_of_uint (Nat.to_uint (status res)) in
    inr (match message_of (json res) with
         | Some message => if String.eqb message "" then fallback else message
         | None => fallback
         end).

End Api.

(** ** The client: the forms of [Manager.jsx], [Register.jsx] and [Login.jsx]

    The value of a controlled text input is a string. *)

Module Manager.

Record form : Type := mkForm { site : string; username : string; password : string }.

(** [validateForm]: the message of the toast it raises, [None] where it
    returns [true]. *)
Definition validateForm (f : form) : option string :=
  if String.eqb (trim (site f)) "" then Some "Please enter a website URL"
  else if String.eqb (trim (username f)) "" then Some "Please enter a username"
  else if String.eqb (trim (password f)) "" then Some "Please enter a password"
  else if (String.length (trim (site f)) <? 3)%nat then
    Some "Website URL must be at least 3 characters long"
  else None.

(** the test each [catch] makes before it logs the user out:
    [error.message.includes("401") || error.message.includes("token")] *)
Definition logs_out (message : string) : bool :=
  includes message "401" || includes message "token".

End Manager.

Module RegisterPage.

Record form : Type := mkForm {
  username : string;
  email : string;
  password : string;
  confirmPassword : string
}.

(** [validateForm]: the entries of [newErrors], in the order they are
    written; the form is valid when there is none. *)
Definition validateForm (f : form) : list (string * string) :=
  (if String.eqb (trim (username f)) "" then [("username", "Username is required")]
   else if (String.length (trim (username f)) <? 2)%nat then
     [("username", "Username must be at least 2 characters long")]
   else [])
  ++ (if String.eqb (trim (email f)) "" then [("email", "Email is required")]
      else if negb (test emailRegex (email f)) then
        [("email", "Please enter a valid email address")]
      else [])
  ++ (if String.eqb (password f) "" then [("password", "Password is required")]
      else if (String.length (password f) <? 6)%nat then
        [("password", "Password must be at least 6 characters long")]
      else [])
  ++ (if String.eqb (password f) (confirmPassword f) then []
      else [("confirmPassword", "Passwords do not match")]).

End RegisterPage.

Module LoginPage.

Record form : Type := mkForm { email : string; password : string }.

Definition validateForm (f : form) : list (string * string) :=
  (if String.eqb (trim (email f)) "" then [("email", "Email is required")]
   else if negb (test emailRegex (email f)) then
     [("email", "Please enter a valid email address")]
   else [])
  ++ (if String.eqb (password f) "" then [("password", "Password is required")]
      else []).

End LoginPage.

(** ** A concrete environment, for running the handlers

    Tokens are named, ids are 24 hexadecimal digits, the clock ticks once per
    draw. *)

Module Demo.

Definition isHex (c : ascii) : bool :=
  let n := nat_of_ascii c in
  ((48 <=? n)%nat && (n <=? 57)%nat) || ((65 <=? n)%nat && (n <=? 70)%nat)
  || ((97 <=? n)%nat && (n <=? 102)%nat).

Fixpoint allHex (s : string) : bool :=
  match s with
  | EmptyString => true
  | String c s' => isHex c && allHex s'
  end.

Definition hexdigit (n : nat) : ascii :=
  ascii_of_nat (if (n <? 10)%nat then 48 + n else 87 + n).

Definition alice_id : ObjectId := "64b000000000000000000a11".
Definition bob_id : ObjectId := "64b000000000000000000b0b".
Definition alice : Claims.t := Claims.mk alice_id "alice".
Definition bob : Claims.t := Claims.mk bob_id "bob".

#[export] Instance externals : Externals := {|
  ToString := fun _ => "[object Object]";
  compare_coerced := fun _ _ => None;
  new_ObjectId := fun s =>
    if (String.length s =? 24)%nat && allHex s then Some (toLowerCase s) else None;
  jwt_verify := fun t =>
    if String.eqb t "alice.jwt" then Decoded alice
    else if String.eqb t "bob.jwt" then Decoded bob
    else if String.eqb t "old.jwt" then Rejected "TokenExpiredError"
    else Rejected "JsonWebTokenError";
  jwt_sign := fun c _ => Claims.username c ++ ".jwt";
  bcrypt_hash := fun s _ _ => "$2a$12$" ++ s;
  bcrypt_compare := fun s h => String.eqb h ("$2a$12$" ++ s);
  clock := fun n => (1700000000000 + Z.of_nat n)%Z;
  generate_id := fun n =>
    "65c0000000000000000000" ++
    String (hexdigit ((n / 16) mod 16)) (String (hexdigit (n mod 16)) EmptyString)
|}.

(** The same environment with every clock reading in one millisecond. *)
Definition same_millisecond : Externals := {|
  ToString := ToString;
  compare_coerced := compare_coerced;
  new_ObjectId := new_ObjectId;
  jwt_verify := jwt_verify;
  jwt_sign := jwt_sign;
  bcrypt_hash := bcrypt_hash;
  bcrypt_compare := bcrypt_compare;
  clock := fun _ => 1700000000000%Z;
  generate_id := generate_id
|}.

Definition as_alice : option string := Some "Bearer alice.jwt".
Definition as_bob : option string := Some "Bearer bob.jwt".

(** Alice's record for example.com, created at 1000 and last written at
    2000. *)
Definition alices_record : Cred.t :=
  Cred.mk "65c000000000000000000001" "example.com" "alice" (JStr "hunter2")
          alice_id 1000 2000.

Definition bobs_record : Cred.t :=
  Cred.mk "65c000000000000000000002" "bank.example" "bob" (JStr "s3cret")
          bob_id 1500 1500.

(** Who created the two records. *)
Definition ledger : gmap string string :=
  <["65c000000000000000000002" := bob_id]>
    {["65c000000000000000000001" := alice_id]}.

Definition empty : world := mkWorld [] [] 0 [].

Definition vault : world := mkWorld [] [alices_record; bobs_record] 16 [].

(** A user registered as "Alice", stored as the Register handler stores
    it. *)
Definition registered : world :=
  mkWorld [User.mk alice_id "Alice" "alice@x.com" "$2a$12$secret1" 500] [] 16 [].

End Demo.

(** * Properties *)

Section Properties.

Context {ext : Externals}.

Local Open Scope list_scope.

(** ** The token gate *)

Lemma no_token_some (t : string) : t <> "" -> no_token (Some t) = false.
Proof.
  intros H. simpl. destruct (String.eqb_spec t ""); congruence.
Qed.

Lemma verifyToken_missing auth next w :
  no_token (bearer auth) = true ->
  verifyToken auth next w =
    (Ok (reply 401 false "Access denied. No token provided."), w).
Proof. intros H. unfold verifyToken. rewrite H. reflexivity. Qed.

Lemma verifyToken_rejected auth next w token name :
  bearer auth = Some token -> token <> "" ->
  jwt_verify token = Rejected name ->
  verifyToken auth next w =
    (Ok (reply 401 false
           (if String.eqb name "TokenExpiredError"
            then "Token expired. Please login again." else "Invalid token.")), w).
Proof.
  intros Hb Ht Hv. unfold verifyToken. rewrite Hb, (no_token_some _ Ht).
  simpl. rewrite Hv. destruct (String.eqb name "TokenExpiredError"); reflexivity.
Qed.

Lemma verifyToken_decoded auth user next :
  authenticated auth user -> verifyToken auth next = next user.
Proof.
  intros (token & Hb & Ht & Hv). unfold verifyToken.
  rewrite Hb, (no_token_some _ Ht). simpl. rewrite Hv. reflexivity.
Qed.

(** A protected route is the gate in front of some handler. *)
Lemma protected_route r auth :
  protected r = Some auth -> exists next, route r = verifyToken auth next.
Proof.
  destruct r; simpl; intros H; inversion H; subst; eauto.
Qed.

(** C4. On every protected Vault route a request without a bearer token is
    answered 401 "Access denied. No token provided.", one whose token has
    expired 401 "Token expired. Please login again.", and one whose token is
    invalid in any other way 401 "Invalid token.".  In all three cases the
    world is left exactly as it was, the database log included: the gate
    answers before any access to the store.  The three messages differ. *)
Theorem gate_denies_with_401 (r : request) (auth : option string) (w : world) :
  protected r = Some auth ->
  (no_token (bearer auth) = true ->
     serve r w = (reply 401 false "Access denied. No token provided.", w))
  /\ (forall token, bearer auth = Some token -> token <> "" ->
        jwt_verify token = Rejected "TokenExpiredError" ->
        serve r w = (reply 401 false "Token expired. Please login again.", w))
  /\ (forall token name, bearer auth = Some token -> token <> "" ->
        jwt_verify token = Rejected name -> name <> "TokenExpiredError" ->
        serve r w = (reply 401 false "Invalid token.", w))
  /\ reply 401 false "Access denied. No token provided."
       <> reply 401 false "Token expired. Please login again."
  /\ reply 401 false "Access denied. No token provided."
       <> reply 401 false "Invalid token."
  /\ reply 401 false "Token expired. Please login again."
       <> reply 401 false "Invalid token.".
Proof.
  intros Hp. destruct (protected_route _ _ Hp) as [next Hr].
  unfold serve. rewrite Hr.
  split; [|split; [|split; [|repeat split; discriminate]]].
  - intros Hn. rewrite (verifyToken_missing _ _ _ Hn). reflexivity.
  - intros token Hb Ht Hv.
    rewrite (verifyToken_rejected _ _ _ _ _ Hb Ht Hv). reflexivity.
  - intros token name Hb Ht Hv Hne.
    rewrite (verifyToken_rejected _ _ _ _ _ Hb Ht Hv).
    destruct (String.eqb_spec name "TokenExpiredError"); [contradiction|reflexivity].
Qed.

(** ** Running a handler *)

Ltac run :=
  unfold mbind, M_bind, mret, M_ret, mthrow, M_throw, lift, try_catch,
    internal_error, passwords_findOne, passwords_find_sorted, passwords_insertOne,
    passwords_updateOne, passwords_deleteOne, new_Date, ObjectId_of,
    ObjectId_isValid; simpl.

(** ** Ownership: Update and Delete on a record that is not the caller's *)

Lemma find_not_owned (user : Claims.t) (oid : ObjectId) (l : list Cred.t) :
  (forall d, d ∈ l -> Cred._id d = oid -> Cred.userId d <> Claims.id user) ->
  List.find (fun d => has_id oid d && owned_by user d) l = None.
Proof.
  induction l as [|d l IH]; intros H; simpl; [reflexivity|].
  unfold has_id, owned_by at 1.
  destruct (String.eqb_spec (Cred._id d) oid) as [Hid|Hid]; simpl.
  - destruct (String.eqb_spec (Cred.userId d) (Claims.id user)) as [Ho|Ho].
    + exfalso. apply (H d); [left|assumption|assumption].
    + apply IH. intros d' Hin. apply H. right. exact Hin.
  - apply IH. intros d' Hin. apply H. right. exact Hin.
Qed.

Lemma delete_not_owned user id oid w :
  new_ObjectId id = Some oid ->
  (forall d, d ∈ passwords w -> Cred._id d = oid -> Cred.userId d <> Claims.id user) ->
  delete_password user id w =
    (Ok (reply 404 false "Password not found or access denied"),
     logged passwords_findOne_op w).
Proof.
  intros Hid Hno. unfold delete_password. run. rewrite Hid. simpl.
  rewrite (find_not_owned _ _ _ Hno). reflexivity.
Qed.

Lemma update_not_owned user id oid site username password w :
  new_ObjectId id = Some oid ->
  (forall d, d ∈ passwords w -> Cred._id d = oid -> Cred.userId d <> Claims.id user) ->
  update_validation site username password = Ok None ->
  update_password user id site username password w =
    (Ok (reply 404 false "Password not found or access denied"),
     logged passwords_findOne_op w).
Proof.
  intros Hid Hno Hval. unfold update_password. run. rewrite Hid. simpl.
  rewrite Hval. rewrite (find_not_owned _ _ _ Hno). reflexivity.
Qed.

(** Whatever the body, an Update aimed at a record that is not the caller's
    answers 400, 404 or 500 and leaves both collections alone. *)
Lemma update_not_owned_any_body user id oid site username password w :
  new_ObjectId id = Some oid ->
  (forall d, d ∈ passwords w -> Cred._id d = oid -> Cred.userId d <> Claims.id user) ->
  exists res w',
    update_password user id site username password w = (Ok res, w')
    /\ (status res = 400 \/ status res = 404 \/ status res = 500)%nat
    /\ passwords w' = passwords w /\ users w' = users w.
Proof.
  intros Hid Hno.
  destruct (update_validation site username password) as [[res|]|e] eqn:Hval.
  - exists res, w. unfold update_password. run. rewrite Hid. simpl. rewrite Hval.
    split; [reflexivity|]. split; [|split; reflexivity].
    unfold update_validation in Hval.
    destruct (negb (truthy site) || negb (truthy username) || negb (truthy password)).
    + inversion Hval. left. reflexivity.
    + destruct (js_trim site) as [t|]; simpl in Hval; [|discriminate].
      destruct (String.length t <? 3)%nat; inversion Hval. left. reflexivity.
  - rewrite (update_not_owned _ _ _ _ _ _ _ Hid Hno Hval).
    eexists _, _. split; [reflexivity|]. simpl. auto.
  - exists (reply 500 false "Failed to update password"), w.
    unfold update_password. run. rewrite Hid. simpl. rewrite Hval.
    split; [reflexivity|]. simpl. auto.
Qed.

(** C1, as amended.  An authenticated Delete whose id is well-formed but
    names no record, or a record of another owner, is answered 404
    "Password not found or access denied"; so is an authenticated Update
    whose body passes the handler's field validation.  Whatever its body,
    such an Update is never answered 200 or 403.  In all cases both
    collections are left as they were. *)
Theorem foreign_record_is_not_found (auth : option string) (user : Claims.t)
    (id : string) (oid : ObjectId) (w : world) :
  authenticated auth user ->
  new_ObjectId id = Some oid ->
  (forall d, d ∈ passwords w -> Cred._id d = oid -> Cred.userId d <> Claims.id user) ->
  serve (DELETE_passwords auth id) w =
    (reply 404 false "Password not found or access denied",
     logged passwords_findOne_op w)
  /\ forall site username password,
       (update_validation site username password = Ok None ->
          serve (PUT_passwords auth id site username password) w =
            (reply 404 false "Password not found or access denied",
             logged passwords_findOne_op w))
       /\ (let '(res, w') := serve (PUT_passwords auth id site username password) w in
           status res <> 200%nat /\ status res <> 403%nat
           /\ passwords w' = passwords w /\ users w' = users w).
Proof.
  intros Hauth Hid Hno. split.
  - unfold serve, route. rewrite (verifyToken_decoded _ _ _ Hauth).
    rewrite (delete_not_owned _ _ _ _ Hid Hno). reflexivity.
  - intros site username password. split.
    + intros Hval. unfold serve, route. rewrite (verifyToken_decoded _ _ _ Hauth).
      rewrite (update_not_owned _ _ _ _ _ _ _ Hid Hno Hval). reflexivity.
    + unfold serve, route. rewrite (verifyToken_decoded _ _ _ Hauth).
      destruct (update_not_owned_any_body user id oid site username password w Hid Hno)
        as (res & w' & -> & Hst & Hp & Hu).
      repeat split; try assumption; intros E; rewrite E in Hst;
        destruct Hst as [?|[?|?]]; discriminate.
Qed.

(** ** Login *)

Lemma emailRegex_nonempty (e : string) : test emailRegex e = true -> e <> "".
Proof. intros H ->. discriminate H. Qed.

Lemma truthy_JStr (s : string) : s <> "" -> truthy (JStr s) = true.
Proof. intros H. simpl. destruct (String.eqb_spec s ""); [contradiction|reflexivity]. Qed.

Lemma find_absent {A : Type} (q : A -> bool) (l : list A) :
  (forall d, d ∈ l -> q d = false) -> List.find q l = None.
Proof.
  induction l as [|d l IH]; intros H; simpl; [reflexivity|].
  rewrite (H d) by left. apply IH. intros d' Hin. apply H. right. exact Hin.
Qed.

Lemma find_present {A : Type} (q : A -> bool) (l : list A) (x : A) :
  x ∈ l -> q x = true -> exists d, List.find q l = Some d /\ d ∈ l /\ q d = true.
Proof.
  induction l as [|d l IH]; intros Hin Hq; [inversion Hin|].
  simpl. destruct (q d) eqn:Hd.
  - exists d. repeat split; [left|assumption].
  - apply elem_of_cons in Hin as [->|Hin]; [congruence|].
    destruct (IH Hin Hq) as (d' & Hf & Hin' & Hq').
    exists d'. repeat split; [assumption|right; assumption|assumption].
Qed.

(** No user has the lower-cased email: 401 with the generic message. *)
Lemma login_unknown_email (e : string) (password : jsval) (w : world) :
  test emailRegex e = true -> truthy password = true ->
  (forall d, d ∈ users w -> User.email d <> toLowerCase e) ->
  login (JStr e) password w =
    (Ok (reply 401 false "Invalid email or password"), logged users_findOne_op w).
Proof.
  intros He Hp Hno. unfold login, validateEmail. simpl js_String.
  rewrite (truthy_JStr _ (emailRegex_nonempty _ He)), Hp, He. run.
  unfold users_findOne. rewrite find_absent; [reflexivity|].
  intros d Hin. destruct (String.eqb_spec (User.email d) (toLowerCase e)); [|reflexivity].
  exfalso. eapply Hno; eassumption.
Qed.

(** The email is known and the password matches none of the hashes stored
    under it: 401 with the same message. *)
Lemma login_wrong_password (e p : string) (w : world) :
  test emailRegex e = true -> p <> "" ->
  (exists d, d ∈ users w /\ User.email d = toLowerCase e) ->
  (forall d, d ∈ users w -> User.email d = toLowerCase e ->
             bcrypt_compare p (User.password d) = false) ->
  login (JStr e) (JStr p) w =
    (Ok (reply 401 false "Invalid email or password"), logged users_findOne_op w).
Proof.
  intros He Hp (x & Hx & Hxe) Hbad. unfold login, validateEmail. simpl js_String.
  rewrite (truthy_JStr _ (emailRegex_nonempty _ He)), (truthy_JStr _ Hp), He. run.
  unfold users_findOne.
  destruct (find_present (fun d => String.eqb (User.email d) (toLowerCase e))
              (users w) x Hx) as (d & -> & Hin & Hq).
  { apply String.eqb_eq. exact Hxe. }
  apply String.eqb_eq in Hq. rewrite (Hbad d Hin Hq). reflexivity.
Qed.

(** Outside the two cases above: a password that is present but is not a
    string never reaches a comparison, since bcryptjs throws on it, and the
    handler's [catch] answers 500 when the email is known. *)
Lemma login_password_not_a_string (e : string) (password : jsval) (w : world) :
  test emailRegex e = true -> truthy password = true ->
  (forall p, password <> JStr p) ->
  (exists d, d ∈ users w /\ User.email d = toLowerCase e) ->
  login (JStr e) password w =
    (Ok (reply 500 false "Internal server error"), logged users_findOne_op w).
Proof.
  intros He Hp Hns (x & Hx & Hxe). unfold login, validateEmail. simpl js_String.
  rewrite (truthy_JStr _ (emailRegex_nonempty _ He)), Hp, He. run.
  unfold users_findOne.
  destruct (find_present (fun d => String.eqb (User.email d) (toLowerCase e))
              (users w) x Hx) as (d & -> & _ & _).
  { apply String.eqb_eq. exact Hxe. }
  destruct password; try reflexivity. exfalso. eapply Hns. reflexivity.
Qed.

(** The part of the two failures that does agree: passwords that are
    strings.  Take two login requests with syntactically valid emails.  In
    the first, no user has the lower-cased email.  In the second, users with
    the lower-cased email exist and the submitted string matches none of
    their stored hashes.  The two responses are the same response: status
    401 with the one message "Invalid email or password".  A password that
    is present and not a string is the case of
    [login_password_not_a_string]. *)
Lemma login_401_for_string_passwords
    (e1 : string) (password1 : jsval) (w1 : world)
    (e2 p2 : string) (w2 : world) :
  test emailRegex e1 = true -> truthy password1 = true ->
  (forall d, d ∈ users w1 -> User.email d <> toLowerCase e1) ->
  test emailRegex e2 = true -> p2 <> "" ->
  (exists d, d ∈ users w2 /\ User.email d = toLowerCase e2) ->
  (forall d, d ∈ users w2 -> User.email d = toLowerCase e2 ->
             bcrypt_compare p2 (User.password d) = false) ->
  fst (serve (POST_login (JStr e1) password1) w1)
    = fst (serve (POST_login (JStr e2) (JStr p2)) w2)
  /\ fst (serve (POST_login (JStr e1) password1) w1)
    = reply 401 false "Invalid email or password".
Proof.
  intros He1 Hp1 Hno He2 Hp2 Hex Hbad. unfold serve, route.
  rewrite (login_unknown_email _ _ _ He1 Hp1 Hno).
  rewrite (login_wrong_password _ _ _ He2 Hp2 Hex Hbad).
  split; reflexivity.
Qed.

(** ** List *)

Lemma owned_by_spec (user : Claims.t) (d : Cred.t) :
  owned_by user d = true <-> Cred.userId d = Claims.id user.
Proof. unfold owned_by. apply String.eqb_eq. Qed.

Lemma has_id_spec (oid : ObjectId) (d : Cred.t) :
  has_id oid d = true <-> Cred._id d = oid.
Proof. unfold has_id. apply String.eqb_eq. Qed.

Lemma elem_of_filter_bool {A : Type} (q : A -> bool) (l : list A) (x : A) :
  x ∈ List.filter q l <-> x ∈ l /\ q x = true.
Proof. rewrite !list_elem_of_In. apply filter_In. Qed.

Lemma list_passwords_run (user : Claims.t) (w : world) :
  list_passwords user w =
    (Ok (mkResponse 200
           (Records (merge_sort newest_first
                       (List.filter (owned_by user) (passwords w))))),
     logged passwords_find_op w).
Proof. reflexivity. Qed.

Lemma listed_iff (user : Claims.t) (w : world) (d : Cred.t) :
  d ∈ merge_sort newest_first (List.filter (owned_by user) (passwords w))
  <-> d ∈ passwords w /\ Cred.userId d = Claims.id user.
Proof.
  rewrite merge_sort_Permutation, elem_of_filter_bool, owned_by_spec.
  reflexivity.
Qed.

(** C5. An authenticated List is answered 200 with a list that holds
    exactly the stored records whose [userId] is the caller's identity (the
    same records, as many times as the store holds them, and none of any
    other user), arranged so that no record comes before one created later;
    the collection is not changed. *)
Theorem list_returns_the_callers_records_newest_first
    (auth : option string) (user : Claims.t) (w : world) :
  authenticated auth user ->
  exists docs,
    serve (GET_passwords auth) w =
      (mkResponse 200 (Records docs), logged passwords_find_op w)
    /\ (forall d, d ∈ docs <-> d ∈ passwords w /\ Cred.userId d = Claims.id user)
    /\ docs ≡ₚ List.filter (owned_by user) (passwords w)
    /\ StronglySorted (fun a b => (Cred.createdAt b <= Cred.createdAt a)%Z) docs.
Proof.
  intros Hauth.
  exists (merge_sort newest_first (List.filter (owned_by user) (passwords w))).
  split; [|split; [|split]].
  - unfold serve, route. rewrite (verifyToken_decoded _ _ _ Hauth).
    rewrite list_passwords_run. reflexivity.
  - intros d. apply listed_iff.
  - apply merge_sort_Permutation.
  - apply (StronglySorted_merge_sort newest_first).
Qed.

(** C10. An authenticated List answers with the stored documents
    themselves: every record of the caller in the collection appears in the
    body with its [password] exactly as persisted, next to its [site],
    [username], [userId], [createdAt], [updatedAt] and [_id], and every
    entry of the body is such a stored record, field for field. *)
Theorem list_returns_passwords_verbatim
    (auth : option string) (user : Claims.t) (w : world) :
  authenticated auth user ->
  exists docs w',
    serve (GET_passwords auth) w = (mkResponse 200 (Records docs), w')
    /\ (forall d, d ∈ passwords w -> Cred.userId d = Claims.id user ->
          exists e, e ∈ docs
            /\ Cred.password e = Cred.password d
            /\ Cred.site e = Cred.site d
            /\ Cred.username e = Cred.username d
            /\ Cred.userId e = Cred.userId d
            /\ Cred.createdAt e = Cred.createdAt d
            /\ Cred.updatedAt e = Cred.updatedAt d
            /\ Cred._id e = Cred._id d)
    /\ (forall e, e ∈ docs ->
          exists d, d ∈ passwords w
            /\ Cred.password e = Cred.password d
            /\ Cred.site e = Cred.site d
            /\ Cred.username e = Cred.username d
            /\ Cred.userId e = Cred.userId d
            /\ Cred.createdAt e = Cred.createdAt d
            /\ Cred.updatedAt e = Cred.updatedAt d
            /\ Cred._id e = Cred._id d).
Proof.
  intros Hauth.
  eexists _, _. split; [|split].
  - unfold serve, route. rewrite (verifyToken_decoded _ _ _ Hauth).
    rewrite list_passwords_run. reflexivity.
  - intros d Hin Hown. exists d. rewrite listed_iff. tauto.
  - intros e He. apply listed_iff in He as [Hin _]. exists e. tauto.
Qed.

(** ** Lists: the first match of a filter *)

Lemma find_split {A : Type} (q : A -> bool) (l : list A) (d : A) :
  List.find q l = Some d ->
  exists l1 l2, l = l1 ++ d :: l2 /\ q d = true /\ forall x, x ∈ l1 -> q x = false.
Proof.
  induction l as [|a l IH]; simpl; [discriminate|].
  destruct (q a) eqn:Ha; intros H.
  - inversion H; subst. exists [], l. repeat split; [assumption|].
    intros x Hx. inversion Hx.
  - destruct (IH H) as (l1 & l2 & -> & Hd & Hl1).
    exists (a :: l1), l2. repeat split; [assumption|].
    intros x Hx. apply elem_of_cons in Hx as [->|Hx]; auto.
Qed.

Lemma update_first_split {A : Type} (q : A -> bool) (f : A -> A)
    (l1 l2 : list A) (d : A) :
  (forall x, x ∈ l1 -> q x = false) -> q d = true ->
  update_first q f (l1 ++ d :: l2) = l1 ++ f d :: l2.
Proof.
  induction l1 as [|a l1 IH]; intros H Hd; simpl.
  - rewrite Hd. reflexivity.
  - rewrite (H a) by left. f_equal. apply IH; [|assumption].
    intros x Hx. apply H. right. exact Hx.
Qed.

Lemma delete_first_split {A : Type} (q : A -> bool) (l1 l2 : list A) (d : A) :
  (forall x, x ∈ l1 -> q x = false) -> q d = true ->
  delete_first q (l1 ++ d :: l2) = l1 ++ l2.
Proof.
  induction l1 as [|a l1 IH]; intros H Hd; simpl.
  - rewrite Hd. reflexivity.
  - rewrite (H a) by left. f_equal. apply IH; [|assumption].
    intros x Hx. apply H. right. exact Hx.
Qed.

(** With unique ids, nothing before the record has its id. *)
Lemma unique_before (l1 l2 : list Cred.t) (d : Cred.t) :
  NoDup (map Cred._id (l1 ++ d :: l2)) ->
  forall x, x ∈ l1 -> has_id (Cred._id d) x = false.
Proof.
  intros Hnd x Hx. unfold has_id.
  destruct (String.eqb_spec (Cred._id x) (Cred._id d)) as [E|]; [|reflexivity].
  exfalso. rewrite map_app in Hnd. simpl in Hnd.
  apply NoDup_app in Hnd as (_ & Hdis & _).
  apply (Hdis (Cred._id x)).
  - apply list_elem_of_fmap. exists x. split; [reflexivity|assumption].
  - rewrite E. left.
Qed.

(** ** Validation outcomes *)

Lemma js_trim_Ok (v : jsval) (t : string) :
  js_trim v = Ok t -> exists s, v = JStr s /\ t = trim s.
Proof. destruct v; simpl; intros H; inversion H. eauto. Qed.

Lemma update_validation_rejects site username password res :
  update_validation site username password = Ok (Some res) -> status res = 400%nat.
Proof.
  unfold update_validation.
  destruct (negb (truthy site) || negb (truthy username) || negb (truthy password)).
  - intros H. inversion H. reflexivity.
  - destruct (js_trim site) as [t|]; simpl; [|discriminate].
    destruct (String.length t <? 3)%nat; intros H; inversion H. reflexivity.
Qed.

Lemma update_validation_accepts site username password :
  update_validation site username password = Ok None ->
  truthy username = true /\ truthy password = true
  /\ exists s, site = JStr s /\ (3 <= String.length (trim s))%nat.
Proof.
  unfold update_validation.
  destruct (truthy site), (truthy username), (truthy password); simpl;
    try discriminate.
  destruct (js_trim site) as [t|] eqn:Ht; simpl; [|discriminate].
  destruct (String.length t <? 3)%nat eqn:Hlen; [discriminate|]. intros _.
  apply js_trim_Ok in Ht as (s & -> & ->).
  repeat split. exists s. split; [reflexivity|].
  apply Nat.ltb_ge. exact Hlen.
Qed.

Lemma save_validation_rejects site username password res :
  save_validation site username password = Ok (Some res) -> status res = 400%nat.
Proof.
  unfold save_validation.
  destruct (negb (truthy site) || negb (truthy username) || negb (truthy password)).
  { intros H. inversion H. reflexivity. }
  destruct (js_trim site) as [t|]; simpl; [|discriminate].
  destruct (String.length t <? 3)%nat. { intros H; inversion H. reflexivity. }
  destruct (js_trim username) as [u|]; simpl; [|discriminate].
  destruct (String.length u <? 1)%nat. { intros H; inversion H. reflexivity. }
  destruct (js_length password) as [len|]; simpl; [|discriminate].
  destruct (js_lt len 1); intros H; inversion H. reflexivity.
Qed.

Lemma save_validation_accepts site username password :
  save_validation site username password = Ok None ->
  truthy password = true
  /\ exists s u, site = JStr s /\ username = JStr u
       /\ (3 <= String.length (trim s))%nat /\ (1 <= String.length (trim u))%nat.
Proof.
  unfold save_validation.
  destruct (truthy site), (truthy username), (truthy password); simpl;
    try discriminate.
  destruct (js_trim site) as [t|] eqn:Ht; simpl; [|discriminate].
  destruct (String.length t <? 3)%nat eqn:Hlen; [discriminate|].
  destruct (js_trim username) as [u|] eqn:Hu; simpl; [|discriminate].
  destruct (String.length u <? 1)%nat eqn:Hlenu; [discriminate|]. intros _.
  apply js_trim_Ok in Ht as (s & -> & ->).
  apply js_trim_Ok in Hu as (u' & -> & ->).
  split; [reflexivity|]. exists s, u'.
  repeat split; apply Nat.ltb_ge; assumption.
Qed.

(** ** What each Vault handler can do to the world *)

Lemma existsb_id_false (oid : ObjectId) (l : list Cred.t) :
  existsb (fun d => String.eqb (Cred._id d) oid) l = false ->
  forall d, d ∈ l -> Cred._id d <> oid.
Proof.
  intros H d Hin E. apply list_elem_of_In in Hin.
  assert (existsb (fun d => String.eqb (Cred._id d) oid) l = true) as Ht.
  { apply existsb_exists. exists d. split; [assumption|]. apply String.eqb_eq, E. }
  congruence.
Qed.

(** Create: either the collection is untouched and the answer is not a
    201, or one record was appended: the trimmed site and username, the
    password as submitted, the caller's identity, two clock readings, under
    an id no stored record had. *)
Lemma save_password_cases user site username password w :
  exists res w',
    save_password user site username password w = (Ok res, w')
    /\ users w' = users w
    /\ ((status res <> 201%nat /\ (forall oid msg, json res <> Inserted oid msg)
         /\ passwords w' = passwords w)
        \/ (exists s u oid,
              site = JStr s /\ username = JStr u
              /\ oid = generate_id (S (S (drawn w)))
              /\ res = mkResponse 201 (Inserted oid "Password saved successfully")
              /\ (forall d, d ∈ passwords w -> Cred._id d <> oid)
              /\ passwords w' = passwords w ++
                   [Cred.mk oid (trim s) (trim u) password (Claims.id user)
                            (clock (drawn w)) (clock (S (drawn w)))])).
Proof.
  unfold save_password. run.
  destruct (save_validation site username password) as [[res|]|e] eqn:Hval; simpl.
  - eexists _, _. split; [reflexivity|]. split; [reflexivity|]. left.
    pose proof (save_validation_rejects _ _ _ _ Hval) as Hst.
    split; [rewrite Hst; discriminate|]. split; [|reflexivity].
    intros oid msg E. unfold save_validation in Hval.
    destruct (negb (truthy site) || negb (truthy username) || negb (truthy password));
      [inversion Hval; subst; discriminate|].
    destruct (js_trim site) as [t|]; simpl in Hval; [|discriminate].
    destruct (String.length t <? 3)%nat; [inversion Hval; subst; discriminate|].
    destruct (js_trim username) as [t'|]; simpl in Hval; [|discriminate].
    destruct (String.length t' <? 1)%nat; [inversion Hval; subst; discriminate|].
    destruct (js_length password) as [len|]; simpl in Hval; [|discriminate].
    destruct (js_lt len 1); inversion Hval; subst; discriminate.
  - apply save_validation_accepts in Hval as (_ & s & u & -> & -> & _ & _). simpl.
    destruct (existsb _ (passwords w)) eqn:Hex.
    + eexists _, _. split; [reflexivity|]. split; [reflexivity|]. left.
      repeat split; discriminate.
    + eexists _, _. split; [reflexivity|]. split; [reflexivity|]. right.
      exists s, u, (generate_id (S (S (drawn w)))).
      repeat split. apply existsb_id_false. exact Hex.
  - eexists _, _. split; [reflexivity|]. split; [reflexivity|]. left.
    repeat split; discriminate.
Qed.

(** Update: either the collection is untouched and the answer is not a
    200, or the first record with the id, which the ownership check found
    to be the caller's, was rewritten by [$set]. *)
Lemma update_password_cases user id site username password w :
  exists res w',
    update_password user id site username password w = (Ok res, w')
    /\ users w' = users w
    /\ ((status res <> 200%nat /\ passwords w' = passwords w)
        \/ (exists oid s u found,
              new_ObjectId id = Some oid /\ site = JStr s /\ username = JStr u
              /\ res = reply 200 true "Password updated successfully"
              /\ List.find (fun d => has_id oid d && owned_by user d) (passwords w)
                   = Some found
              /\ passwords w' =
                   update_first (has_id oid)
                     (set_fields (trim s) (trim u) password (clock (drawn w)))
                     (passwords w))).
Proof.
  unfold update_password. run.
  destruct (new_ObjectId id) as [oid|] eqn:Hid; simpl.
  2:{ eexists _, _. split; [reflexivity|]. split; [reflexivity|]. left.
      split; [discriminate|reflexivity]. }
  destruct (update_validation site username password) as [[res|]|e] eqn:Hval; simpl.
  - eexists _, _. split; [reflexivity|]. split; [reflexivity|]. left.
    rewrite (update_validation_rejects _ _ _ _ Hval). split; [discriminate|reflexivity].
  - apply update_validation_accepts in Hval as (_ & _ & s & -> & _). simpl.
    destruct (List.find _ (passwords w)) as [found|] eqn:Hfind; simpl.
    + destruct username as [| | | |u| |]; simpl;
        try (eexists _, _; split; [reflexivity|]; split; [reflexivity|]; left;
             split; [discriminate|reflexivity]).
      eexists _, _. split; [reflexivity|]. split; [reflexivity|]. right.
      exists oid, s, u, found. repeat split. exact Hfind.
    + eexists _, _. split; [reflexivity|]. split; [reflexivity|]. left.
      split; [discriminate|reflexivity].
  - eexists _, _. split; [reflexivity|]. split; [reflexivity|]. left.
    split; [discriminate|reflexivity].
Qed.

(** Delete: either the collection is untouched and the answer is not a
    200, or the first record with the id, found to be the caller's, was
    removed. *)
Lemma delete_password_cases user id w :
  exists res w',
    delete_password user id w = (Ok res, w')
    /\ users w' = users w
    /\ ((status res <> 200%nat /\ passwords w' = passwords w)
        \/ (exists oid found,
              new_ObjectId id = Some oid
              /\ res = reply 200 true "Password deleted successfully"
              /\ List.find (fun d => has_id oid d && owned_by user d) (passwords w)
                   = Some found
              /\ passwords w' = delete_first (has_id oid) (passwords w))).
Proof.
  unfold delete_password. run.
  destruct (new_ObjectId id) as [oid|] eqn:Hid; simpl.
  2:{ eexists _, _. split; [reflexivity|]. split; [reflexivity|]. left.
      split; [discriminate|reflexivity]. }
  destruct (List.find _ (passwords w)) as [found|] eqn:Hfind; simpl.
  - eexists _, _. split; [reflexivity|]. split; [reflexivity|]. right.
    exists oid, found. repeat split. exact Hfind.
  - eexists _, _. split; [reflexivity|]. split; [reflexivity|]. left.
    split; [discriminate|reflexivity].
Qed.

(** ** Successful Create and Update *)

Lemma post_success auth user site username password w res w1 :
  authenticated auth user ->
  serve (POST_passwords auth site username password) w = (res, w1) ->
  status res = 201%nat ->
  exists s u oid,
    site = JStr s /\ username = JStr u
    /\ res = mkResponse 201 (Inserted oid "Password saved successfully")
    /\ (forall d, d ∈ passwords w -> Cred._id d <> oid)
    /\ passwords w1 = passwords w ++
         [Cred.mk oid (trim s) (trim u) password (Claims.id user)
                  (clock (drawn w)) (clock (S (drawn w)))]
    /\ users w1 = users w.
Proof.
  intros Hauth Hserve Hst. unfold serve, route in Hserve.
  rewrite (verifyToken_decoded _ _ _ Hauth) in Hserve.
  destruct (save_password_cases user site username password w)
    as (res' & w' & Hrun & Hu & Hcases).
  rewrite Hrun in Hserve. inversion Hserve; subst res' w'.
  destruct Hcases as [(Hno & _)|(s & u & oid & -> & -> & _ & -> & Hfresh & Hp)];
    [contradiction|].
  exists s, u, oid. repeat split; assumption.
Qed.

Lemma put_success auth user id site username password w res w1 :
  unique_ids w ->
  authenticated auth user ->
  serve (PUT_passwords auth id site username password) w = (res, w1) ->
  status res = 200%nat ->
  exists s u before target after,
    site = JStr s /\ username = JStr u
    /\ new_ObjectId id = Some (Cred._id target)
    /\ Cred.userId target = Claims.id user
    /\ passwords w = before ++ target :: after
    /\ passwords w1 = before ++
         Cred.mk (Cred._id target) (trim s) (trim u) password (Cred.userId target)
                 (Cred.createdAt target) (clock (drawn w)) :: after
    /\ users w1 = users w.
Proof.
  intros Huniq Hauth Hserve Hst. unfold serve, route in Hserve.
  rewrite (verifyToken_decoded _ _ _ Hauth) in Hserve.
  destruct (update_password_cases user id site username password w)
    as (res' & w' & Hrun & Hu & Hcases).
  rewrite Hrun in Hserve. inversion Hserve; subst res' w'.
  destruct Hcases as [(Hno & _)|(oid & s & u & found & Hid & -> & -> & _ & Hfind & Hp)];
    [contradiction|].
  apply find_split in Hfind as (before & after & Hsplit & Hq & _).
  apply andb_true_iff in Hq as [Hhas Hown].
  apply has_id_spec in Hhas. apply owned_by_spec in Hown. subst oid.
  exists s, u, before, found, after.
  repeat split; try assumption.
  rewrite Hp, Hsplit. unfold unique_ids in Huniq. rewrite Hsplit in Huniq.
  rewrite update_first_split.
  - reflexivity.
  - apply (unique_before _ _ _ Huniq).
  - apply has_id_spec. reflexivity.
Qed.

(** C6, as amended.  After a successful Update the target record (the one
    with the submitted id, owned by the caller) holds the submitted site
    and username with surrounding white space trimmed off and the submitted
    password as it is, its [updatedAt] is the clock reading taken by the
    request, and its [_id], [userId] and [createdAt] are what they were;
    every record before and after it in the collection is unchanged, and so
    is the users collection. *)
Theorem update_rewrites_only_the_target
    (auth : option string) (user : Claims.t) (id : string)
    (site username password : jsval) (w : world) (res : response) (w1 : world) :
  unique_ids w ->
  authenticated auth user ->
  serve (PUT_passwords auth id site username password) w = (res, w1) ->
  status res = 200%nat ->
  exists s u target updated before after,
    site = JStr s /\ username = JStr u
    /\ new_ObjectId id = Some (Cred._id target)
    /\ Cred.userId target = Claims.id user
    /\ Cred.site updated = trim s
    /\ Cred.username updated = trim u
    /\ Cred.password updated = password
    /\ Cred.updatedAt updated = clock (drawn w)
    /\ Cred.createdAt updated = Cred.createdAt target
    /\ Cred.userId updated = Cred.userId target
    /\ Cred._id updated = Cred._id target
    /\ passwords w = before ++ target :: after
    /\ passwords w1 = before ++ updated :: after
    /\ users w1 = users w.
Proof.
  intros Huniq Hauth Hserve Hst.
  destruct (put_success _ _ _ _ _ _ _ _ _ Huniq Hauth Hserve Hst)
    as (s & u & before & target & after & Hs & Hu & Hid & Hown & Hw & Hw1 & Husers).
  exists s, u, target,
    (Cred.mk (Cred._id target) (trim s) (trim u) password (Cred.userId target)
             (Cred.createdAt target) (clock (drawn w))),
    before, after.
  simpl. repeat split; assumption.
Qed.

Lemma served_list auth user w :
  authenticated auth user ->
  serve (GET_passwords auth) w =
    (mkResponse 200
       (Records (merge_sort newest_first (List.filter (owned_by user) (passwords w)))),
     logged passwords_find_op w).
Proof.
  intros Hauth. unfold serve, route. rewrite (verifyToken_decoded _ _ _ Hauth).
  rewrite list_passwords_run. reflexivity.
Qed.

(** C8, as amended.  After a successful Create, a List by the same caller
    returns the new record: the submitted site and username with
    surrounding white space trimmed off, the submitted password as it is,
    and the two clock readings the server took as [createdAt] and
    [updatedAt].  After a successful Update, a List by the same caller
    returns the record with the new (trimmed) site and username and the new
    password, its [createdAt] unchanged and its [updatedAt] set to the
    clock reading taken by the Update, hence later than before whenever the
    clock has moved past the old value. *)
Theorem create_and_update_show_in_list
    (auth : option string) (user : Claims.t) (w : world) :
  authenticated auth user ->
  (forall site username password res w1,
     serve (POST_passwords auth site username password) w = (res, w1) ->
     status res = 201%nat ->
     exists s u oid docs w2,
       site = JStr s /\ username = JStr u
       /\ json res = Inserted oid "Password saved successfully"
       /\ serve (GET_passwords auth) w1 = (mkResponse 200 (Records docs), w2)
       /\ Cred.mk oid (trim s) (trim u) password (Claims.id user)
                  (clock (drawn w)) (clock (S (drawn w))) ∈ docs)
  /\ (forall id site username password res w1,
       unique_ids w ->
       serve (PUT_passwords auth id site username password) w = (res, w1) ->
       status res = 200%nat ->
       exists s u old new docs w2,
         site = JStr s /\ username = JStr u
         /\ old ∈ passwords w /\ new_ObjectId id = Some (Cred._id old)
         /\ serve (GET_passwords auth) w1 = (mkResponse 200 (Records docs), w2)
         /\ new ∈ docs
         /\ Cred._id new = Cred._id old
         /\ Cred.site new = trim s /\ Cred.username new = trim u
         /\ Cred.password new = password
         /\ Cred.userId new = Cred.userId old
         /\ Cred.createdAt new = Cred.createdAt old
         /\ Cred.updatedAt new = clock (drawn w)
         /\ ((Cred.updatedAt old < clock (drawn w))%Z ->
             (Cred.updatedAt old < Cred.updatedAt new)%Z)).
Proof.
  intros Hauth. split.
  - intros site username password res w1 Hserve Hst.
    destruct (post_success _ _ _ _ _ _ _ _ Hauth Hserve Hst)
      as (s & u & oid & -> & -> & -> & _ & Hp & _).
    exists s, u, oid. eexists _, _.
    split; [reflexivity|]. split; [reflexivity|]. split; [reflexivity|].
    split; [apply (served_list _ _ _ Hauth)|].
    apply listed_iff. rewrite Hp. split; [|reflexivity].
    apply elem_of_app. right. left.
  - intros id site username password res w1 Huniq Hserve Hst.
    destruct (put_success _ _ _ _ _ _ _ _ _ Huniq Hauth Hserve Hst)
      as (s & u & before & target & after & -> & -> & Hid & Hown & Hw & Hw1 & _).
    exists s, u, target,
      (Cred.mk (Cred._id target) (trim s) (trim u) password (Cred.userId target)
               (Cred.createdAt target) (clock (drawn w))).
    eexists _, _.
    split; [reflexivity|]. split; [reflexivity|].
    split; [rewrite Hw; apply elem_of_app; right; left|].
    split; [exact Hid|].
    split; [apply (served_list _ _ _ Hauth)|].
    split.
    { apply listed_iff. rewrite Hw1. split; [|exact Hown].
      apply elem_of_app. right. left. }
    simpl. repeat split. intros H. exact H.
Qed.

(** ** Ownership never changes hands *)

(** Update's [$set] writes the site, the username, the password and
    [updatedAt], and nothing else. *)
Lemma set_fields_keeps site username password updatedAt d :
  Cred._id (set_fields site username password updatedAt d) = Cred._id d
  /\ Cred.userId (set_fields site username password updatedAt d) = Cred.userId d
  /\ Cred.createdAt (set_fields site username password updatedAt d) = Cred.createdAt d.
Proof. repeat split. Qed.

Lemma elem_of_update_first {A : Type} (q : A -> bool) (f : A -> A) (l : list A) (x : A) :
  x ∈ update_first q f l -> x ∈ l \/ exists d, d ∈ l /\ x = f d.
Proof.
  induction l as [|a l IH]; simpl; [intros H; inversion H|].
  destruct (q a).
  - intros H. apply elem_of_cons in H as [->|H].
    + right. exists a. split; [left|reflexivity].
    + left. right. exact H.
  - intros H. apply elem_of_cons in H as [->|H]; [left; left|].
    destruct (IH H) as [Hin|(d & Hd & ->)]; [left; right; exact Hin|].
    right. exists d. split; [right; exact Hd|reflexivity].
Qed.

Lemma elem_of_delete_first {A : Type} (q : A -> bool) (l : list A) (x : A) :
  x ∈ delete_first q l -> x ∈ l.
Proof.
  induction l as [|a l IH]; simpl; [intros H; inversion H|].
  destruct (q a).
  - intros H. right. exact H.
  - intros H. apply elem_of_cons in H as [->|H]; [left|right; auto].
Qed.

(** The identity routes never touch the passwords collection: every step
    they are made of leaves it alone. *)

Lemma keeps_ret {A : Type} (a : A) : keeps_passwords (mret a).
Proof. intros w. reflexivity. Qed.

Lemma keeps_throw {A : Type} (e : exn) : keeps_passwords (mthrow e : M A).
Proof. intros w. reflexivity. Qed.

Lemma keeps_lift {A : Type} (r : result A) : keeps_passwords (lift r).
Proof. intros w. reflexivity. Qed.

Lemma keeps_bind {A B : Type} (m : M A) (f : A -> M B) :
  keeps_passwords m -> (forall a, keeps_passwords (f a)) ->
  keeps_passwords (m ≫= f).
Proof.
  intros Hm Hf w. unfold mbind, M_bind. specialize (Hm w).
  destruct (m w) as [[a|e] w']; simpl in *; [|exact Hm].
  rewrite (Hf a w'). exact Hm.
Qed.

Lemma keeps_try_catch {A : Type} (m : M A) (h : exn -> M A) :
  keeps_passwords m -> (forall e, keeps_passwords (h e)) ->
  keeps_passwords (try_catch m h).
Proof.
  intros Hm Hh w. unfold try_catch. specialize (Hm w).
  destruct (m w) as [[a|e] w']; simpl in *; [exact Hm|].
  rewrite (Hh e w'). exact Hm.
Qed.

Lemma keeps_users_findOne q : keeps_passwords (users_findOne q).
Proof. intros w. reflexivity. Qed.

Lemma keeps_users_insertOne doc : keeps_passwords (users_insertOne doc).
Proof. intros w. unfold users_insertOne. destruct (existsb _ _); reflexivity. Qed.

Lemma keeps_new_Date : keeps_passwords new_Date.
Proof. intros w. reflexivity. Qed.

Lemma keeps_bcrypt_hash_js s rounds : keeps_passwords (bcrypt_hash_js s rounds).
Proof. intros w. destruct s; reflexivity. Qed.

Lemma keeps_bcrypt_compare_js s hash : keeps_passwords (bcrypt_compare_js s hash).
Proof. intros w. destruct s; reflexivity. Qed.

Lemma keeps_jwt_sign_now claims : keeps_passwords (jwt_sign_now claims).
Proof. intros w. reflexivity. Qed.

Ltac keeps :=
  repeat first
    [ apply keeps_try_catch | apply keeps_bind | apply keeps_ret
    | apply keeps_throw | apply keeps_lift | apply keeps_users_findOne
    | apply keeps_users_insertOne | apply keeps_new_Date
    | apply keeps_bcrypt_hash_js | apply keeps_bcrypt_compare_js
    | apply keeps_jwt_sign_now
    | match goal with
      | |- keeps_passwords (if ?b then _ else _) => destruct b
      | |- keeps_passwords (match ?x with _ => _ end) => destruct x
      | |- forall _, keeps_passwords _ => intro
      end ].

Lemma register_keeps_passwords username email password w :
  passwords (snd (register username email password w)) = passwords w.
Proof.
  revert w. change (keeps_passwords (register username email password)).
  unfold register, internal_error. keeps.
Qed.

Lemma login_keeps_passwords email password w :
  passwords (snd (login email password w)) = passwords w.
Proof.
  revert w. change (keeps_passwords (login email password)).
  unfold login, internal_error. keeps.
Qed.

(** The gate either answers 401 itself, leaving the world alone, or hands
    the decoded caller to the handler. *)
Lemma gate_cases (r : request) (auth : option string) (next : Claims.t -> M response) :
  protected r = Some auth ->
  (caller r = None
   /\ exists message, forall w,
        verifyToken auth next w = (Ok (reply 401 false message), w))
  \/ (exists user, caller r = Some user /\ verifyToken auth next = next user).
Proof.
  intros Hp. unfold caller, verifyToken. rewrite Hp.
  destruct (no_token (bearer auth)).
  - left. split; [reflexivity|]. eexists. intros w. reflexivity.
  - destruct (jwt_verify (default "" (bearer auth))) as [user|name].
    + right. exists user. split; reflexivity.
    + left. split; [reflexivity|].
      destruct (String.eqb name "TokenExpiredError"); eexists; intros w; reflexivity.
Qed.

(** One request keeps the ledger true. *)
Lemma serve_keeps_owners (r : request) (w w1 : world) (res : response)
    (ledger : gmap string string) :
  serve r w = (res, w1) ->
  owners_are_creators w ledger ->
  owners_are_creators w1 (record_creation r res ledger).
Proof.
  intros Hserve Hinv. unfold serve in Hserve.
  destruct r as [username email password | email password | auth
                | auth site username password | auth id site username password
                | auth id].
  - (* register *)
    simpl in *. pose proof (register_keeps_passwords username email password w) as Hk.
    destruct (register username email password w) as [[res'|e] w'];
      inversion Hserve; subst; simpl in Hk;
      intros d Hd; apply Hinv; rewrite <- Hk; exact Hd.
  - (* login *)
    simpl in *. pose proof (login_keeps_passwords email password w) as Hk.
    destruct (login email password w) as [[res'|e] w'];
      inversion Hserve; subst; simpl in Hk;
      intros d Hd; apply Hinv; rewrite <- Hk; exact Hd.
  - (* list *)
    destruct (gate_cases (GET_passwords auth) auth list_passwords eq_refl)
      as [(Hc & msg & Hdeny)|(user & Hc & Hpass)];
      unfold record_creation; simpl route in Hserve.
    + rewrite Hdeny in Hserve. inversion Hserve; subst. exact Hinv.
    + rewrite Hpass, list_passwords_run in Hserve. inversion Hserve; subst.
      exact Hinv.
  - (* create *)
    destruct (gate_cases (POST_passwords auth site username password) auth
                (fun user => save_password user site username password) eq_refl)
      as [(Hc & msg & Hdeny)|(user & Hc & Hpass)];
      unfold record_creation; rewrite Hc; simpl route in Hserve.
    + rewrite Hdeny in Hserve. inversion Hserve; subst. exact Hinv.
    + rewrite Hpass in Hserve.
      destruct (save_password_cases user site username password w)
        as (res' & w' & Hrun & _ & Hcases).
      rewrite Hrun in Hserve. inversion Hserve; subst res' w'.
      destruct Hcases as [(_ & Hnot & Hp)
                         |(s & u & oid & _ & _ & _ & -> & Hfresh & Hp)].
      * destruct (json res) eqn:Hj; try (intros d Hd; apply Hinv; rewrite <- Hp; exact Hd).
        exfalso. eapply Hnot. reflexivity.
      * simpl. intros d Hd. rewrite Hp in Hd.
        apply elem_of_app in Hd as [Hd|Hd].
        -- rewrite lookup_insert_ne; [apply Hinv, Hd|].
           intros E. apply (Hfresh d Hd). symmetry. exact E.
        -- apply list_elem_of_singleton in Hd. subst d. simpl.
           apply lookup_insert_eq.
  - (* update *)
    destruct (gate_cases (PUT_passwords auth id site username password) auth
                (fun user => update_password user id site username password) eq_refl)
      as [(Hc & msg & Hdeny)|(user & Hc & Hpass)];
      unfold record_creation; simpl route in Hserve.
    + rewrite Hdeny in Hserve. inversion Hserve; subst. exact Hinv.
    + rewrite Hpass in Hserve.
      destruct (update_password_cases user id site username password w)
        as (res' & w' & Hrun & _ & Hcases).
      rewrite Hrun in Hserve. inversion Hserve; subst res' w'.
      destruct Hcases as [(_ & Hp)|(oid & s & u & found & _ & _ & _ & _ & _ & Hp)];
        intros d Hd; rewrite Hp in Hd; [apply Hinv, Hd|].
      apply elem_of_update_first in Hd as [Hd|(d0 & Hd0 & ->)]; [apply Hinv, Hd|].
      destruct (set_fields_keeps (trim s) (trim u) password (clock (drawn w)) d0)
        as (-> & -> & _).
      apply Hinv, Hd0.
  - (* delete *)
    destruct (gate_cases (DELETE_passwords auth id) auth
                (fun user => delete_password user id) eq_refl)
      as [(Hc & msg & Hdeny)|(user & Hc & Hpass)];
      unfold record_creation; simpl route in Hserve.
    + rewrite Hdeny in Hserve. inversion Hserve; subst. exact Hinv.
    + rewrite Hpass in Hserve.
      destruct (delete_password_cases user id w) as (res' & w' & Hrun & _ & Hcases).
      rewrite Hrun in Hserve. inversion Hserve; subst res' w'.
      destruct Hcases as [(_ & Hp)|(oid & found & _ & _ & _ & Hp)];
        intros d Hd; rewrite Hp in Hd; [apply Hinv, Hd|].
      apply Hinv. eapply elem_of_delete_first. exact Hd.
Qed.

(** C9. Keep, beside the store, a ledger that records for each inserted id
    the decoded identity of the caller whose Create inserted it.  If every
    stored record is owned by the caller the ledger names for it, then
    after any sequence of requests (Register, Login, List, Create, Update,
    Delete, with or without a valid token) every stored record is still
    owned by the caller the ledger names for it: Create files the record
    under the caller's identity, Update and Delete never write [userId], so
    no record ever passes to another owner. *)
Theorem owner_is_always_the_creator (rs : list request) (w : world)
    (ledger : gmap string string) :
  owners_are_creators w ledger ->
  owners_are_creators (fst (run rs w ledger)) (snd (run rs w ledger)).
Proof.
  revert w ledger. induction rs as [|r rs IH]; intros w ledger Hinv; simpl.
  - exact Hinv.
  - destruct (serve r w) as [res w1] eqn:Hserve.
    apply IH. eapply serve_keeps_owners; eassumption.
Qed.

(** ** Ids stay unique *)

Lemma update_first_ids (q : Cred.t -> bool) site username password updatedAt
    (l : list Cred.t) :
  map Cred._id (update_first q (set_fields site username password updatedAt) l)
  = map Cred._id l.
Proof.
  induction l as [|d l IH]; simpl; [reflexivity|].
  destruct (q d); simpl; [reflexivity|]. f_equal. exact IH.
Qed.

Lemma delete_first_ids (q : Cred.t -> bool) (l : list Cred.t) :
  NoDup (map Cred._id l) -> NoDup (map Cred._id (delete_first q l)).
Proof.
  induction l as [|d l IH]; simpl; [auto|].
  intros Hnd. apply NoDup_cons in Hnd as [Hd Hl].
  destruct (q d); simpl; [exact Hl|].
  apply NoDup_cons. split; [|auto].
  intros Hin. apply Hd.
  apply list_elem_of_fmap in Hin as (x & Hx & Hin).
  apply list_elem_of_fmap. exists x. split; [exact Hx|].
  eapply elem_of_delete_first. exact Hin.
Qed.

(** What each handler leaves behind has unique ids if what it found had:
    [insertOne] refuses an id in use, [$set] does not write [_id]. *)
Lemma serve_keeps_unique_ids (r : request) (w w1 : world) (res : response) :
  serve r w = (res, w1) -> unique_ids w -> unique_ids w1.
Proof.
  intros Hserve Huniq. unfold serve in Hserve. unfold unique_ids in *.
  destruct r as [username email password | email password | auth
                | auth site username password | auth id site username password
                | auth id].
  - simpl in *. pose proof (register_keeps_passwords username email password w) as Hk.
    destruct (register username email password w) as [[res'|e] w'];
      inversion Hserve; subst; simpl in Hk; rewrite Hk; exact Huniq.
  - simpl in *. pose proof (login_keeps_passwords email password w) as Hk.
    destruct (login email password w) as [[res'|e] w'];
      inversion Hserve; subst; simpl in Hk; rewrite Hk; exact Huniq.
  - destruct (gate_cases (GET_passwords auth) auth list_passwords eq_refl)
      as [(_ & msg & Hdeny)|(user & _ & Hpass)]; simpl route in Hserve.
    + rewrite Hdeny in Hserve. inversion Hserve; subst. exact Huniq.
    + rewrite Hpass, list_passwords_run in Hserve. inversion Hserve; subst.
      exact Huniq.
  - destruct (gate_cases (POST_passwords auth site username password) auth
                (fun user => save_password user site username password) eq_refl)
      as [(_ & msg & Hdeny)|(user & _ & Hpass)]; simpl route in Hserve.
    + rewrite Hdeny in Hserve. inversion Hserve; subst. exact Huniq.
    + rewrite Hpass in Hserve.
      destruct (save_password_cases user site username password w)
        as (res' & w' & Hrun & _ & Hcases).
      rewrite Hrun in Hserve. inversion Hserve; subst res' w'.
      destruct Hcases as [(_ & _ & Hp)|(s & u & oid & _ & _ & _ & _ & Hfresh & Hp)];
        rewrite Hp; [exact Huniq|].
      rewrite map_app. simpl. apply NoDup_app. split; [exact Huniq|].
      split; [|apply NoDup_singleton].
      intros x Hx Hx'. apply list_elem_of_singleton in Hx'. subst x.
      apply list_elem_of_fmap in Hx as (d & Hd & Hin).
      apply (Hfresh d Hin). symmetry. exact Hd.
  - destruct (gate_cases (PUT_passwords auth id site username password) auth
                (fun user => update_password user id site username password) eq_refl)
      as [(_ & msg & Hdeny)|(user & _ & Hpass)]; simpl route in Hserve.
    + rewrite Hdeny in Hserve. inversion Hserve; subst. exact Huniq.
    + rewrite Hpass in Hserve.
      destruct (update_password_cases user id site username password w)
        as (res' & w' & Hrun & _ & Hcases).
      rewrite Hrun in Hserve. inversion Hserve; subst res' w'.
      destruct Hcases as [(_ & Hp)|(oid & s & u & found & _ & _ & _ & _ & _ & Hp)];
        rewrite Hp; [exact Huniq|].
      rewrite update_first_ids. exact Huniq.
  - destruct (gate_cases (DELETE_passwords auth id) auth
                (fun user => delete_password user id) eq_refl)
      as [(_ & msg & Hdeny)|(user & _ & Hpass)]; simpl route in Hserve.
    + rewrite Hdeny in Hserve. inversion Hserve; subst. exact Huniq.
    + rewrite Hpass in Hserve.
      destruct (delete_password_cases user id w) as (res' & w' & Hrun & _ & Hcases).
      rewrite Hrun in Hserve. inversion Hserve; subst res' w'.
      destruct Hcases as [(_ & Hp)|(oid & found & _ & _ & _ & Hp)];
        rewrite Hp; [exact Huniq|].
      apply delete_first_ids. exact Huniq.
Qed.

Lemma serve_all_keeps_unique_ids (rs : list request) (w : world) :
  unique_ids w -> unique_ids (snd (serve_all rs w)).
Proof.
  revert w. induction rs as [|r rs IH]; intros w Huniq; simpl; [exact Huniq|].
  destruct (serve r w) as [res w1] eqn:Hserve.
  specialize (IH w1 (serve_keeps_unique_ids _ _ _ _ Hserve Huniq)).
  destruct (serve_all rs w1) as [ress w2]. exact IH.
Qed.

(** ** Validation: Update against Create *)

(** Every body Create lets through, Update lets through.  The converse
    fails on a username of white space only. *)
Lemma save_accepts_update_accepts site username password :
  save_validation site username password = Ok None ->
  update_validation site username password = Ok None.
Proof.
  unfold save_validation, update_validation.
  destruct (negb (truthy site) || negb (truthy username) || negb (truthy password));
    [discriminate|].
  destruct (js_trim site) as [t|]; simpl; [|discriminate].
  destruct (String.length t <? 3)%nat; [discriminate|reflexivity].
Qed.

(** ** Register: a conflict the query finds *)

(** When the query [{ $or: [{ email }, { username }] }] matches a stored
    user, a validated registration is refused with 400 and a message that
    names "Email" if the first match has the lower-cased email and
    "Username" otherwise; the users collection is not written. *)
Lemma register_refuses_a_match (u e : string) (password : jsval) (w : world) :
  validateUsername (JStr u) = Ok true ->
  test emailRegex e = true ->
  validatePassword password = Ok true ->
  (exists d, d ∈ users w
     /\ (User.email d = toLowerCase e \/ User.username d = toLowerCase u)) ->
  exists field,
    (field = "Email" \/ field = "Username")
    /\ register (JStr u) (JStr e) password w =
         (Ok (reply 400 false (field ++ " already exists")%string),
          logged users_findOne_op w).
Proof.
  intros Hu He Hp (x & Hx & Hmatch).
  assert (truthy (JStr u) = true) as Htu.
  { unfold validateUsername in Hu. destruct (truthy (JStr u)); [reflexivity|discriminate]. }
  assert (truthy password = true) as Htp.
  { unfold validatePassword in Hp. destruct (truthy password); [reflexivity|discriminate]. }
  destruct (find_present
              (fun d => String.eqb (User.email d) (toLowerCase e)
                        || String.eqb (User.username d) (toLowerCase u))
              (users w) x Hx) as (d & Hfind & _ & _).
  { apply orb_true_iff. destruct Hmatch as [H|H]; [left|right]; apply String.eqb_eq, H. }
  exists (if String.eqb (User.email d) (toLowerCase e) then "Email" else "Username").
  split; [destruct (String.eqb (User.email d) (toLowerCase e)); auto|].
  unfold register, validateEmail. simpl js_String.
  rewrite Htu, (truthy_JStr _ (emailRegex_nonempty _ He)), Htp, He.
  simpl negb. simpl orb. cbv iota.
  unfold mbind at 1, M_bind at 1, try_catch, lift at 1. rewrite Hu. simpl.
  unfold mbind at 1, M_bind at 1, lift at 1. rewrite Hp. simpl.
  run. unfold users_findOne. rewrite Hfind. reflexivity.
Qed.

(** * Further properties of the code *)

(** ** Strings *)

Lemma trimStart_fixed (c : ascii) (s : string) :
  isWhiteSpace c = false -> trimStart (String c s) = String c s.
Proof. intros H. simpl. rewrite H. reflexivity. Qed.

Lemma trimStart_head (s : string) :
  trimStart s = EmptyString
  \/ exists c t, trimStart s = String c t /\ isWhiteSpace c = false.
Proof.
  induction s as [|c s IH]; simpl; [left; reflexivity|].
  destruct (isWhiteSpace c) eqn:Hc; [exact IH|].
  right. exists c, s. split; [reflexivity|exact Hc].
Qed.

Lemma trimEnd_head (c : ascii) (s : string) :
  isWhiteSpace c = false -> exists t, trimEnd (String c s) = String c t.
Proof.
  intros Hc. simpl. destruct (trimEnd s) as [|c' t'].
  - rewrite Hc. exists EmptyString. reflexivity.
  - exists (String c' t'). reflexivity.
Qed.

Lemma trimEnd_idempotent (s : string) : trimEnd (trimEnd s) = trimEnd s.
Proof.
  induction s as [|c s IH]; simpl; [reflexivity|].
  destruct (trimEnd s) as [|c' t'] eqn:Ht.
  - destruct (isWhiteSpace c) eqn:Hc; simpl; [reflexivity|].
    rewrite Hc. reflexivity.
  - change (trimEnd (String c (String c' t')) = String c (String c' t')).
    simpl in IH. simpl. destruct (trimEnd t') as [|c'' t''] eqn:Ht'.
    + destruct (isWhiteSpace c'); [discriminate|]. inversion IH; subst.
      reflexivity.
    + inversion IH; subst. reflexivity.
Qed.

(** [trim] leaves a trimmed string as it is. *)
Lemma trim_idempotent (s : string) : trim (trim s) = trim s.
Proof.
  unfold trim.
  destruct (trimStart_head s) as [->|(c & t & -> & Hc)]; [reflexivity|].
  destruct (trimEnd_head c t Hc) as [t' Ht'].
  rewrite Ht', (trimStart_fixed _ _ Hc), <- Ht'.
  apply trimEnd_idempotent.
Qed.

Lemma trim_nonempty (s : string) : trim s <> EmptyString -> s <> EmptyString.
Proof. intros H ->. apply H. reflexivity. Qed.

Lemma lowerUnit_idempotent (c : ascii) : lowerUnit (lowerUnit c) = lowerUnit c.
Proof. destruct c as [[] [] [] [] [] [] [] []]; reflexivity. Qed.

Lemma toLowerCase_idempotent (s : string) :
  toLowerCase (toLowerCase s) = toLowerCase s.
Proof.
  induction s as [|c s IH]; simpl; [reflexivity|].
  rewrite lowerUnit_idempotent, IH. reflexivity.
Qed.

(** ** The email pattern *)

Lemma append_nil_inv (s1 s2 : string) :
  (s1 ++ s2)%string = EmptyString -> s1 = EmptyString /\ s2 = EmptyString.
Proof. destruct s1; simpl; [auto|discriminate]. Qed.

Lemma nullable_matches (r : regex) : nullable r = true <-> matches r EmptyString.
Proof.
  split.
  - induction r; simpl; intros H; try discriminate.
    + constructor.
    + apply andb_true_iff in H as [H1 H2].
      change EmptyString with (EmptyString ++ EmptyString)%string.
      constructor; auto.
    + apply orb_true_iff in H as [H|H]; [apply matches_Alt_l|apply matches_Alt_r]; auto.
    + constructor.
  - remember EmptyString as s eqn:Hs. intros H.
    induction H; simpl; try reflexivity; try discriminate.
    + apply append_nil_inv in Hs as [-> ->].
      rewrite IHmatches1, IHmatches2 by reflexivity. reflexivity.
    + rewrite IHmatches by assumption. reflexivity.
    + rewrite IHmatches by assumption. apply orb_true_r.
Qed.

Lemma matches_Seq_inv (r1 r2 : regex) (s : string) :
  matches (Seq r1 r2) s ->
  exists s1 s2, s = (s1 ++ s2)%string /\ matches r1 s1 /\ matches r2 s2.
Proof. intros H. inversion H; subst. eauto. Qed.

Lemma matches_Star_head (r : regex) (c : ascii) (s : string) :
  matches (Star r) (String c s) ->
  exists s1 s2, s = (s1 ++ s2)%string /\ matches r (String c s1) /\ matches (Star r) s2.
Proof.
  remember (Star r) as r' eqn:Hr. remember (String c s) as s' eqn:Hs.
  intros H. revert c s Hs.
  induction H; intros c0 s0 Hs; try discriminate.
  inversion Hr; subst r0.
  destruct s1 as [|c1 s1].
  - simpl in Hs. apply IHmatches2; [reflexivity|assumption].
  - simpl in Hs. inversion Hs; subst. exists s1, s2. auto.
Qed.

Lemma deriv_matches (c : ascii) (r : regex) (s : string) :
  matches (deriv c r) s <-> matches r (String c s).
Proof.
  revert s. induction r as [| |p|r1 IH1 r2 IH2|r1 IH1 r2 IH2|r IH]; intros s; simpl.
  - split; intros H; inversion H.
  - split; intros H; inversion H.
  - destruct (p c) eqn:Hp; split; intros H; inversion H; subst.
    + constructor. exact Hp.
    + constructor.
    + congruence.
  - assert (matches (Seq (deriv c r1) r2) s \/ (nullable r1 = true /\ matches (deriv c r2) s)
            <-> matches (Seq r1 r2) (String c s)) as Hseq.
    { split.
      - intros [H|[Hn H]].
        + inversion H; subst.
          change (String c (s1 ++ s2)%string) with (String c s1 ++ s2)%string.
          constructor; [apply IH1|]; assumption.
        + change (String c s) with (EmptyString ++ String c s)%string.
          constructor; [apply nullable_matches, Hn|apply IH2, H].
      - intros H. apply matches_Seq_inv in H as (s1 & s2 & Heq & H1 & H2).
        destruct s1 as [|c1 s1].
        + change (String c s = s2) in Heq. subst s2.
          right. split; [apply nullable_matches, H1|apply IH2, H2].
        + change (String c s = String c1 (s1 ++ s2)%string) in Heq.
          inversion Heq; subst. left. constructor; [apply IH1|]; assumption. }
    destruct (nullable r1) eqn:Hn.
    + rewrite <- Hseq. split.
      * intros H. inversion H; subst; [left; assumption|right; auto].
      * intros [H|[_ H]]; [apply matches_Alt_l|apply matches_Alt_r]; assumption.
    + rewrite <- Hseq. split; [auto|]. intros [H|[H _]]; [assumption|discriminate].
  - split; intros H; inversion H; subst.
    + apply matches_Alt_l, IH1. assumption.
    + apply matches_Alt_r, IH2. assumption.
    + apply matches_Alt_l, IH1. assumption.
    + apply matches_Alt_r, IH2. assumption.
  - split.
    + intros H. inversion H; subst.
      change (String c (s1 ++ s2)%string) with (String c s1 ++ s2)%string.
      constructor; [apply IH|]; assumption.
    + intros H. apply matches_Star_head in H as (s1 & s2 & -> & H1 & H2).
      constructor; [apply IH|]; assumption.
Qed.

(** The derivative matcher decides the language of the pattern. *)
Lemma test_matches (r : regex) (s : string) : test r s = true <-> matches r s.
Proof.
  revert r. induction s as [|c s IH]; intros r; simpl.
  - apply nullable_matches.
  - rewrite IH. apply deriv_matches.
Qed.

Lemma matches_Star_clean (s : string) :
  matches (Star (Class notSpaceAt)) s <-> clean s = true.
Proof.
  split.
  - remember (Star (Class notSpaceAt)) as r eqn:Hr. intros H.
    induction H; try discriminate; [reflexivity|].
    inversion Hr; subst r. inversion H; subst.
    change (notSpaceAt c && clean s2 = true).
    rewrite IHmatches2 by reflexivity. rewrite andb_true_r. assumption.
  - induction s as [|c s IH]; simpl; intros H; [constructor|].
    apply andb_true_iff in H as [Hc Hs].
    change (String c s) with (String c EmptyString ++ s)%string.
    constructor; [constructor; exact Hc|auto].
Qed.

Lemma matches_Plus_clean (s : string) :
  matches (Plus (Class notSpaceAt)) s <-> s <> EmptyString /\ clean s = true.
Proof.
  unfold Plus. split.
  - intros H. apply matches_Seq_inv in H as (s1 & s2 & -> & H1 & H2).
    inversion H1; subst. apply matches_Star_clean in H2.
    split; [discriminate|]. change (notSpaceAt c && clean s2 = true).
    rewrite H2, andb_true_r. assumption.
  - intros [Hne Hc]. destruct s as [|c s]; [contradiction|].
    simpl in Hc. apply andb_true_iff in Hc as [Hc Hs].
    change (String c s) with (String c EmptyString ++ s)%string.
    constructor; [constructor; exact Hc|apply matches_Star_clean, Hs].
Qed.

Lemma matches_Lit (a : ascii) (s : string) :
  matches (Lit a) s <-> s = String a EmptyString.
Proof.
  unfold Lit. split.
  - intros H. inversion H; subst. apply Ascii.eqb_eq in H1. subst. reflexivity.
  - intros ->. constructor. apply Ascii.eqb_refl.
Qed.

(** X1. [validateEmail] accepts a string exactly when it reads
    [local@domain.tld] with the three parts non-empty and free of white space
    and of "@" (a "." may occur in any of the three). *)
Theorem validateEmail_accepts_exactly (s : string) :
  validateEmail (JStr s) = true
  <-> exists a b c,
        s = (a ++ "@" ++ b ++ "." ++ c)%string
        /\ a <> "" /\ b <> "" /\ c <> ""
        /\ clean a = true /\ clean b = true /\ clean c = true.
Proof.
  unfold validateEmail. simpl js_String. rewrite test_matches. unfold emailRegex.
  split.
  - intros H.
    apply matches_Seq_inv in H as (a & r1 & -> & Ha & H).
    apply matches_Seq_inv in H as (at' & r2 & -> & Hat & H).
    apply matches_Seq_inv in H as (b & r3 & -> & Hb & H).
    apply matches_Seq_inv in H as (dot & c & -> & Hdot & Hc).
    apply matches_Lit in Hat, Hdot. subst.
    apply matches_Plus_clean in Ha as [? ?], Hb as [? ?], Hc as [? ?].
    exists a, b, c. repeat split; assumption.
  - intros (a & b & c & -> & Ha & Hb & Hc & Hca & Hcb & Hcc).
    constructor; [apply matches_Plus_clean; auto|].
    change ("@" ++ b ++ "." ++ c)%string with (String "@" "" ++ (b ++ "." ++ c))%string.
    constructor; [apply matches_Lit; reflexivity|].
    constructor; [apply matches_Plus_clean; auto|].
    change ("." ++ c)%string with (String "." "" ++ c)%string.
    constructor; [apply matches_Lit; reflexivity|apply matches_Plus_clean; auto].
Qed.

(** ** The shape of every response *)

Lemma answers_ret (P : response -> Prop) (res : response) :
  P res -> answers P (mret res).
Proof. intros H w res' w' E. inversion E; subst. exact H. Qed.

Lemma answers_bind {A : Type} (P : response -> Prop) (m : M A) (f : A -> M response) :
  (forall a, answers P (f a)) -> answers P (m ≫= f).
Proof.
  intros Hf w res w' E. unfold mbind, M_bind in E.
  destruct (m w) as [[a|e] w1]; [|discriminate].
  eapply Hf. exact E.
Qed.

Lemma answers_try_catch (P : response -> Prop) (m : M response)
    (h : exn -> M response) :
  answers P m -> (forall e, answers P (h e)) -> answers P (try_catch m h).
Proof.
  intros Hm Hh w res w' E. unfold try_catch in E.
  destruct (m w) as [[a|e] w1] eqn:Hrun.
  - inversion E; subst. eapply Hm. exact Hrun.
  - eapply Hh. exact E.
Qed.

Lemma answers_verifyToken (P : response -> Prop) auth next :
  P (reply 401 false "Access denied. No token provided.") ->
  P (reply 401 false "Token expired. Please login again.") ->
  P (reply 401 false "Invalid token.") ->
  (forall user, answers P (next user)) ->
  answers P (verifyToken auth next).
Proof.
  intros H1 H2 H3 Hn. unfold verifyToken.
  destruct (no_token (bearer auth)); [apply answers_ret, H1|].
  destruct (jwt_verify _) as [user|name]; [apply Hn|].
  destruct (String.eqb name "TokenExpiredError"); apply answers_ret; assumption.
Qed.

Ltac answers :=
  repeat first
    [ apply answers_try_catch | apply answers_bind
    | match goal with
      | |- answers _ (if ?b then _ else _) => destruct b
      | |- answers _ (match ?x with _ => _ end) => destruct x
      | |- forall _, answers _ _ => intro
      | |- answers _ (mret _) => apply answers_ret
      end ].

Lemma register_shaped username email password :
  answers (fun res => shaped res = true) (register username email password).
Proof.
  unfold register, internal_error. answers; try reflexivity.
  match goal with |- context [if ?b then _ else _] => destruct b end; reflexivity.
Qed.

Lemma login_shaped email password :
  answers (fun res => shaped res = true) (login email password).
Proof. unfold login, internal_error. answers; reflexivity. Qed.

Lemma list_passwords_shaped user :
  answers (fun res => shaped res = true) (list_passwords user).
Proof. unfold list_passwords, internal_error. answers; reflexivity. Qed.

Lemma save_validation_shaped site username password res :
  save_validation site username password = Ok (Some res) -> shaped res = true.
Proof.
  unfold save_validation.
  destruct (negb (truthy site) || negb (truthy username) || negb (truthy password)).
  { intros H. inversion H. reflexivity. }
  destruct (js_trim site) as [t|]; simpl; [|discriminate].
  destruct (String.length t <? 3)%nat. { intros H; inversion H. reflexivity. }
  destruct (js_trim username) as [u|]; simpl; [|discriminate].
  destruct (String.length u <? 1)%nat. { intros H; inversion H. reflexivity. }
  destruct (js_length password) as [len|]; simpl; [|discriminate].
  destruct (js_lt len 1); intros H; inversion H. reflexivity.
Qed.

Lemma update_validation_shaped site username password res :
  update_validation site username password = Ok (Some res) -> shaped res = true.
Proof.
  unfold update_validation.
  destruct (negb (truthy site) || negb (truthy username) || negb (truthy password)).
  { intros H. inversion H. reflexivity. }
  destruct (js_trim site) as [t|]; simpl; [|discriminate].
  destruct (String.length t <? 3)%nat; intros H; inversion H. reflexivity.
Qed.

Lemma save_password_shaped user site username password :
  answers (fun res => shaped res = true) (save_password user site username password).
Proof.
  unfold save_password, internal_error.
  apply answers_try_catch; [|intro; apply answers_ret; reflexivity].
  intros w res w' E. unfold mbind at 1, M_bind at 1, lift at 1 in E.
  destruct (save_validation site username password) as [[rej|]|e] eqn:Hval;
    [|revert w res w' E|discriminate].
  - inversion E; subst. eapply save_validation_shaped. exact Hval.
  - change (answers (fun res => shaped res = true)
              (newSite ← lift (js_trim site);
               newUsername ← lift (js_trim username);
               createdAt ← new_Date;
               updatedAt ← new_Date;
               insertedId ← passwords_insertOne (fun oid =>
                 Cred.mk oid newSite newUsername password (Claims.id user)
                         createdAt updatedAt);
               mret (mkResponse 201 (Inserted insertedId "Password saved successfully")))).
    answers; reflexivity.
Qed.

Lemma update_password_shaped user id site username password :
  answers (fun res => shaped res = true)
    (update_password user id site username password).
Proof.
  intros w res w' E.
  destruct (update_password_cases user id site username password w)
    as (res' & w1 & Hrun & _ & Hcases).
  rewrite Hrun in E. inversion E; subst res' w1. clear E.
  destruct Hcases as [_|(oid & s & u & found & _ & _ & _ & -> & _)]; [|reflexivity].
  revert Hrun. unfold update_password, internal_error. intros Hrun.
  eapply (answers_try_catch (fun res => shaped res = true)); [| |exact Hrun].
  - destruct (negb (ObjectId_isValid id)); [apply answers_ret; reflexivity|].
    intros w0 res0 w0' E. unfold mbind at 1, M_bind at 1, lift at 1 in E.
    destruct (update_validation site username password) as [[rej|]|e] eqn:Hval;
      [|revert w0 res0 w0' E|discriminate].
    + inversion E; subst. eapply update_validation_shaped. exact Hval.
    + change (answers (fun res => shaped res = true)
                (oid ← ObjectId_of id;
                 found ← passwords_findOne (fun d => has_id oid d && owned_by user d);
                 match found with
                 | None => mret (reply 404 false "Password not found or access denied")
                 | Some _ =>
                     newSite ← lift (js_trim site);
                     newUsername ← lift (js_trim username);
                     updatedAt ← new_Date;
                     target ← ObjectId_of id;
                     passwords_updateOne (has_id target)
                       (set_fields newSite newUsername password updatedAt);;
                     mret (reply 200 true "Password updated successfully")
                 end)).
      answers; reflexivity.
  - intro. apply answers_ret. reflexivity.
Qed.

Lemma delete_password_shaped user id :
  answers (fun res => shaped res = true) (delete_password user id).
Proof. unfold delete_password, internal_error. answers; reflexivity. Qed.

Lemma serve_shaped (r : request) (w : world) : shaped (fst (serve r w)) = true.
Proof.
  unfold serve. destruct (route r w) as [[res|e] w'] eqn:Hrun; [|reflexivity].
  simpl. revert Hrun.
  change ((fun m => m w = (Ok res, w') -> shaped res = true) (route r)).
  assert (answers (fun res => shaped res = true) (route r)) as H.
  { destruct r; simpl.
    - apply register_shaped.
    - apply login_shaped.
    - apply answers_verifyToken; try reflexivity. intro. apply list_passwords_shaped.
    - apply answers_verifyToken; try reflexivity. intro. apply save_password_shaped.
    - apply answers_verifyToken; try reflexivity. intro. apply update_password_shaped.
    - apply answers_verifyToken; try reflexivity. intro. apply delete_password_shaped. }
  intros Hrun. eapply H. exact Hrun.
Qed.

(** ** [handleResponse] on what the server sends *)

Lemma shaped_cases (res : response) :
  shaped res = true ->
  ((status res = 200 \/ status res = 201)%nat
   /\ Api.ok res = true /\ forall m, json res <> Message false m)
  \/ (exists m, json res = Message false m /\ m <> ""
        /\ Api.ok res = false
        /\ (status res = 400 \/ status res = 401 \/ status res = 404
            \/ status res = 500)%nat).
Proof.
  unfold shaped, Api.ok. destruct res as [st b]. simpl.
  destruct b as [[|] m|m oid|t u m|docs|oid m]; intros H;
    repeat match goal with
           | H : _ && _ = true |- _ => apply andb_true_iff in H as [? H]
           end;
    try (apply Nat.eqb_eq in H; subst st; left; repeat split;
         [auto|discriminate]).
  right. exists m. split; [reflexivity|]. split.
  { intros ->. discriminate. }
  repeat match goal with
         | H : _ || _ = true |- _ => apply orb_true_iff in H as [H|H]
         end;
    apply Nat.eqb_eq in H; subst st; simpl; auto.
Qed.

(** X2. Whatever the request and the state of the store, the response is
    either a 200 or a 201 whose body does not carry [success: false], or a
    400, 401, 404 or 500 whose body is [{ success: false, message }] with a
    message that is not empty.  No other status is ever sent. *)
Theorem every_response_is_a_success_or_an_error_message (r : request) (w : world) :
  ((status (fst (serve r w)) = 200 \/ status (fst (serve r w)) = 201)%nat
   /\ forall m, json (fst (serve r w)) <> Message false m)
  \/ (exists m, json (fst (serve r w)) = Message false m /\ m <> ""
        /\ (status (fst (serve r w)) = 400 \/ status (fst (serve r w)) = 401
            \/ status (fst (serve r w)) = 404
            \/ status (fst (serve r w)) = 500)%nat).
Proof.
  destruct (shaped_cases _ (serve_shaped r w))
    as [(Hst & _ & Hj)|(m & Hj & Hm & _ & Hst)].
  - left. split; assumption.
  - right. exists m. repeat split; assumption.
Qed.

(** X3. Through [handleResponse], the client gets the parsed body of every
    200 and 201, and for every other response throws an [Error] whose
    message is the server's own [message]: the fallback "HTTP error! status"
    text is never shown for a response of this server. *)
Theorem handleResponse_surfaces_the_servers_message (r : request) (w : world) :
  match Api.handleResponse (fst (serve r w)) with
  | inl data =>
      data = json (fst (serve r w))
      /\ (status (fst (serve r w)) = 200 \/ status (fst (serve r w)) = 201)%nat
  | inr message =>
      json (fst (serve r w)) = Message false message /\ message <> ""
      /\ (status (fst (serve r w)) = 400 \/ status (fst (serve r w)) = 401
          \/ status (fst (serve r w)) = 404 \/ status (fst (serve r w)) = 500)%nat
  end.
Proof.
  pose proof (serve_shaped r w) as H.
  apply shaped_cases in H. unfold Api.handleResponse.
  destruct H as [(Hst & -> & _)|(m & Hj & Hm & -> & Hst)].
  - split; [reflexivity|exact Hst].
  - rewrite Hj. simpl. destruct (String.eqb_spec m ""); [contradiction|].
    repeat split; assumption.
Qed.

(** ** What Register and Login can do to the world *)

Lemma preserves_ret {A B : Type} (f : world -> B) (a : A) : preserves f (mret a).
Proof. intros w. reflexivity. Qed.

Lemma preserves_throw {A B : Type} (f : world -> B) (e : exn) :
  preserves f (mthrow e : M A).
Proof. intros w. reflexivity. Qed.

Lemma preserves_lift {A B : Type} (f : world -> B) (r : result A) :
  preserves f (lift r).
Proof. intros w. reflexivity. Qed.

Lemma preserves_bind {A A' B : Type} (f : world -> B) (m : M A) (k : A -> M A') :
  preserves f m -> (forall a, preserves f (k a)) -> preserves f (m ≫= k).
Proof.
  intros Hm Hk w. unfold mbind, M_bind. specialize (Hm w).
  destruct (m w) as [[a|e] w']; simpl in *; [|exact Hm].
  rewrite (Hk a w'). exact Hm.
Qed.

Lemma preserves_try_catch {A B : Type} (f : world -> B) (m : M A) (h : exn -> M A) :
  preserves f m -> (forall e, preserves f (h e)) -> preserves f (try_catch m h).
Proof.
  intros Hm Hh w. unfold try_catch. specialize (Hm w).
  destruct (m w) as [[a|e] w']; simpl in *; [exact Hm|].
  rewrite (Hh e w'). exact Hm.
Qed.

Lemma preserves_users_findOne q :
  preserves users (users_findOne q) /\ preserves passwords (users_findOne q).
Proof. split; intros w; reflexivity. Qed.

Lemma preserves_bcrypt_compare_js {B : Type} (f : world -> B) s hash :
  preserves f (bcrypt_compare_js s hash).
Proof. intros w. destruct s; reflexivity. Qed.

Lemma preserves_jwt_sign_now claims :
  preserves users (jwt_sign_now claims).
Proof. intros w. reflexivity. Qed.

(** Login reads the users collection and writes to neither collection. *)
Lemma login_preserves_users email password : preserves users (login email password).
Proof.
  unfold login, internal_error.
  repeat first
    [ apply preserves_try_catch | apply preserves_bind | apply preserves_ret
    | apply preserves_lift | apply preserves_users_findOne
    | apply preserves_bcrypt_compare_js | apply preserves_jwt_sign_now
    | match goal with
      | |- preserves _ (if ?b then _ else _) => destruct b
      | |- preserves _ (match ?x with _ => _ end) => destruct x
      | |- forall _, preserves _ _ => intro
      end ].
Qed.

Lemma find_none_all {A : Type} (q : A -> bool) (l : list A) :
  List.find q l = None -> forall d, d ∈ l -> q d = false.
Proof.
  intros H d Hin. apply list_elem_of_In in Hin.
  exact (find_none q l H d Hin).
Qed.

Lemma existsb_user_id_false (oid : ObjectId) (l : list User.t) :
  existsb (fun d => String.eqb (User._id d) oid) l = false ->
  forall d, d ∈ l -> User._id d <> oid.
Proof.
  intros H d Hin E. apply list_elem_of_In in Hin.
  assert (existsb (fun d => String.eqb (User._id d) oid) l = true) as Ht.
  { apply existsb_exists. exists d. split; [assumption|]. apply String.eqb_eq, E. }
  congruence.
Qed.

Lemma validateUsername_true (username : jsval) :
  validateUsername username = Ok true ->
  exists u, username = JStr u /\ (2 <= String.length (trim u))%nat.
Proof.
  unfold validateUsername. destruct (truthy username); [|discriminate].
  destruct (js_trim username) as [t|] eqn:Ht; [|discriminate].
  apply js_trim_Ok in Ht as (u & -> & ->). intros H. inversion H as [Hlen].
  exists u. split; [reflexivity|]. apply Nat.leb_le. exact Hlen.
Qed.

(** Register: either both collections are as they were and the answer is
    not a 201, or the three fields were strings that passed the validators,
    no stored user had the lower-cased email or the lower-cased username, and
    one user was appended: the trimmed username, the lower-cased email, the
    bcrypt hash at cost 12 and a clock reading, under a new id. *)
Lemma register_cases username email password w :
  exists res w',
    register username email password w = (Ok res, w')
    /\ passwords w' = passwords w
    /\ ((status res <> 201%nat /\ users w' = users w)
        \/ (exists u e p oid,
              username = JStr u /\ email = JStr e /\ password = JStr p
              /\ (2 <= String.length (trim u))%nat
              /\ test emailRegex e = true
              /\ validatePassword (JStr p) = Ok true
              /\ (forall d, d ∈ users w ->
                    User.email d <> toLowerCase e /\ User.username d <> toLowerCase u)
              /\ oid = generate_id (S (S (drawn w)))
              /\ (forall d, d ∈ users w -> User._id d <> oid)
              /\ res = mkResponse 201 (Registered "User registered successfully" oid)
              /\ users w' = users w ++
                   [User.mk oid (trim u) (toLowerCase e)
                            (bcrypt_hash p 12 (drawn w)) (clock (S (drawn w)))])).
Proof.
  unfold register, try_catch, internal_error.
  destruct (negb (truthy username) || negb (truthy email) || negb (truthy password)).
  { eexists _, _. split; [reflexivity|]. split; [reflexivity|]. left.
    split; [discriminate|reflexivity]. }
  destruct (validateEmail email) eqn:Hve; simpl negb; cbv iota.
  2:{ eexists _, _. split; [reflexivity|]. split; [reflexivity|]. left.
      split; [discriminate|reflexivity]. }
  unfold mbind at 1, M_bind at 1, lift at 1.
  destruct (validateUsername username) as [[|]|ex] eqn:Hvu; simpl negb; cbv iota beta.
  2,3: eexists _, _; (split; [reflexivity|]); (split; [reflexivity|]); left;
       split; [discriminate|reflexivity].
  apply validateUsername_true in Hvu as (u & -> & Hu).
  unfold mbind at 1, M_bind at 1, lift at 1.
  destruct (validatePassword password) as [[|]|ex] eqn:Hvp; simpl negb; cbv iota beta.
  2,3: eexists _, _; (split; [reflexivity|]); (split; [reflexivity|]); left;
       split; [discriminate|reflexivity].
  destruct email as [| | | |e| |];
    try (eexists _, _; (split; [reflexivity|]); (split; [reflexivity|]); left;
         split; [discriminate|reflexivity]).
  run. unfold users_findOne. simpl.
  destruct (List.find _ (users w)) as [existing|] eqn:Hfind; simpl.
  { eexists _, _. split; [reflexivity|]. split; [reflexivity|]. left.
    split; [discriminate|reflexivity]. }
  destruct password as [| | | |p| |];
    try (eexists _, _; (split; [reflexivity|]); (split; [reflexivity|]); left;
         split; [discriminate|reflexivity]).
  simpl. unfold users_insertOne. simpl.
  destruct (existsb _ (users w)) eqn:Hex; simpl.
  { eexists _, _. split; [reflexivity|]. split; [reflexivity|]. left.
    split; [discriminate|reflexivity]. }
  eexists _, _. split; [reflexivity|]. split; [reflexivity|]. right.
  exists u, e, p, (generate_id (S (S (drawn w)))).
  repeat split; try assumption.
  - pose proof (find_none_all _ _ Hfind d H) as Hq. simpl in Hq.
    apply orb_false_iff in Hq as [Hq _]. intros E. apply String.eqb_eq in E. congruence.
  - pose proof (find_none_all _ _ Hfind d H) as Hq. simpl in Hq.
    apply orb_false_iff in Hq as [_ Hq]. intros E. apply String.eqb_eq in E. congruence.
  - apply existsb_user_id_false. exact Hex.
Qed.

(** One request either leaves the users collection alone or is a Register
    that appended one user. *)
Lemma serve_users_cases (r : request) (w w1 : world) (res : response) :
  serve r w = (res, w1) ->
  (users w1 = users w
   /\ (forall username email password,
         r = POST_register username email password -> status res <> 201%nat))
  \/ (exists u e p oid,
        r = POST_register (JStr u) (JStr e) (JStr p)
        /\ (2 <= String.length (trim u))%nat
        /\ test emailRegex e = true
        /\ validatePassword (JStr p) = Ok true
        /\ (forall d, d ∈ users w ->
              User.email d <> toLowerCase e /\ User.username d <> toLowerCase u)
        /\ oid = generate_id (S (S (drawn w)))
        /\ (forall d, d ∈ users w -> User._id d <> oid)
        /\ res = mkResponse 201 (Registered "User registered successfully" oid)
        /\ passwords w1 = passwords w
        /\ users w1 = users w ++
             [User.mk oid (trim u) (toLowerCase e)
                      (bcrypt_hash p 12 (drawn w)) (clock (S (drawn w)))]).
Proof.
  intros Hserve. unfold serve in Hserve.
  destruct r as [username email password | email password | auth
                | auth site username password | auth id site username password
                | auth id].
  - simpl in Hserve.
    destruct (register_cases username email password w)
      as (res' & w' & Hrun & Hp & Hcases).
    rewrite Hrun in Hserve. inversion Hserve; subst res' w'.
    destruct Hcases as [(Hst & Hu)
                       |(u & e & p & oid & -> & -> & -> & Hlen & He & Hvp & Hno & Hoid
                         & Hfresh & Hres & Hu)].
    + left. split; [exact Hu|]. intros ? ? ? _. exact Hst.
    + right. exists u, e, p, oid. repeat split; try assumption; apply Hno; assumption.
  - simpl in Hserve. pose proof (login_preserves_users email password w) as Hk.
    left. split; [|discriminate].
    destruct (login email password w) as [[res'|ex] w'];
      inversion Hserve; subst; exact Hk.
  - left. split; [|discriminate].
    destruct (gate_cases (GET_passwords auth) auth list_passwords eq_refl)
      as [(_ & msg & Hdeny)|(user & _ & Hpass)]; simpl route in Hserve.
    + rewrite Hdeny in Hserve. inversion Hserve; subst. reflexivity.
    + rewrite Hpass, list_passwords_run in Hserve. inversion Hserve; subst.
      reflexivity.
  - left. split; [|discriminate].
    destruct (gate_cases (POST_passwords auth site username password) auth
                (fun user => save_password user site username password) eq_refl)
      as [(_ & msg & Hdeny)|(user & _ & Hpass)]; simpl route in Hserve.
    + rewrite Hdeny in Hserve. inversion Hserve; subst. reflexivity.
    + rewrite Hpass in Hserve.
      destruct (save_password_cases user site username password w)
        as (res' & w' & Hrun & Hu & _).
      rewrite Hrun in Hserve. inversion Hserve; subst. exact Hu.
  - left. split; [|discriminate].
    destruct (gate_cases (PUT_passwords auth id site username password) auth
                (fun user => update_password user id site username password) eq_refl)
      as [(_ & msg & Hdeny)|(user & _ & Hpass)]; simpl route in Hserve.
    + rewrite Hdeny in Hserve. inversion Hserve; subst. reflexivity.
    + rewrite Hpass in Hserve.
      destruct (update_password_cases user id site username password w)
        as (res' & w' & Hrun & Hu & _).
      rewrite Hrun in Hserve. inversion Hserve; subst. exact Hu.
  - left. split; [|discriminate].
    destruct (gate_cases (DELETE_passwords auth id) auth
                (fun user => delete_password user id) eq_refl)
      as [(_ & msg & Hdeny)|(user & _ & Hpass)]; simpl route in Hserve.
    + rewrite Hdeny in Hserve. inversion Hserve; subst. reflexivity.
    + rewrite Hpass in Hserve.
      destruct (delete_password_cases user id w) as (res' & w' & Hrun & Hu & _).
      rewrite Hrun in Hserve. inversion Hserve; subst. exact Hu.
Qed.

(** X4. A Register answered 201 was sent three strings: a username of two
    code units or more once trimmed, an email the pattern accepts and a
    password of six or more.  No stored user had the lower-cased email.  It
    appended exactly one user, who holds the trimmed username, the lower-cased
    email, the bcrypt hash of the password at cost 12 (not the password) and
    a clock reading; the id in the body is the new user's; the users already
    stored and the passwords collection are as they were. *)
Theorem register_201_stores_one_hashed_user
    (username email password : jsval) (w w1 : world) (res : response) :
  serve (POST_register username email password) w = (res, w1) ->
  status res = 201%nat ->
  exists u e p oid,
    username = JStr u /\ email = JStr e /\ password = JStr p
    /\ (2 <= String.length (trim u))%nat
    /\ validateEmail (JStr e) = true
    /\ (6 <= String.length p)%nat
    /\ (forall d, d ∈ users w -> User.email d <> toLowerCase e)
    /\ json res = Registered "User registered successfully" oid
    /\ users w1 = users w ++
         [User.mk oid (trim u) (toLowerCase e)
                  (bcrypt_hash p 12 (drawn w)) (clock (S (drawn w)))]
    /\ passwords w1 = passwords w.
Proof.
  intros Hserve Hst.
  destruct (serve_users_cases _ _ _ _ Hserve)
    as [(_ & Hno)|(u & e & p & oid & Hr & Hlen & He & Hvp & Hnone & _ & _ & -> & Hp & Hu)].
  { exfalso. eapply Hno; [reflexivity|exact Hst]. }
  inversion Hr; subst. exists u, e, p, oid.
  repeat split; try assumption.
  - unfold validatePassword in Hvp. destruct (truthy (JStr p)); [|discriminate].
    simpl in Hvp. unfold js_ge, js_compare in Hvp.
    destruct (Z.of_nat (String.length p) ?= 6)%Z eqn:Hc; try discriminate.
    + apply Z.compare_eq in Hc. lia.
    + apply Z.compare_gt_iff in Hc. lia.
  - intros d Hd. apply (Hnone d Hd).
Qed.



(** ** Invariants of the users collection *)

(** X6. Requests served one at a time, each handler running to its response
    before the next request is taken up, never make two users share an
    email: if the stored emails are pairwise distinct they still are after
    any such sequence of requests.  Registrations that overlap are outside
    this statement: the handler is suspended between its lookup and its
    insert, and the collection has no unique index. *)
Theorem emails_stay_unique_when_served_in_turn (rs : list request) (w : world) :
  emails_unique w -> emails_unique (snd (serve_all rs w)).
Proof.
  revert w. induction rs as [|r rs IH]; intros w Huniq; simpl; [exact Huniq|].
  destruct (serve r w) as [res w1] eqn:Hserve.
  assert (emails_unique w1) as H1.
  { destruct (serve_users_cases _ _ _ _ Hserve)
      as [(Hu & _)|(u & e & p & oid & _ & _ & _ & _ & Hnone & _ & _ & _ & _ & Hu)];
      unfold emails_unique in *; rewrite Hu; [exact Huniq|].
    rewrite map_app. simpl. apply NoDup_app. split; [exact Huniq|].
    split; [|apply NoDup_singleton].
    intros x Hx Hx'. apply list_elem_of_singleton in Hx'. subst x.
    apply list_elem_of_fmap in Hx as (d & Hd & Hin).
    destruct (Hnone d Hin) as [Hne _]. congruence. }
  specialize (IH w1 H1). destruct (serve_all rs w1) as [ress w2]. exact IH.
Qed.

(** The two parts of Register, run one right after the other, are the
    handler. *)
Lemma register_begin_then_finish (username email password : jsval) (w : world) :
  (suspended ← register_begin username email password;
   register_finish username email password suspended) w
  = register username email password w.
Proof.
  unfold register, register_begin, register_finish, register_lookup,
    register_resume, try_catch, internal_error.
  destruct (negb (truthy username) || negb (truthy email) || negb (truthy password));
    [reflexivity|].
  destruct (validateEmail email); simpl negb; cbv iota; [|reflexivity].
  unfold mbind, M_bind, lift, mret, M_ret.
  destruct (validateUsername username) as [[|]|ex]; simpl negb; cbv iota beta;
    [|reflexivity|reflexivity].
  destruct (validatePassword password) as [[|]|ex]; simpl negb; cbv iota beta;
    [|reflexivity|reflexivity].
  destruct (js_toLowerCase email) as [qEmail|ex]; cbv iota beta; [|reflexivity].
  destruct (js_toLowerCase username) as [qUsername|ex]; cbv iota beta; [|reflexivity].
  unfold users_findOne. simpl.
  match goal with |- context [List.find ?q (users w)] =>
    destruct (List.find q (users w)) as [existing|] end; reflexivity.
Qed.

(** X24. Two registrations with one email that overlap.  Both pass the
    validators, their emails agree up to letter case, and no stored user has
    that email or either username.  The second request arrives while the
    first handler is suspended at its lookup, so both lookups are answered
    before either handler inserts.  Then both are answered 201, both users
    are stored under the one lower-cased email, and the stored emails are no
    longer pairwise distinct. *)
Theorem overlapped_registrations_share_an_email
    (u1 e1 p1 u2 e2 p2 : string) (w : world) :
  validateUsername (JStr u1) = Ok true ->
  validateEmail (JStr e1) = true ->
  validatePassword (JStr p1) = Ok true ->
  validateUsername (JStr u2) = Ok true ->
  validateEmail (JStr e2) = true ->
  validatePassword (JStr p2) = Ok true ->
  toLowerCase e1 = toLowerCase e2 ->
  (forall d, d ∈ users w ->
     User.email d <> toLowerCase e1
     /\ User.username d <> toLowerCase u1 /\ User.username d <> toLowerCase u2) ->
  (forall d, d ∈ users w ->
     User._id d <> generate_id (2 + drawn w)%nat
     /\ User._id d <> generate_id (5 + drawn w)%nat) ->
  generate_id (2 + drawn w)%nat <> generate_id (5 + drawn w)%nat ->
  exists w',
    register_overlapped (JStr u1) (JStr e1) (JStr p1) (JStr u2) (JStr e2) (JStr p2) w
    = (Ok (mkResponse 201
             (Registered "User registered successfully" (generate_id (2 + drawn w)%nat)),
           mkResponse 201
             (Registered "User registered successfully" (generate_id (5 + drawn w)%nat))),
       w')
    /\ users w' = users w ++
         [User.mk (generate_id (2 + drawn w)%nat) (trim u1) (toLowerCase e1)
                  (bcrypt_hash p1 12 (drawn w)) (clock (1 + drawn w)%nat);
          User.mk (generate_id (5 + drawn w)%nat) (trim u2) (toLowerCase e1)
                  (bcrypt_hash p2 12 (3 + drawn w)%nat) (clock (4 + drawn w)%nat)]
    /\ ~ emails_unique w'.
Proof.
  intros Hu1 He1 Hp1 Hu2 He2 Hp2 Hsame Hnone Hids Hfresh.
  assert (forall u e, toLowerCase e = toLowerCase e1 ->
            (u = u1 \/ u = u2) ->
            List.find (fun d => String.eqb (User.email d) (toLowerCase e)
                                 || String.eqb (User.username d) (toLowerCase u))
                      (users w) = None) as Hfind.
  { intros u e Hee Hu. apply find_absent. intros d Hd.
    destruct (Hnone d Hd) as (Ha & Hb & Hc). rewrite Hee.
    apply orb_false_iff. split.
    - destruct (String.eqb_spec (User.email d) (toLowerCase e1)); congruence.
    - destruct (String.eqb_spec (User.username d) (toLowerCase u)); [|reflexivity].
      destruct Hu; subst u; congruence. }
  assert (truthy (JStr u1) = true) as Tu1.
  { unfold validateUsername in Hu1. destruct (truthy (JStr u1)); [reflexivity|discriminate]. }
  assert (truthy (JStr u2) = true) as Tu2.
  { unfold validateUsername in Hu2. destruct (truthy (JStr u2)); [reflexivity|discriminate]. }
  assert (truthy (JStr p1) = true) as Tp1.
  { unfold validatePassword in Hp1. destruct (truthy (JStr p1)); [reflexivity|discriminate]. }
  assert (truthy (JStr p2) = true) as Tp2.
  { unfold validatePassword in Hp2. destruct (truthy (JStr p2)); [reflexivity|discriminate]. }
  assert (truthy (JStr e1) = true) as Te1.
  { apply truthy_JStr, emailRegex_nonempty. exact He1. }
  assert (truthy (JStr e2) = true) as Te2.
  { apply truthy_JStr, emailRegex_nonempty. exact He2. }
  unfold register_overlapped, register_begin, register_lookup.
  rewrite Tu1, Te1, Tp1, Tu2, Te2, Tp2, He1, He2, Hu1, Hp1, Hu2, Hp2.
  run.
  rewrite (Hfind u1 e1 eq_refl (or_introl eq_refl)).
  rewrite (Hfind u2 e2 (eq_sym Hsame) (or_intror eq_refl)).
  assert (forall oid, (forall d, d ∈ users w -> User._id d <> oid) ->
            existsb (fun d => String.eqb (User._id d) oid) (users w) = false) as Hex.
  { intros oid Hoid. destruct (existsb _ (users w)) eqn:E; [|reflexivity].
    apply existsb_exists in E as (d & Hd & Hq). apply String.eqb_eq in Hq.
    exfalso. apply (Hoid d); [apply list_elem_of_In; exact Hd|exact Hq]. }
  unfold register_resume, try_catch, internal_error, bcrypt_hash_js, users_insertOne.
  run.
  rewrite (Hex (generate_id (S (S (drawn w))))) by (intros d Hd; apply (Hids d Hd)).
  simpl. rewrite existsb_app.
  rewrite (Hex (generate_id (S (S (S (S (S (drawn w)))))))) by (intros d Hd; apply (Hids d Hd)).
  simpl.
  destruct (String.eqb_spec (generate_id (S (S (drawn w))))
              (generate_id (S (S (S (S (S (drawn w)))))))) as [E|_];
    [exfalso; exact (Hfresh E)|].
  simpl. eexists. split; [reflexivity|]. simpl. split.
  - rewrite <- app_assoc, Hsame. reflexivity.
  - unfold emails_unique. simpl. rewrite <- app_assoc, !map_app. simpl.
    intros Hnd. apply NoDup_app in Hnd as (_ & _ & Hnd).
    rewrite Hsame in Hnd. inversion Hnd as [|x l Hx _]. apply Hx. left.
Qed.

(** X7. Every user is stored with a lower-case email and a trimmed
    username, whatever was submitted: if that holds of the stored users it
    still holds after any sequence of requests. *)
Theorem users_stay_normalised (rs : list request) (w : world) :
  users_normalised w -> users_normalised (snd (serve_all rs w)).
Proof.
  revert w. induction rs as [|r rs IH]; intros w Hnorm; simpl; [exact Hnorm|].
  destruct (serve r w) as [res w1] eqn:Hserve.
  assert (users_normalised w1) as H1.
  { destruct (serve_users_cases _ _ _ _ Hserve)
      as [(Hu & _)|(u & e & p & oid & _ & _ & _ & _ & _ & _ & _ & _ & _ & Hu)];
      unfold users_normalised in *; rewrite Hu; [exact Hnorm|].
    intros d Hd. apply elem_of_app in Hd as [Hd|Hd]; [apply Hnorm, Hd|].
    apply list_elem_of_singleton in Hd. subst d. simpl.
    split; [apply toLowerCase_idempotent|apply trim_idempotent]. }
  specialize (IH w1 H1). destruct (serve_all rs w1) as [ress w2]. exact IH.
Qed.

(** ** What one request can do to the passwords collection *)

Lemma save_password_validated user site username password w res w' :
  save_password user site username password w = (Ok res, w') ->
  status res = 201%nat ->
  save_validation site username password = Ok None.
Proof.
  unfold save_password, try_catch, internal_error.
  unfold mbind at 1, M_bind at 1, lift at 1.
  destruct (save_validation site username password) as [[rej|]|e] eqn:Hval.
  - intros E Hst. inversion E; subst.
    rewrite (save_validation_rejects _ _ _ _ Hval) in Hst. discriminate.
  - reflexivity.
  - intros E Hst. inversion E; subst. discriminate.
Qed.

Lemma update_password_validated user id site username password w res w' :
  update_password user id site username password w = (Ok res, w') ->
  status res = 200%nat ->
  update_validation site username password = Ok None.
Proof.
  unfold update_password, try_catch, internal_error.
  destruct (negb (ObjectId_isValid id)).
  { intros E Hst. inversion E; subst. discriminate. }
  unfold mbind at 1, M_bind at 1, lift at 1.
  destruct (update_validation site username password) as [[rej|]|e] eqn:Hval.
  - intros E Hst. inversion E; subst.
    rewrite (update_validation_rejects _ _ _ _ Hval) in Hst. discriminate.
  - reflexivity.
  - intros E Hst. inversion E; subst. discriminate.
Qed.

(** One request leaves the passwords collection alone, or it is a Create,
    an Update or a Delete by a caller the gate let through, with the one
    effect of that handler. *)
Lemma serve_passwords_cases (r : request) (w w1 : world) (res : response) :
  serve r w = (res, w1) ->
  (passwords w1 = passwords w
   /\ (forall auth site username password,
         r = POST_passwords auth site username password -> status res <> 201%nat)
   /\ (forall auth id site username password,
         r = PUT_passwords auth id site username password -> status res <> 200%nat)
   /\ (forall auth id, r = DELETE_passwords auth id -> status res <> 200%nat))
  \/ (exists auth user s u password oid,
        r = POST_passwords auth (JStr s) (JStr u) password
        /\ caller r = Some user
        /\ save_validation (JStr s) (JStr u) password = Ok None
        /\ oid = generate_id (S (S (drawn w)))
        /\ res = mkResponse 201 (Inserted oid "Password saved successfully")
        /\ (forall d, d ∈ passwords w -> Cred._id d <> oid)
        /\ passwords w1 = passwords w ++
             [Cred.mk oid (trim s) (trim u) password (Claims.id user)
                      (clock (drawn w)) (clock (S (drawn w)))])
  \/ (exists auth user id s u password oid found,
        r = PUT_passwords auth id (JStr s) (JStr u) password
        /\ caller r = Some user
        /\ update_validation (JStr s) (JStr u) password = Ok None
        /\ new_ObjectId id = Some oid
        /\ res = reply 200 true "Password updated successfully"
        /\ List.find (fun d => has_id oid d && owned_by user d) (passwords w)
           = Some found
        /\ passwords w1 =
             update_first (has_id oid)
               (set_fields (trim s) (trim u) password (clock (drawn w)))
               (passwords w))
  \/ (exists auth user id oid found,
        r = DELETE_passwords auth id
        /\ caller r = Some user
        /\ new_ObjectId id = Some oid
        /\ res = reply 200 true "Password deleted successfully"
        /\ List.find (fun d => has_id oid d && owned_by user d) (passwords w)
           = Some found
        /\ passwords w1 = delete_first (has_id oid) (passwords w)).
Proof.
  intros Hserve. unfold serve in Hserve.
  destruct r as [username email password | email password | auth
                | auth site username password | auth id site username password
                | auth id].
  - left. simpl in Hserve.
    pose proof (register_keeps_passwords username email password w) as Hk.
    split; [|repeat split; discriminate].
    destruct (register username email password w) as [[res'|e] w'];
      inversion Hserve; subst; exact Hk.
  - left. simpl in Hserve.
    pose proof (login_keeps_passwords email password w) as Hk.
    split; [|repeat split; discriminate].
    destruct (login email password w) as [[res'|e] w'];
      inversion Hserve; subst; exact Hk.
  - left. split; [|repeat split; discriminate].
    destruct (gate_cases (GET_passwords auth) auth list_passwords eq_refl)
      as [(_ & msg & Hdeny)|(user & _ & Hpass)]; simpl route in Hserve.
    + rewrite Hdeny in Hserve. inversion Hserve; subst. reflexivity.
    + rewrite Hpass, list_passwords_run in Hserve. inversion Hserve; subst.
      reflexivity.
  - destruct (gate_cases (POST_passwords auth site username password) auth
                (fun user => save_password user site username password) eq_refl)
      as [(_ & msg & Hdeny)|(user & Hc & Hpass)]; simpl route in Hserve.
    + left. rewrite Hdeny in Hserve. inversion Hserve; subst.
      split; [reflexivity|]. repeat split; discriminate.
    + rewrite Hpass in Hserve.
      destruct (save_password_cases user site username password w)
        as (res' & w' & Hrun & _ & Hcases).
      rewrite Hrun in Hserve. inversion Hserve; subst res' w'.
      destruct Hcases as [(Hst & _ & Hp)|(s & u & oid & -> & -> & Hoid & Hres & Hfresh & Hp)].
      * left. split; [exact Hp|]. split; [intros; exact Hst|]. split; discriminate.
      * right. left. exists auth, user, s, u, password, oid.
        repeat split; try assumption.
        eapply save_password_validated; [exact Hrun|]. rewrite Hres. reflexivity.
  - destruct (gate_cases (PUT_passwords auth id site username password) auth
                (fun user => update_password user id site username password) eq_refl)
      as [(_ & msg & Hdeny)|(user & Hc & Hpass)]; simpl route in Hserve.
    + left. rewrite Hdeny in Hserve. inversion Hserve; subst.
      split; [reflexivity|]. repeat split; discriminate.
    + rewrite Hpass in Hserve.
      destruct (update_password_cases user id site username password w)
        as (res' & w' & Hrun & _ & Hcases).
      rewrite Hrun in Hserve. inversion Hserve; subst res' w'.
      destruct Hcases as [(Hst & Hp)
                         |(oid & s & u & found & Hid & -> & -> & Hres & Hfind & Hp)].
      * left. split; [exact Hp|]. split; [discriminate|].
        split; [intros; exact Hst|discriminate].
      * right. right. left. exists auth, user, id, s, u, password, oid, found.
        repeat split; try assumption.
        eapply update_password_validated; [exact Hrun|]. rewrite Hres. reflexivity.
  - destruct (gate_cases (DELETE_passwords auth id) auth
                (fun user => delete_password user id) eq_refl)
      as [(_ & msg & Hdeny)|(user & Hc & Hpass)]; simpl route in Hserve.
    + left. rewrite Hdeny in Hserve. inversion Hserve; subst.
      split; [reflexivity|]. repeat split; discriminate.
    + rewrite Hpass in Hserve.
      destruct (delete_password_cases user id w) as (res' & w' & Hrun & _ & Hcases).
      rewrite Hrun in Hserve. inversion Hserve; subst res' w'.
      destruct Hcases as [(Hst & Hp)|(oid & found & Hid & Hres & Hfind & Hp)].
      * left. split; [exact Hp|]. split; [discriminate|].
        split; [discriminate|intros; exact Hst].
      * right. right. right. exists auth, user, id, oid, found.
        repeat split; assumption.
Qed.

(** X8. A request that is not answered 200 or 201 changes neither
    collection: every validation error, every denial, every "not found" and
    every 500 leaves the users and the passwords as they were. *)
Theorem errors_change_nothing (r : request) (w w1 : world) (res : response) :
  serve r w = (res, w1) ->
  status res <> 200%nat -> status res <> 201%nat ->
  users w1 = users w /\ passwords w1 = passwords w.
Proof.
  intros Hserve H200 H201. split.
  - destruct (serve_users_cases _ _ _ _ Hserve)
      as [(Hu & _)|(u & e & p & oid & _ & _ & _ & _ & _ & _ & _ & -> & _)];
      [exact Hu|]. exfalso. apply H201. reflexivity.
  - destruct (serve_passwords_cases _ _ _ _ Hserve)
      as [(Hp & _)|[(? & ? & ? & ? & ? & ? & _ & _ & _ & _ & -> & _)
                   |[(? & ? & ? & ? & ? & ? & ? & ? & _ & _ & _ & _ & -> & _)
                    |(? & ? & ? & ? & ? & _ & _ & _ & -> & _)]]];
      [exact Hp| | |]; exfalso; (apply H201; reflexivity) || (apply H200; reflexivity).
Qed.

(** X9. Every stored record keeps a trimmed site of three code units or
    more and a trimmed username: if that holds of the stored records it
    still holds after any sequence of requests.  (That the username is not
    empty is not kept: Update does not check it.) *)
Theorem records_stay_normalised (rs : list request) (w : world) :
  records_normalised w -> records_normalised (snd (serve_all rs w)).
Proof.
  revert w. induction rs as [|r rs IH]; intros w Hnorm; simpl; [exact Hnorm|].
  destruct (serve r w) as [res w1] eqn:Hserve.
  assert (records_normalised w1) as H1.
  { unfold records_normalised in *.
    destruct (serve_passwords_cases _ _ _ _ Hserve)
      as [(Hp & _)
         |[(auth & user & s & u & password & oid & _ & _ & Hval & _ & _ & _ & Hp)
          |[(auth & user & id & s & u & password & oid & found & _ & _ & Hval & _ & _
             & _ & Hp)
           |(auth & user & id & oid & found & _ & _ & _ & _ & _ & Hp)]]];
      rewrite Hp.
    - exact Hnorm.
    - intros d Hd. apply elem_of_app in Hd as [Hd|Hd]; [apply Hnorm, Hd|].
      apply list_elem_of_singleton in Hd. subst d. simpl.
      apply save_validation_accepts in Hval as (_ & s' & u' & Hs & Hu & Hlen & _).
      inversion Hs; inversion Hu; subst s' u'.
      rewrite !trim_idempotent. auto.
    - intros d Hd.
      apply elem_of_update_first in Hd as [Hd|(d0 & Hd0 & ->)]; [apply Hnorm, Hd|].
      simpl.
      apply update_validation_accepts in Hval as (_ & _ & s' & Hs & Hlen).
      inversion Hs; subst s'. rewrite !trim_idempotent. auto.
    - intros d Hd. apply Hnorm. eapply elem_of_delete_first. exact Hd. }
  specialize (IH w1 H1). destruct (serve_all rs w1) as [ress w2]. exact IH.
Qed.

(** ** Isolation between users *)

Lemma found_target (user : Claims.t) (oid : ObjectId) (l : list Cred.t) (found : Cred.t) :
  NoDup (map Cred._id l) ->
  List.find (fun d => has_id oid d && owned_by user d) l = Some found ->
  exists before after,
    l = before ++ found :: after
    /\ Cred._id found = oid /\ Cred.userId found = Claims.id user
    /\ (forall x, x ∈ before -> has_id oid x = false)
    /\ (forall x, x ∈ before ++ after -> Cred._id x <> oid).
Proof.
  intros Hnd Hfind.
  apply find_split in Hfind as (before & after & -> & Hq & _).
  apply andb_true_iff in Hq as [Hid Hown].
  apply has_id_spec in Hid. apply owned_by_spec in Hown.
  exists before, after. split; [reflexivity|]. split; [exact Hid|].
  split; [exact Hown|]. subst oid. split; [apply (unique_before _ _ _ Hnd)|].
  intros x Hx E. rewrite map_app in Hnd. simpl in Hnd.
  apply NoDup_app in Hnd as (_ & Hdis & Hrest).
  apply NoDup_cons in Hrest as [Hnotin _].
  apply elem_of_app in Hx as [Hx|Hx].
  - apply (Hdis (Cred._id x)); [apply list_elem_of_fmap; eauto|].
    rewrite E. left.
  - apply Hnotin. rewrite <- E. apply list_elem_of_fmap. eauto.
Qed.

(** X10. No request touches a record of another user.  With unique ids, a
    record whose [userId] is not the identity of the caller (or any record,
    when the request has no valid token) is in the collection after the
    request exactly if it was there before. *)
Theorem other_users_records_are_untouched
    (r : request) (w w1 : world) (res : response) (d : Cred.t) :
  unique_ids w ->
  serve r w = (res, w1) ->
  (forall user, caller r = Some user -> Cred.userId d <> Claims.id user) ->
  (d ∈ passwords w <-> d ∈ passwords w1).
Proof.
  intros Huniq Hserve Hother.
  destruct (serve_passwords_cases _ _ _ _ Hserve)
    as [(Hp & _)
       |[(auth & user & s & u & password & oid & _ & Hc & _ & _ & _ & _ & Hp)
        |[(auth & user & id & s & u & password & oid & found & _ & Hc & _ & _ & _
           & Hfind & Hp)
         |(auth & user & id & oid & found & _ & Hc & _ & _ & Hfind & Hp)]]];
    rewrite Hp.
  - reflexivity.
  - rewrite elem_of_app, list_elem_of_singleton. split; [auto|].
    intros [H| ->]; [exact H|]. exfalso. apply (Hother user Hc). reflexivity.
  - destruct (found_target _ _ _ _ Huniq Hfind)
      as (before & after & Hl & Hid & Hown & Hbefore & _).
    rewrite Hl, update_first_split; [|exact Hbefore|apply has_id_spec, Hid].
    rewrite !elem_of_app, !elem_of_cons. split.
    + intros [H|[->|H]]; auto. exfalso. apply (Hother user Hc), Hown.
    + intros [H|[->|H]]; auto. exfalso. apply (Hother user Hc), Hown.
  - destruct (found_target _ _ _ _ Huniq Hfind)
      as (before & after & Hl & Hid & Hown & Hbefore & _).
    rewrite Hl, delete_first_split; [|exact Hbefore|apply has_id_spec, Hid].
    rewrite !elem_of_app, !elem_of_cons. split.
    + intros [H|[->|H]]; auto. exfalso. apply (Hother user Hc), Hown.
    + intros [H|H]; auto.
Qed.

(** ** Delete *)

Lemma caller_authenticated (r : request) (auth : option string) (user : Claims.t) :
  protected r = Some auth -> authenticated auth user -> caller r = Some user.
Proof.
  intros Hp (token & Hb & Ht & Hv). unfold caller. rewrite Hp, Hb.
  rewrite (no_token_some _ Ht). simpl. rewrite Hv. reflexivity.
Qed.

Lemma delete_success auth user id w res w1 :
  unique_ids w ->
  authenticated auth user ->
  serve (DELETE_passwords auth id) w = (res, w1) ->
  status res = 200%nat ->
  exists before target after,
    new_ObjectId id = Some (Cred._id target)
    /\ Cred.userId target = Claims.id user
    /\ passwords w = before ++ target :: after
    /\ passwords w1 = before ++ after
    /\ (forall x, x ∈ before ++ after -> Cred._id x <> Cred._id target)
    /\ users w1 = users w.
Proof.
  intros Huniq Hauth Hserve Hst.
  pose proof (caller_authenticated (DELETE_passwords auth id) auth user eq_refl Hauth)
    as Hcaller.
  destruct (serve_users_cases _ _ _ _ Hserve) as [(Hu & _)|(? & ? & ? & ? & Hr & _)];
    [|discriminate Hr].
  destruct (serve_passwords_cases _ _ _ _ Hserve)
    as [(_ & _ & _ & Hno)
       |[(? & ? & ? & ? & ? & ? & Hr & _)
        |[(? & ? & ? & ? & ? & ? & ? & ? & Hr & _)
         |(auth' & user' & id' & oid & found & Hr & Hc & Hid & _ & Hfind & Hp)]]];
    try discriminate Hr.
  { exfalso. eapply Hno; [reflexivity|exact Hst]. }
  inversion Hr; subst auth' id'. rewrite Hcaller in Hc. inversion Hc; subst user'.
  destruct (found_target _ _ _ _ Huniq Hfind)
    as (before & after & Hl & Hfid & Hown & Hbefore & Hrest).
  exists before, found, after. subst oid.
  repeat split; try assumption.
  rewrite Hp, Hl. apply delete_first_split; [exact Hbefore|].
  apply has_id_spec. reflexivity.
Qed.


(** X12. Once deleted, a record is gone for good: after a successful
    Delete, a second Delete of the same id by the same caller is answered 404
    and changes nothing, and the caller's List holds no record with that
    id. *)
Theorem deleted_record_is_gone
    (auth : option string) (user : Claims.t) (id : string)
    (w w1 : world) (res : response) :
  unique_ids w ->
  authenticated auth user ->
  serve (DELETE_passwords auth id) w = (res, w1) ->
  status res = 200%nat ->
  serve (DELETE_passwords auth id) w1
    = (reply 404 false "Password not found or access denied",
       logged passwords_findOne_op w1)
  /\ exists docs w2,
       serve (GET_passwords auth) w1 = (mkResponse 200 (Records docs), w2)
       /\ forall d, d ∈ docs -> new_ObjectId id <> Some (Cred._id d).
Proof.
  intros Huniq Hauth Hserve Hst.
  destruct (delete_success _ _ _ _ _ _ Huniq Hauth Hserve Hst)
    as (before & target & after & Hid & _ & _ & Hw1 & Hrest & _).
  split.
  - unfold serve, route. rewrite (verifyToken_decoded _ _ _ Hauth).
    rewrite (delete_not_owned user id (Cred._id target) w1 Hid); [reflexivity|].
    intros d Hd E. exfalso. rewrite Hw1 in Hd. exact (Hrest d Hd E).
  - eexists _, _. split; [apply (served_list _ _ _ Hauth)|].
    intros d Hd E. apply listed_iff in Hd as [Hd _]. rewrite Hw1 in Hd.
    rewrite Hid in E. inversion E as [E']. apply (Hrest d Hd). symmetry. exact E'.
Qed.

(** ** Create *)

Lemma length_pos_nonempty (s : string) : (1 <= String.length s)%nat -> s <> "".
Proof. intros H ->. simpl in H. lia. Qed.

Lemma nonempty_length_pos (s : string) : s <> "" -> (1 <= String.length s)%nat.
Proof. destruct s; [contradiction|simpl; lia]. Qed.

Lemma trim_length_pos_nonempty (s : string) :
  (1 <= String.length (trim s))%nat -> s <> "".
Proof. intros H. apply trim_nonempty, length_pos_nonempty, H. Qed.

Lemma save_validation_strings (s u p : string) :
  save_validation (JStr s) (JStr u) (JStr p) = Ok None
  <-> (3 <= String.length (trim s))%nat
      /\ (1 <= String.length (trim u))%nat
      /\ (1 <= String.length p)%nat.
Proof.
  split.
  - intros H. pose proof (save_validation_accepts _ _ _ H)
      as (Hp & s' & u' & Hs & Hu & Hls & Hlu).
    inversion Hs; inversion Hu; subst s' u'.
    repeat split; try assumption.
    apply nonempty_length_pos. intros ->. discriminate Hp.
  - intros (Hs & Hu & Hp). unfold save_validation.
    rewrite (truthy_JStr s), (truthy_JStr u), (truthy_JStr p);
      [|apply length_pos_nonempty; assumption
       |apply trim_length_pos_nonempty; assumption
       |apply trim_length_pos_nonempty; lia].
    assert ((String.length (trim s) <? 3)%nat = false) as E1
      by (apply Nat.ltb_ge; lia).
    assert ((String.length (trim u) <? 1)%nat = false) as E2
      by (apply Nat.ltb_ge; lia).
    unfold js_trim, js_length, mbind, result_bind, mret, result_ret.
    cbn [negb orb]. rewrite E1, E2. unfold js_lt, js_compare.
    destruct (Z.of_nat (String.length p) ?= 1)%Z eqn:Hc; try reflexivity.
    change (Z.of_nat (String.length p) < 1)%Z in Hc. exfalso. lia.
Qed.

Lemma existsb_id_fresh (oid : ObjectId) (l : list Cred.t) :
  (forall d, d ∈ l -> Cred._id d <> oid) ->
  existsb (fun d => String.eqb (Cred._id d) oid) l = false.
Proof.
  intros H. destruct (existsb _ l) eqn:Hex; [|reflexivity].
  apply existsb_exists in Hex as (d & Hin & Hd).
  apply String.eqb_eq in Hd. apply list_elem_of_In in Hin.
  exfalso. exact (H d Hin Hd).
Qed.

Lemma create_201 (auth : option string) (user : Claims.t) (s u p : string) (w : world) :
  authenticated auth user ->
  (3 <= String.length (trim s))%nat ->
  (1 <= String.length (trim u))%nat ->
  (1 <= String.length p)%nat ->
  (forall d, d ∈ passwords w -> Cred._id d <> generate_id (S (S (drawn w)))) ->
  serve (POST_passwords auth (JStr s) (JStr u) (JStr p)) w
  = (mkResponse 201
       (Inserted (generate_id (S (S (drawn w)))) "Password saved successfully"),
     set_passwords
       (passwords w ++
        [Cred.mk (generate_id (S (S (drawn w)))) (trim s) (trim u) (JStr p)
                 (Claims.id user) (clock (drawn w)) (clock (S (drawn w)))])
       (logged passwords_insertOne_op (draw (draw (draw w))))).
Proof.
  intros Hauth Hs Hu Hp Hfresh.
  assert (save_validation (JStr s) (JStr u) (JStr p) = Ok None) as Hval.
  { apply save_validation_strings. auto. }
  unfold serve, route. rewrite (verifyToken_decoded _ _ _ Hauth).
  unfold save_password. run. rewrite Hval. simpl.
  rewrite (existsb_id_fresh _ _ Hfresh). reflexivity.
Qed.

(** X13. For a body of three strings sent with a valid token, Create is
    answered 201 exactly when the trimmed site has three code units or more,
    the trimmed username is not empty, the password is not empty, and the id
    the driver generates is not already in the collection. *)
Theorem create_succeeds_exactly_when
    (auth : option string) (user : Claims.t) (s u p : string) (w : world) :
  authenticated auth user ->
  status (fst (serve (POST_passwords auth (JStr s) (JStr u) (JStr p)) w)) = 201%nat
  <-> (3 <= String.length (trim s))%nat
      /\ (1 <= String.length (trim u))%nat
      /\ (1 <= String.length p)%nat
      /\ (forall d, d ∈ passwords w -> Cred._id d <> generate_id (S (S (drawn w)))).
Proof.
  intros Hauth. split.
  - destruct (serve (POST_passwords auth (JStr s) (JStr u) (JStr p)) w)
      as [res w1] eqn:Hserve. simpl. intros Hst.
    destruct (serve_passwords_cases _ _ _ _ Hserve)
      as [(_ & Hno & _)
         |[(auth' & user' & s' & u' & p' & oid & Hr & _ & Hval & -> & _ & Hfresh & _)
          |[(? & ? & ? & ? & ? & ? & ? & ? & Hr & _)
           |(? & ? & ? & ? & ? & Hr & _)]]];
      try discriminate Hr.
    { exfalso. eapply Hno; [reflexivity|exact Hst]. }
    inversion Hr; subst. apply save_validation_strings in Hval as (? & ? & ?).
    repeat split; assumption.
  - intros (Hs & Hu & Hp & Hfresh).
    rewrite (create_201 _ _ _ _ _ _ Hauth Hs Hu Hp Hfresh). reflexivity.
Qed.

(** ** Malformed ids *)

(** X14. An Update or a Delete whose id the ObjectId constructor refuses is
    answered 400 "Invalid password ID format" whatever the body, before the
    body is looked at and without a round trip to the database: the world is
    exactly as it was. *)
Theorem malformed_id_is_400_without_store_access
    (auth : option string) (user : Claims.t) (id : string)
    (site username password : jsval) (w : world) :
  authenticated auth user ->
  new_ObjectId id = None ->
  serve (PUT_passwords auth id site username password) w
    = (reply 400 false "Invalid password ID format", w)
  /\ serve (DELETE_passwords auth id) w
    = (reply 400 false "Invalid password ID format", w).
Proof.
  intros Hauth Hid. unfold serve, route. rewrite !(verifyToken_decoded _ _ _ Hauth).
  unfold update_password, delete_password. run. rewrite Hid. split; reflexivity.
Qed.

(** ** The token on its way from [localStorage] to the gate *)

Lemma includes_space_cons (c : ascii) (t : string) :
  includes (String c t) " " = false ->
  Ascii.eqb c " " = false /\ includes t " " = false.
Proof.
  simpl. intros H. apply orb_false_iff in H as [Hc Ht]. split; [|exact Ht].
  destruct (Ascii.eqb_spec c " ") as [->|Hne]; [|reflexivity].
  simpl in Hc. destruct (ascii_dec " " " ") as [_|Hn]; [|contradiction].
  destruct t; discriminate Hc.
Qed.

Lemma split_without_space (t : string) :
  includes t " " = false -> split " " t = [t].
Proof.
  induction t as [|c t IH]; intros H; [reflexivity|].
  apply includes_space_cons in H as [Hc Ht]. simpl. rewrite Hc, (IH Ht).
  reflexivity.
Qed.

Lemma split_scheme (scheme t : string) :
  includes scheme " " = false ->
  split " " (scheme ++ " " ++ t)%string = scheme :: split " " t.
Proof.
  induction scheme as [|c scheme IH]; intros H.
  - reflexivity.
  - apply includes_space_cons in H as [Hc Hs].
    change (String c scheme ++ " " ++ t)%string
      with (String c (scheme ++ " " ++ t)%string).
    simpl. rewrite Hc, (IH Hs). reflexivity.
Qed.

Lemma bearer_second_word (scheme token : string) :
  includes scheme " " = false -> includes token " " = false ->
  bearer (Some (scheme ++ " " ++ token)%string) = Some token.
Proof.
  intros Hs Ht. unfold bearer.
  destruct (String.eqb_spec (scheme ++ " " ++ token)%string "") as [E|_].
  { destruct scheme; discriminate E. }
  rewrite (split_scheme _ _ Hs), (split_without_space _ Ht). reflexivity.
Qed.

(** X15. The gate reads the second word of the Authorization header and
    never looks at the first: with any scheme word in front ("Bearer",
    "Basic", the empty word), a token that verifies authenticates the
    request, provided neither word contains a space. *)
Theorem gate_ignores_the_scheme (scheme token : string) (user : Claims.t) :
  includes scheme " " = false ->
  includes token " " = false ->
  token <> "" ->
  jwt_verify token = Decoded user ->
  authenticated (Some (scheme ++ " " ++ token)%string) user.
Proof.
  intros Hs Ht Hne Hv. exists token.
  split; [apply bearer_second_word; assumption|]. split; assumption.
Qed.


(** X17. After [removeToken] the client is logged out: no token and no user
    are left in [localStorage], every other key is as it was,
    [isAuthenticated] is false, [getAuthHeaders] carries no Authorization
    header, and every protected route answers such a request 401 "Access
    denied. No token provided." without touching the world. *)
Theorem removeToken_logs_out
    (localStorage : gmap string string) (r : request) (w : world) :
  protected r = Some (Api.getAuthHeaders (Api.removeToken localStorage)) ->
  Api.getToken (Api.removeToken localStorage) = None
  /\ Api.removeToken localStorage !! "user" = None
  /\ (forall key, key <> "token" -> key <> "user" ->
        Api.removeToken localStorage !! key = localStorage !! key)
  /\ Api.isAuthenticated (Api.removeToken localStorage) = false
  /\ Api.getAuthHeaders (Api.removeToken localStorage) = None
  /\ serve r w = (reply 401 false "Access denied. No token provided.", w).
Proof.
  intros Hp.
  assert (Api.removeToken localStorage !! "token" = None) as Hget.
  { unfold Api.removeToken. rewrite lookup_delete_ne by discriminate.
    apply lookup_delete_eq. }
  assert (Api.getAuthHeaders (Api.removeToken localStorage) = None) as Hh.
  { unfold Api.getAuthHeaders. rewrite Hget. reflexivity. }
  split; [exact Hget|]. split; [apply lookup_delete_eq|]. split.
  { intros key H1 H2. unfold Api.removeToken.
    rewrite !lookup_delete_ne by congruence. reflexivity. }
  split; [unfold Api.isAuthenticated, Api.getToken; rewrite Hget; reflexivity|].
  split; [exact Hh|].
  destruct (protected_route _ _ Hp) as [next Hr].
  unfold serve. rewrite Hr, Hh. reflexivity.
Qed.

(** ** The forms against the server's validation *)

Lemma eqb_empty_false_length (s : string) :
  String.eqb s "" = false -> (1 <= String.length s)%nat.
Proof. destruct s; [discriminate|simpl; lia]. Qed.

Lemma Manager_form_accepted (f : Manager.form) :
  Manager.validateForm f = None ->
  (3 <= String.length (trim (Manager.site f)))%nat
  /\ (1 <= String.length (trim (Manager.username f)))%nat
  /\ (1 <= String.length (Manager.password f))%nat.
Proof.
  unfold Manager.validateForm.
  destruct (String.eqb (trim (Manager.site f)) "") eqn:Hs; [discriminate|].
  destruct (String.eqb (trim (Manager.username f)) "") eqn:Hu; [discriminate|].
  destruct (String.eqb (trim (Manager.password f)) "") eqn:Hp; [discriminate|].
  destruct (Nat.ltb_spec (String.length (trim (Manager.site f))) 3); [discriminate|].
  intros _. split; [assumption|]. split; [apply eqb_empty_false_length, Hu|].
  apply nonempty_length_pos, trim_nonempty. intros E. rewrite E in Hp. discriminate.
Qed.

(** X18. A form the Manager page accepts is never refused by the server's
    field validation, on Create or on Update; sent as a Create with a valid
    token it is answered 201 and stored (site and username trimmed), unless
    the generated id is already in use. *)
Theorem Manager_form_passes_server_validation
    (f : Manager.form) (auth : option string) (user : Claims.t) (w : world) :
  Manager.validateForm f = None ->
  authenticated auth user ->
  save_validation (JStr (Manager.site f)) (JStr (Manager.username f))
                  (JStr (Manager.password f)) = Ok None
  /\ update_validation (JStr (Manager.site f)) (JStr (Manager.username f))
                       (JStr (Manager.password f)) = Ok None
  /\ ((forall d, d ∈ passwords w -> Cred._id d <> generate_id (S (S (drawn w)))) ->
      serve (POST_passwords auth (JStr (Manager.site f)) (JStr (Manager.username f))
               (JStr (Manager.password f))) w
      = (mkResponse 201
           (Inserted (generate_id (S (S (drawn w)))) "Password saved successfully"),
         set_passwords
           (passwords w ++
            [Cred.mk (generate_id (S (S (drawn w)))) (trim (Manager.site f))
                     (trim (Manager.username f)) (JStr (Manager.password f))
                     (Claims.id user) (clock (drawn w)) (clock (S (drawn w)))])
           (logged passwords_insertOne_op (draw (draw (draw w)))))).
Proof.
  intros Hform Hauth.
  destruct (Manager_form_accepted f Hform) as (Hs & Hu & Hp).
  assert (save_validation (JStr (Manager.site f)) (JStr (Manager.username f))
            (JStr (Manager.password f)) = Ok None) as Hval.
  { apply save_validation_strings. auto. }
  split; [exact Hval|]. split; [apply save_accepts_update_accepts, Hval|].
  intros Hfresh. apply create_201; assumption.
Qed.

Lemma append_nil_all {A : Type} (l1 l2 : list A) : l1 ++ l2 = [] -> l1 = [] /\ l2 = [].
Proof. destruct l1; simpl; [auto|discriminate]. Qed.

Lemma validatePassword_long (p : string) :
  (6 <= String.length p)%nat -> validatePassword (JStr p) = Ok true.
Proof.
  intros H. unfold validatePassword.
  rewrite truthy_JStr by (apply length_pos_nonempty; lia).
  simpl. unfold js_ge, js_compare.
  destruct (Z.of_nat (String.length p) ?= 6)%Z eqn:Hc; try reflexivity.
  change (Z.of_nat (String.length p) < 6)%Z in Hc. exfalso. lia.
Qed.

Lemma validateUsername_long (u : string) :
  (2 <= String.length (trim u))%nat -> validateUsername (JStr u) = Ok true.
Proof.
  intros H. unfold validateUsername.
  rewrite truthy_JStr by (apply trim_length_pos_nonempty; lia).
  change (Ok (2 <=? String.length (trim u))%nat = Ok true).
  f_equal. apply Nat.leb_le. exact H.
Qed.

(** X19. A form the Register page accepts passes every field check of the
    server: the Register request it sends is answered 201, or 400 with
    "Email already exists" or "Username already exists", or 500 (an id
    collision in the store), and never with one of the four validation
    messages. *)
Theorem Register_form_passes_server_validation (f : RegisterPage.form) (w : world) :
  RegisterPage.validateForm f = [] ->
  let res :=
    fst (serve (POST_register (JStr (RegisterPage.username f))
                  (JStr (RegisterPage.email f))
                  (JStr (RegisterPage.password f))) w) in
  status res = 201%nat
  \/ res = reply 400 false "Email already exists"
  \/ res = reply 400 false "Username already exists"
  \/ res = reply 500 false "Internal server error".
Proof.
  unfold RegisterPage.validateForm. intros Hform.
  apply append_nil_all in Hform as [Hu Hform].
  apply append_nil_all in Hform as [He Hform].
  apply append_nil_all in Hform as [Hp _].
  destruct (String.eqb (trim (RegisterPage.username f)) "") eqn:Hu1; [discriminate|].
  destruct (Nat.ltb_spec (String.length (trim (RegisterPage.username f))) 2);
    [discriminate|]. clear Hu.
  destruct (String.eqb (trim (RegisterPage.email f)) "") eqn:He1; [discriminate|].
  destruct (test emailRegex (RegisterPage.email f)) eqn:He2; [|discriminate]. clear He.
  destruct (String.eqb (RegisterPage.password f) "") eqn:Hp1; [discriminate|].
  destruct (Nat.ltb_spec (String.length (RegisterPage.password f)) 6);
    [discriminate|]. clear Hp.
  cbv zeta. unfold serve, route, register, validateEmail. simpl js_String.
  rewrite (truthy_JStr (RegisterPage.username f)), (truthy_JStr (RegisterPage.email f)),
    (truthy_JStr (RegisterPage.password f)), He2;
    [|apply length_pos_nonempty; lia|apply emailRegex_nonempty; assumption
     |apply trim_length_pos_nonempty; lia].
  cbn [negb orb]. unfold try_catch, internal_error.
  unfold mbind at 1, M_bind at 1, lift at 1.
  rewrite validateUsername_long by assumption. cbn [negb].
  unfold mbind at 1, M_bind at 1, lift at 1.
  rewrite validatePassword_long by assumption. cbn [negb].
  run. unfold users_findOne. simpl.
  destruct (List.find _ (users w)) as [existing|]; simpl.
  - destruct (String.eqb (User.email existing) _); auto.
  - unfold users_insertOne. simpl. destruct (existsb _ (users w)); simpl; auto.
Qed.

(** X20. A form the Login page accepts is never refused by the server's
    field checks and never fails in the handler: the Login request it sends
    is answered 200, or 401 with the one message "Invalid email or
    password". *)
Theorem Login_form_is_answered_200_or_401 (f : LoginPage.form) (w : world) :
  LoginPage.validateForm f = [] ->
  let res :=
    fst (serve (POST_login (JStr (LoginPage.email f))
                  (JStr (LoginPage.password f))) w) in
  status res = 200%nat \/ res = reply 401 false "Invalid email or password".
Proof.
  unfold LoginPage.validateForm. intros Hform.
  apply append_nil_all in Hform as [He Hp].
  destruct (String.eqb (trim (LoginPage.email f)) "") eqn:He1; [discriminate|].
  destruct (test emailRegex (LoginPage.email f)) eqn:He2; [|discriminate]. clear He.
  destruct (String.eqb_spec (LoginPage.password f) "") as [|Hp1]; [discriminate|].
  cbv zeta. unfold serve, route, login, validateEmail. simpl js_String.
  rewrite (truthy_JStr (LoginPage.email f)), (truthy_JStr (LoginPage.password f)), He2;
    [|assumption|apply emailRegex_nonempty; assumption].
  run. unfold users_findOne. simpl.
  destruct (List.find _ (users w)) as [user|]; simpl; [|auto].
  destruct (bcrypt_compare _ _); simpl; auto.
Qed.

(** ** When the Manager page logs the user out *)

(** X21. Each [catch] of the Manager page logs the user out when the error
    message contains "401" or "token".  Of the three denials of the gate, as
    [handleResponse] throws them, this catches "Access denied. No token
    provided." and "Invalid token." but not "Token expired. Please login
    again.", where the word is capitalised: on an expired token the page
    does not log out. *)
Theorem Manager_logs_out_on_two_of_three_denials
    (r : request) (auth : option string) (w : world) :
  protected r = Some auth ->
  (no_token (bearer auth) = true ->
     Api.handleResponse (fst (serve r w)) = inr "Access denied. No token provided."
     /\ Manager.logs_out "Access denied. No token provided." = true)
  /\ (forall token, bearer auth = Some token -> token <> "" ->
        jwt_verify token = Rejected "TokenExpiredError" ->
        Api.handleResponse (fst (serve r w)) = inr "Token expired. Please login again."
        /\ Manager.logs_out "Token expired. Please login again." = false)
  /\ (forall token name, bearer auth = Some token -> token <> "" ->
        jwt_verify token = Rejected name -> name <> "TokenExpiredError" ->
        Api.handleResponse (fst (serve r w)) = inr "Invalid token."
        /\ Manager.logs_out "Invalid token." = true).
Proof.
  intros Hp. destruct (protected_route _ _ Hp) as [next Hr].
  unfold serve. rewrite Hr. split; [|split].
  - intros Hn. rewrite (verifyToken_missing _ _ _ Hn). split; reflexivity.
  - intros token Hb Ht Hv.
    rewrite (verifyToken_rejected _ _ _ _ _ Hb Ht Hv). split; reflexivity.
  - intros token name Hb Ht Hv Hne.
    rewrite (verifyToken_rejected _ _ _ _ _ Hb Ht Hv).
    destruct (String.eqb_spec name "TokenExpiredError"); [contradiction|].
    split; reflexivity.
Qed.

(** ** Frames *)

(** X22. A successful Create appends one record to the end of the
    collection and changes nothing else: the new record is the caller's, its
    id is the one in the body and was not in use, and every record stored
    before is still there, in its place; the users collection is not
    touched. *)
Theorem create_appends_one_record_of_the_caller
    (auth : option string) (user : Claims.t) (site username password : jsval)
    (w w1 : world) (res : response) :
  authenticated auth user ->
  serve (POST_passwords auth site username password) w = (res, w1) ->
  status res = 201%nat ->
  exists new,
    passwords w1 = passwords w ++ [new]
    /\ Cred.userId new = Claims.id user
    /\ Cred.password new = password
    /\ json res = Inserted (Cred._id new) "Password saved successfully"
    /\ (forall d, d ∈ passwords w -> Cred._id d <> Cred._id new)
    /\ users w1 = users w.
Proof.
  intros Hauth Hserve Hst.
  destruct (post_success _ _ _ _ _ _ _ _ Hauth Hserve Hst)
    as (s & u & oid & _ & _ & -> & Hfresh & Hp & Hu).
  eexists. split; [exact Hp|]. simpl. repeat split; assumption.
Qed.

(** X23. Each route writes to its own collection at most: Register never
    changes the passwords collection, the Vault routes never change the users
    collection, and Login and List change neither, whatever they answer. *)
Theorem routes_write_only_their_own_collection
    (r : request) (w w1 : world) (res : response) :
  serve r w = (res, w1) ->
  match r with
  | POST_register _ _ _ => passwords w1 = passwords w
  | POST_login _ _ | GET_passwords _ =>
      users w1 = users w /\ passwords w1 = passwords w
  | POST_passwords _ _ _ _ | PUT_passwords _ _ _ _ _ | DELETE_passwords _ _ =>
      users w1 = users w
  end.
Proof.
  intros Hserve.
  destruct (serve_users_cases _ _ _ _ Hserve)
    as [(Hu & _)|(? & ? & ? & ? & Hr & _ & _ & _ & _ & _ & _ & _ & Hp & _)].
  - destruct (serve_passwords_cases _ _ _ _ Hserve)
      as [(Hp & _)|[(? & ? & ? & ? & ? & ? & Hr & _)
                   |[(? & ? & ? & ? & ? & ? & ? & ? & Hr & _)
                    |(? & ? & ? & ? & ? & Hr & _)]]];
      destruct r; try discriminate Hr; auto.
  - subst r. exact Hp.
Qed.

End Properties.

(** * The handlers at work, in the concrete environment *)

Import Demo.

Local Open Scope list_scope.

Lemma alice_authenticated : authenticated as_alice alice.
Proof. exists "alice.jwt". repeat split. discriminate. Qed.

Lemma bob_authenticated : authenticated as_bob bob.
Proof. exists "bob.jwt". repeat split. discriminate. Qed.

Lemma vault_unique_ids : unique_ids vault.
Proof.
  unfold unique_ids. simpl. repeat constructor.
  - intros H. apply elem_of_cons in H as [H|H]; [discriminate|inversion H].
  - intros H. inversion H.
Qed.

(** Alice's record is not Bob's. *)
Lemma alices_record_not_bobs (d : Cred.t) :
  d ∈ passwords vault -> Cred._id d = "65c000000000000000000001" ->
  Cred.userId d <> Claims.id bob.
Proof.
  intros Hin Hid. simpl in Hin.
  apply elem_of_cons in Hin as [->|Hin]; [discriminate|].
  apply elem_of_cons in Hin as [->|Hin]; [discriminate|inversion Hin].
Qed.

(** ** C4 *)

Lemma gate_denies_with_401_witness :
  protected (GET_passwords None) = Some None
  /\ serve (GET_passwords None) vault
     = (reply 401 false "Access denied. No token provided.", vault)
  /\ serve (GET_passwords (Some "Bearer old.jwt")) vault
     = (reply 401 false "Token expired. Please login again.", vault)
  /\ serve (DELETE_passwords (Some "Bearer forged") "65c000000000000000000001") vault
     = (reply 401 false "Invalid token.", vault).
Proof.
  split; [reflexivity|]. split; [|split].
  - apply (proj1 (gate_denies_with_401 (GET_passwords None) None vault eq_refl)).
    reflexivity.
  - apply (proj1 (proj2 (gate_denies_with_401 (GET_passwords (Some "Bearer old.jwt"))
                           (Some "Bearer old.jwt") vault eq_refl)) "old.jwt");
      [reflexivity|discriminate|reflexivity].
  - apply (proj1 (proj2 (proj2 (gate_denies_with_401
                                  (DELETE_passwords (Some "Bearer forged")
                                     "65c000000000000000000001")
                                  (Some "Bearer forged") vault eq_refl)))
             "forged" "JsonWebTokenError");
      [reflexivity|discriminate|reflexivity|discriminate].
Defined.

(** ** C1 *)

(** C1 as stated fails here.  Bob aims an Update at Alice's record with a
    two-character site: the id is well-formed and the record is not his, yet
    the answer is the 400 of the field validation, not 404. *)
Lemma foreign_update_with_short_site_is_400 :
  authenticated as_bob bob
  /\ new_ObjectId "65c000000000000000000001" = Some "65c000000000000000000001"
  /\ (forall d, d ∈ passwords vault -> Cred._id d = "65c000000000000000000001" ->
                Cred.userId d <> Claims.id bob)
  /\ serve (PUT_passwords as_bob "65c000000000000000000001"
              (JStr "ab") (JStr "bob") (JStr "x")) vault
     = (reply 400 false "Site must be at least 3 characters long", vault)
  /\ status (reply 400 false "Site must be at least 3 characters long") <> 404%nat.
Proof.
  split; [exact bob_authenticated|]. split; [reflexivity|].
  split; [exact alices_record_not_bobs|]. split; [reflexivity|discriminate].
Qed.

Lemma foreign_record_is_not_found_witness :
  authenticated as_bob bob
  /\ new_ObjectId "65c000000000000000000001" = Some "65c000000000000000000001"
  /\ update_validation (JStr "example.org") (JStr "bob") (JStr "x") = Ok None
  /\ serve (DELETE_passwords as_bob "65c000000000000000000001") vault
     = (reply 404 false "Password not found or access denied",
        logged passwords_findOne_op vault)
  /\ serve (PUT_passwords as_bob "65c000000000000000000001"
              (JStr "example.org") (JStr "bob") (JStr "x")) vault
     = (reply 404 false "Password not found or access denied",
        logged passwords_findOne_op vault).
Proof.
  pose proof (foreign_record_is_not_found as_bob bob "65c000000000000000000001"
                "65c000000000000000000001" vault bob_authenticated eq_refl
                alices_record_not_bobs) as [Hdelete Hupdate].
  split; [exact bob_authenticated|]. split; [reflexivity|]. split; [reflexivity|].
  split; [exact Hdelete|].
  exact (proj1 (Hupdate (JStr "example.org") (JStr "bob") (JStr "x")) eq_refl).
Defined.

(** ** C2 *)

(** C2, at the failing input.  "alice" registers under alice@x.com.  Two
    logins follow, both with a syntactically valid email and both with the
    JSON number 123456 as password, which is present ([!password] is
    false).  The first names the registered email: [bcrypt.compare] throws
    on a password that is not a string, and the handler's [catch] answers
    500 "Internal server error".  The second names an email nobody has: it
    is answered 401 "Invalid email or password" before any comparison.  The
    two responses differ in status and in text, so they tell whether the
    email is registered. *)
Theorem login_with_a_number_tells_known_emails_apart :
  validateEmail (JStr "alice@x.com") = true
  /\ validateEmail (JStr "nobody@x.com") = true
  /\ truthy (JNum 123456) = true
  /\ fst (serve_all
            [POST_register (JStr "alice") (JStr "alice@x.com") (JStr "secret1");
             POST_login (JStr "alice@x.com") (JNum 123456);
             POST_login (JStr "nobody@x.com") (JNum 123456)]
            empty)
     = [mkResponse 201
          (Registered "User registered successfully" "65c000000000000000000002");
        reply 500 false "Internal server error";
        reply 401 false "Invalid email or password"].
Proof. repeat split. Qed.

(** With strings as passwords the same two logins are answered alike. *)
Lemma login_401_for_string_passwords_at_work :
  fst (serve (POST_login (JStr "nobody@x.com") (JStr "secret1")) registered)
  = fst (serve (POST_login (JStr "Alice@x.com") (JStr "letmein")) registered)
  /\ fst (serve (POST_login (JStr "nobody@x.com") (JStr "secret1")) registered)
     = reply 401 false "Invalid email or password".
Proof.
  apply (login_401_for_string_passwords
           "nobody@x.com" (JStr "secret1") registered
           "Alice@x.com" "letmein" registered).
  - reflexivity.
  - reflexivity.
  - intros d Hin. simpl in Hin.
    apply elem_of_cons in Hin as [->|Hin]; [discriminate|inversion Hin].
  - reflexivity.
  - discriminate.
  - eexists. split; [left|reflexivity].
  - intros d Hin _. simpl in Hin.
    apply elem_of_cons in Hin as [->|Hin]; [reflexivity|inversion Hin].
Qed.

(** ** C3 *)

(** C3, at the failing input.  "Alice" registers.  A second registration
    under the same name "Alice" with another email passes the uniqueness
    check and is answered 201 as well, and the collection then holds two
    users named "Alice": the query looks for the lower-cased "alice", while
    the name was stored trimmed but not lower-cased. *)
Theorem register_accepts_a_taken_username :
  serve_all [POST_register (JStr "Alice") (JStr "alice@x.com") (JStr "secret1");
             POST_register (JStr "Alice") (JStr "alice2@x.com") (JStr "secret2")]
            empty
  = ([mkResponse 201 (Registered "User registered successfully"
                        "65c000000000000000000002");
      mkResponse 201 (Registered "User registered successfully"
                        "65c000000000000000000005")],
     mkWorld
       [User.mk "65c000000000000000000002" "Alice" "alice@x.com"
                "$2a$12$secret1" 1700000000001;
        User.mk "65c000000000000000000005" "Alice" "alice2@x.com"
                "$2a$12$secret2" 1700000000004]
       [] 6
       [users_findOne_op; users_insertOne_op; users_findOne_op; users_insertOne_op]).
Proof. reflexivity. Qed.

(** Two users are registered, "carol" with carol@x.com first and "dave" with
    erin@x.com second.  A registration as "carol" with erin@x.com collides on
    both fields; the scan meets the username collision first and the message
    names "Username". *)
Lemma register_names_username_when_both_collide :
  serve (POST_register (JStr "carol") (JStr "erin@x.com") (JStr "secret1"))
        (mkWorld [User.mk alice_id "carol" "carol@x.com" "$2a$12$aaaaaa" 500;
                  User.mk bob_id "dave" "erin@x.com" "$2a$12$bbbbbb" 600] [] 0 [])
  = (reply 400 false "Username already exists",
     mkWorld [User.mk alice_id "carol" "carol@x.com" "$2a$12$aaaaaa" 500;
              User.mk bob_id "dave" "erin@x.com" "$2a$12$bbbbbb" 600] [] 0
             [users_findOne_op]).
Proof. reflexivity. Qed.

(** ** C5 and C10 *)

Lemma list_returns_the_callers_records_newest_first_witness :
  authenticated as_alice alice
  /\ exists docs,
       serve (GET_passwords as_alice) vault =
         (mkResponse 200 (Records docs), logged passwords_find_op vault)
       /\ (forall d, d ∈ docs <-> d ∈ passwords vault /\ Cred.userId d = Claims.id alice)
       /\ docs ≡ₚ List.filter (owned_by alice) (passwords vault)
       /\ StronglySorted (fun a b => (Cred.createdAt b <= Cred.createdAt a)%Z) docs.
Proof.
  split; [exact alice_authenticated|].
  exact (list_returns_the_callers_records_newest_first as_alice alice vault
           alice_authenticated).
Defined.

Lemma list_returns_passwords_verbatim_witness :
  authenticated as_alice alice
  /\ serve (GET_passwords as_alice) vault
     = (mkResponse 200 (Records [alices_record]), logged passwords_find_op vault)
  /\ Cred.password alices_record = JStr "hunter2"
  /\ exists docs w',
       serve (GET_passwords as_alice) vault = (mkResponse 200 (Records docs), w')
       /\ (forall d, d ∈ passwords vault -> Cred.userId d = Claims.id alice ->
             exists e, e ∈ docs
               /\ Cred.password e = Cred.password d
               /\ Cred.site e = Cred.site d
               /\ Cred.username e = Cred.username d
               /\ Cred.userId e = Cred.userId d
               /\ Cred.createdAt e = Cred.createdAt d
               /\ Cred.updatedAt e = Cred.updatedAt d
               /\ Cred._id e = Cred._id d)
       /\ (forall e, e ∈ docs ->
             exists d, d ∈ passwords vault
               /\ Cred.password e = Cred.password d
               /\ Cred.site e = Cred.site d
               /\ Cred.username e = Cred.username d
               /\ Cred.userId e = Cred.userId d
               /\ Cred.createdAt e = Cred.createdAt d
               /\ Cred.updatedAt e = Cred.updatedAt d
               /\ Cred._id e = Cred._id d).
Proof.
  split; [exact alice_authenticated|]. split; [reflexivity|]. split; [reflexivity|].
  exact (list_returns_passwords_verbatim as_alice alice vault alice_authenticated).
Defined.

(** ** C6 *)

(** C6 as stated fails here.  Alice updates her record and submits the site
    " example.org ", with a space on each side.  The Update succeeds, and the
    record then holds "example.org": not the submitted value. *)
Lemma update_stores_the_trimmed_site :
  unique_ids vault /\ authenticated as_alice alice
  /\ serve (PUT_passwords as_alice "65c000000000000000000001"
              (JStr " example.org ") (JStr "alice") (JStr "hunter3")) vault
     = (reply 200 true "Password updated successfully",
        mkWorld []
          [Cred.mk "65c000000000000000000001" "example.org" "alice" (JStr "hunter3")
                   alice_id 1000 1700000000016;
           bobs_record]
          17 [passwords_findOne_op; passwords_updateOne_op])
  /\ JStr "example.org" <> JStr " example.org ".
Proof.
  split; [exact vault_unique_ids|]. split; [exact alice_authenticated|].
  split; [reflexivity|discriminate].
Qed.

Lemma update_rewrites_only_the_target_witness :
  unique_ids vault /\ authenticated as_alice alice
  /\ exists s u target updated before after,
       JStr " example.org " = JStr s /\ JStr "alice" = JStr u
       /\ new_ObjectId "65c000000000000000000001" = Some (Cred._id target)
       /\ Cred.userId target = Claims.id alice
       /\ Cred.site updated = trim s
       /\ Cred.username updated = trim u
       /\ Cred.password updated = JStr "hunter3"
       /\ Cred.updatedAt updated = clock (drawn vault)
       /\ Cred.createdAt updated = Cred.createdAt target
       /\ Cred.userId updated = Cred.userId target
       /\ Cred._id updated = Cred._id target
       /\ passwords vault = before ++ target :: after
       /\ [Cred.mk "65c000000000000000000001" "example.org" "alice" (JStr "hunter3")
                   alice_id 1000 1700000000016;
           bobs_record]
          = before ++ updated :: after
       /\ @nil User.t = users vault.
Proof.
  split; [exact vault_unique_ids|]. split; [exact alice_authenticated|].
  exact (update_rewrites_only_the_target as_alice alice "65c000000000000000000001"
           (JStr " example.org ") (JStr "alice") (JStr "hunter3") vault _ _
           vault_unique_ids alice_authenticated eq_refl eq_refl).
Defined.

(** ** C7 *)

(** C7, at the failing input.  A username of one space: Update's validation
    lets the body through, Create's refuses it.  Alice creates a record, then
    sends the body as an Update of that record and is answered 200, which
    leaves the record with an empty username; the same body sent as a Create
    is answered 400. *)
Theorem update_accepts_a_blank_username :
  update_validation (JStr "example.com") (JStr " ") (JStr "hunter2") = Ok None
  /\ save_validation (JStr "example.com") (JStr " ") (JStr "hunter2")
     = Ok (Some (reply 400 false "Username cannot be empty"))
  /\ serve_all [POST_passwords as_alice (JStr "example.com") (JStr "alice")
                  (JStr "hunter2");
                PUT_passwords as_alice "65c000000000000000000002"
                  (JStr "example.com") (JStr " ") (JStr "hunter2");
                POST_passwords as_alice (JStr "example.com") (JStr " ")
                  (JStr "hunter2")] empty
     = ([mkResponse 201 (Inserted "65c000000000000000000002"
                           "Password saved successfully");
         reply 200 true "Password updated successfully";
         reply 400 false "Username cannot be empty"],
        mkWorld []
          [Cred.mk "65c000000000000000000002" "example.com" "" (JStr "hunter2")
                   alice_id 1700000000000 1700000000003]
          4 [passwords_insertOne_op; passwords_findOne_op; passwords_updateOne_op]).
Proof. repeat split. Qed.

(** ** C8 *)

(** C8 as stated fails here.  Alice creates a record and submits the site
    " example.org " and the username " alice ".  Her next List returns the
    record with "example.org" and "alice": not the literal submitted
    values. *)
Lemma create_then_list_shows_trimmed_values :
  authenticated as_alice alice
  /\ serve_all [POST_passwords as_alice (JStr " example.org ") (JStr " alice ")
                  (JStr " hunter2 ");
                GET_passwords as_alice] empty
     = ([mkResponse 201 (Inserted "65c000000000000000000002" "Password saved successfully");
         mkResponse 200
           (Records [Cred.mk "65c000000000000000000002" "example.org" "alice"
                             (JStr " hunter2 ") alice_id
                             1700000000000 1700000000001])],
        mkWorld []
          [Cred.mk "65c000000000000000000002" "example.org" "alice"
                   (JStr " hunter2 ") alice_id 1700000000000 1700000000001]
          3 [passwords_insertOne_op; passwords_find_op])
  /\ "example.org" <> " example.org " /\ "alice" <> " alice ".
Proof.
  split; [exact alice_authenticated|]. split; [reflexivity|].
  split; discriminate.
Qed.

(** When the clock has not moved between a Create and an Update, the Update
    leaves [updatedAt] where the Create put it. *)
Lemma update_in_the_same_millisecond :
  @serve_all same_millisecond
    [POST_passwords as_alice (JStr "example.com") (JStr "alice") (JStr "hunter2");
     PUT_passwords as_alice "65c000000000000000000002"
       (JStr "example.com") (JStr "alice") (JStr "hunter3");
     GET_passwords as_alice] empty
  = ([mkResponse 201 (Inserted "65c000000000000000000002" "Password saved successfully");
      reply 200 true "Password updated successfully";
      mkResponse 200
        (Records [Cred.mk "65c000000000000000000002" "example.com" "alice"
                          (JStr "hunter3") alice_id 1700000000000 1700000000000])],
     mkWorld []
       [Cred.mk "65c000000000000000000002" "example.com" "alice"
                (JStr "hunter3") alice_id 1700000000000 1700000000000]
       4 [passwords_insertOne_op; passwords_findOne_op; passwords_updateOne_op;
          passwords_find_op]).
Proof. reflexivity. Qed.

Lemma create_and_update_show_in_list_witness :
  authenticated as_alice alice /\ unique_ids vault
  /\ status (fst (serve (POST_passwords as_alice (JStr " example.org ") (JStr " alice ")
                        (JStr "hunter2")) vault)) = 201%nat
  /\ status (fst (serve (PUT_passwords as_alice "65c000000000000000000001"
                        (JStr " example.org ") (JStr "alice") (JStr "hunter3")) vault))
     = 200%nat
  /\ (exists s u oid docs w2,
        JStr " example.org " = JStr s /\ JStr " alice " = JStr u
        /\ json (fst (serve (POST_passwords as_alice (JStr " example.org ")
                               (JStr " alice ") (JStr "hunter2")) vault))
           = Inserted oid "Password saved successfully"
        /\ serve (GET_passwords as_alice)
                 (snd (serve (POST_passwords as_alice (JStr " example.org ")
                                (JStr " alice ") (JStr "hunter2")) vault))
           = (mkResponse 200 (Records docs), w2)
        /\ Cred.mk oid (trim s) (trim u) (JStr "hunter2") (Claims.id alice)
                   (clock (drawn vault)) (clock (S (drawn vault))) ∈ docs)
  /\ (exists s u old new docs w2,
        JStr " example.org " = JStr s /\ JStr "alice" = JStr u
        /\ old ∈ passwords vault
        /\ new_ObjectId "65c000000000000000000001" = Some (Cred._id old)
        /\ serve (GET_passwords as_alice)
                 (snd (serve (PUT_passwords as_alice "65c000000000000000000001"
                                (JStr " example.org ") (JStr "alice") (JStr "hunter3"))
                             vault))
           = (mkResponse 200 (Records docs), w2)
        /\ new ∈ docs
        /\ Cred._id new = Cred._id old
        /\ Cred.site new = trim s /\ Cred.username new = trim u
        /\ Cred.password new = JStr "hunter3"
        /\ Cred.userId new = Cred.userId old
        /\ Cred.createdAt new = Cred.createdAt old
        /\ Cred.updatedAt new = clock (drawn vault)
        /\ ((Cred.updatedAt old < clock (drawn vault))%Z ->
            (Cred.updatedAt old < Cred.updatedAt new)%Z)).
Proof.
  pose proof (create_and_update_show_in_list as_alice alice vault alice_authenticated)
    as [Hcreate Hupdate].
  split; [exact alice_authenticated|]. split; [exact vault_unique_ids|].
  split; [reflexivity|]. split; [reflexivity|]. split.
  - exact (Hcreate (JStr " example.org ") (JStr " alice ") (JStr "hunter2") _ _
             eq_refl eq_refl).
  - exact (Hupdate "65c000000000000000000001" (JStr " example.org ") (JStr "alice")
             (JStr "hunter3") _ _ vault_unique_ids eq_refl eq_refl).
Defined.

(** ** C9 *)

Lemma vault_owners_are_creators : owners_are_creators vault ledger.
Proof.
  intros d Hin. simpl in Hin.
  apply elem_of_cons in Hin as [->|Hin]; [reflexivity|].
  apply elem_of_cons in Hin as [->|Hin]; [reflexivity|inversion Hin].
Qed.

(** Bob tries to take over and to delete Alice's record, Alice updates it,
    Bob creates one of his own, Alice deletes hers, Bob lists. *)
Lemma owner_is_always_the_creator_witness :
  owners_are_creators vault ledger
  /\ owners_are_creators
       (fst (run [PUT_passwords as_bob "65c000000000000000000001"
                    (JStr "example.com") (JStr "bob") (JStr "mine");
                  DELETE_passwords as_bob "65c000000000000000000001";
                  PUT_passwords as_alice "65c000000000000000000001"
                    (JStr "example.com") (JStr "alice") (JStr "hunter3");
                  POST_passwords as_bob (JStr "mail.example") (JStr "bob") (JStr "pw");
                  DELETE_passwords as_alice "65c000000000000000000001";
                  GET_passwords as_bob] vault ledger))
       (snd (run [PUT_passwords as_bob "65c000000000000000000001"
                    (JStr "example.com") (JStr "bob") (JStr "mine");
                  DELETE_passwords as_bob "65c000000000000000000001";
                  PUT_passwords as_alice "65c000000000000000000001"
                    (JStr "example.com") (JStr "alice") (JStr "hunter3");
                  POST_passwords as_bob (JStr "mail.example") (JStr "bob") (JStr "pw");
                  DELETE_passwords as_alice "65c000000000000000000001";
                  GET_passwords as_bob] vault ledger)).
Proof.
  split; [exact vault_owners_are_creators|].
  apply (owner_is_always_the_creator _ vault ledger vault_owners_are_creators).
Defined.

(** * The further properties at work *)

Lemma registered_emails_unique : emails_unique registered.
Proof. unfold emails_unique. simpl. repeat constructor. intros H. inversion H. Qed.

Lemma registered_users_normalised : users_normalised registered.
Proof.
  intros d Hd. simpl in Hd.
  apply elem_of_cons in Hd as [->|Hd]; [split; reflexivity|inversion Hd].
Qed.

Lemma vault_records_normalised : records_normalised vault.
Proof.
  intros d Hd. simpl in Hd.
  apply elem_of_cons in Hd as [->|Hd]; [repeat split; simpl; lia|].
  apply elem_of_cons in Hd as [->|Hd]; [repeat split; simpl; lia|inversion Hd].
Qed.

(** ** X4 and X5 *)

Lemma register_201_stores_one_hashed_user_witness :
  status (fst (serve (POST_register (JStr " Alice ") (JStr "Alice@X.com")
                        (JStr "secret1")) empty)) = 201%nat
  /\ exists u e p oid,
       JStr " Alice " = JStr u /\ JStr "Alice@X.com" = JStr e /\ JStr "secret1" = JStr p
       /\ (2 <= String.length (trim u))%nat
       /\ validateEmail (JStr e) = true
       /\ (6 <= String.length p)%nat
       /\ (forall d, d ∈ users empty -> User.email d <> toLowerCase e)
       /\ json (fst (serve (POST_register (JStr " Alice ") (JStr "Alice@X.com")
                              (JStr "secret1")) empty))
          = Registered "User registered successfully" oid
       /\ users (snd (serve (POST_register (JStr " Alice ") (JStr "Alice@X.com")
                               (JStr "secret1")) empty))
          = users empty ++
            [User.mk oid (trim u) (toLowerCase e)
                     (bcrypt_hash p 12 (drawn empty)) (clock (S (drawn empty)))]
       /\ passwords (snd (serve (POST_register (JStr " Alice ") (JStr "Alice@X.com")
                                   (JStr "secret1")) empty))
          = passwords empty.
Proof.
  split; [reflexivity|].
  exact (register_201_stores_one_hashed_user
           (JStr " Alice ") (JStr "Alice@X.com") (JStr "secret1") empty _ _
           eq_refl eq_refl).
Defined.


(** ** X6, X7 and X9 *)

Lemma emails_stay_unique_when_served_in_turn_witness :
  emails_unique registered
  /\ emails_unique
       (snd (serve_all
               [POST_register (JStr "alice2") (JStr "ALICE@X.COM") (JStr "secret2");
                POST_register (JStr "carol") (JStr "carol@x.com") (JStr "secret3")]
               registered)).
Proof.
  split; [exact registered_emails_unique|].
  apply (emails_stay_unique_when_served_in_turn _ registered registered_emails_unique).
Defined.

Lemma users_stay_normalised_witness :
  users_normalised registered
  /\ users_normalised
       (snd (serve_all
               [POST_register (JStr "  Carol ") (JStr "Carol@X.com") (JStr "secret3");
                POST_login (JStr "carol@x.com") (JStr "secret3")]
               registered)).
Proof.
  split; [exact registered_users_normalised|].
  apply (users_stay_normalised _ registered registered_users_normalised).
Defined.

Lemma records_stay_normalised_witness :
  records_normalised vault
  /\ records_normalised
       (snd (serve_all
               [POST_passwords as_alice (JStr "  mail.example ") (JStr " alice ")
                  (JStr "pw");
                PUT_passwords as_alice "65c000000000000000000001"
                  (JStr " example.org ") (JStr " ") (JStr "hunter3")]
               vault)).
Proof.
  split; [exact vault_records_normalised|].
  apply (records_stay_normalised _ vault vault_records_normalised).
Defined.

(** ** X8 *)

Lemma errors_change_nothing_witness :
  status (fst (serve (PUT_passwords as_bob "65c000000000000000000001"
                        (JStr "example.com") (JStr "bob") (JStr "mine")) vault))
  = 404%nat
  /\ users (snd (serve (PUT_passwords as_bob "65c000000000000000000001"
                          (JStr "example.com") (JStr "bob") (JStr "mine")) vault))
     = users vault
  /\ passwords (snd (serve (PUT_passwords as_bob "65c000000000000000000001"
                              (JStr "example.com") (JStr "bob") (JStr "mine")) vault))
     = passwords vault.
Proof.
  split; [reflexivity|].
  refine (errors_change_nothing
            (PUT_passwords as_bob "65c000000000000000000001"
               (JStr "example.com") (JStr "bob") (JStr "mine")) vault
            (snd (serve (PUT_passwords as_bob "65c000000000000000000001"
                           (JStr "example.com") (JStr "bob") (JStr "mine")) vault))
            (fst (serve (PUT_passwords as_bob "65c000000000000000000001"
                           (JStr "example.com") (JStr "bob") (JStr "mine")) vault))
            eq_refl _ _);
    discriminate.
Defined.

(** ** X10, X11 and X12 *)

Lemma other_users_records_are_untouched_witness :
  unique_ids vault
  /\ (forall user,
        caller (DELETE_passwords as_bob "65c000000000000000000002") = Some user ->
        Cred.userId alices_record <> Claims.id user)
  /\ (alices_record ∈ passwords vault
      <-> alices_record
          ∈ passwords (snd (serve (DELETE_passwords as_bob "65c000000000000000000002")
                              vault))).
Proof.
  assert (forall user,
            caller (DELETE_passwords as_bob "65c000000000000000000002") = Some user ->
            Cred.userId alices_record <> Claims.id user) as Hother.
  { intros user H. inversion H; subst. discriminate. }
  split; [exact vault_unique_ids|]. split; [exact Hother|].
  exact (other_users_records_are_untouched
           (DELETE_passwords as_bob "65c000000000000000000002") vault _ _
           alices_record vault_unique_ids eq_refl Hother).
Defined.


Lemma deleted_record_is_gone_witness :
  unique_ids vault /\ authenticated as_alice alice
  /\ status (fst (serve (DELETE_passwords as_alice "65c000000000000000000001") vault))
     = 200%nat
  /\ serve (DELETE_passwords as_alice "65c000000000000000000001")
           (snd (serve (DELETE_passwords as_alice "65c000000000000000000001") vault))
     = (reply 404 false "Password not found or access denied",
        logged passwords_findOne_op
          (snd (serve (DELETE_passwords as_alice "65c000000000000000000001") vault)))
  /\ exists docs w2,
       serve (GET_passwords as_alice)
             (snd (serve (DELETE_passwords as_alice "65c000000000000000000001") vault))
       = (mkResponse 200 (Records docs), w2)
       /\ forall d, d ∈ docs ->
            new_ObjectId "65c000000000000000000001" <> Some (Cred._id d).
Proof.
  split; [exact vault_unique_ids|]. split; [exact alice_authenticated|].
  split; [reflexivity|].
  exact (deleted_record_is_gone as_alice alice "65c000000000000000000001"
           vault _ _ vault_unique_ids alice_authenticated eq_refl eq_refl).
Defined.

(** ** X13 and X14 *)

Lemma create_succeeds_exactly_when_witness :
  authenticated as_alice alice
  /\ (status (fst (serve (POST_passwords as_alice (JStr " example.org ") (JStr "alice")
                            (JStr "pw")) vault)) = 201%nat
      <-> (3 <= String.length (trim " example.org "))%nat
          /\ (1 <= String.length (trim "alice"))%nat
          /\ (1 <= String.length "pw")%nat
          /\ (forall d, d ∈ passwords vault ->
                Cred._id d <> generate_id (S (S (drawn vault)))))
  /\ status (fst (serve (POST_passwords as_alice (JStr " example.org ") (JStr "alice")
                           (JStr "pw")) vault)) = 201%nat.
Proof.
  split; [exact alice_authenticated|]. split; [|reflexivity].
  exact (create_succeeds_exactly_when as_alice alice " example.org " "alice" "pw"
           vault alice_authenticated).
Defined.

Lemma malformed_id_is_400_without_store_access_witness :
  authenticated as_alice alice
  /\ new_ObjectId "not-an-id" = None
  /\ serve (PUT_passwords as_alice "not-an-id" JUndefined (JNum 5) (JStr "x")) vault
     = (reply 400 false "Invalid password ID format", vault)
  /\ serve (DELETE_passwords as_alice "not-an-id") vault
     = (reply 400 false "Invalid password ID format", vault).
Proof.
  split; [exact alice_authenticated|]. split; [reflexivity|].
  exact (malformed_id_is_400_without_store_access as_alice alice "not-an-id"
           JUndefined (JNum 5) (JStr "x") vault alice_authenticated eq_refl).
Defined.

(** ** X15, X16 and X17 *)

Lemma gate_ignores_the_scheme_witness :
  includes "Basic" " " = false /\ includes "alice.jwt" " " = false
  /\ "alice.jwt" <> "" /\ jwt_verify "alice.jwt" = Decoded alice
  /\ authenticated (Some "Basic alice.jwt") alice.
Proof.
  assert ("alice.jwt" <> "") as Hne by discriminate.
  split; [reflexivity|]. split; [reflexivity|]. split; [exact Hne|].
  split; [reflexivity|].
  exact (gate_ignores_the_scheme "Basic" "alice.jwt" alice eq_refl eq_refl Hne eq_refl).
Defined.


Lemma removeToken_logs_out_witness :
  protected (GET_passwords
               (Api.getAuthHeaders
                  (Api.removeToken (Api.setToken "alice.jwt" {["theme" := "dark"]}))))
  = Some (Api.getAuthHeaders
            (Api.removeToken (Api.setToken "alice.jwt" {["theme" := "dark"]})))
  /\ Api.getToken (Api.removeToken (Api.setToken "alice.jwt" {["theme" := "dark"]}))
     = None
  /\ Api.removeToken (Api.setToken "alice.jwt" {["theme" := "dark"]}) !! "user" = None
  /\ (forall key, key <> "token" -> key <> "user" ->
        Api.removeToken (Api.setToken "alice.jwt" {["theme" := "dark"]}) !! key
        = Api.setToken "alice.jwt" {["theme" := "dark"]} !! key)
  /\ Api.isAuthenticated
       (Api.removeToken (Api.setToken "alice.jwt" {["theme" := "dark"]})) = false
  /\ Api.getAuthHeaders
       (Api.removeToken (Api.setToken "alice.jwt" {["theme" := "dark"]})) = None
  /\ serve (GET_passwords
              (Api.getAuthHeaders
                 (Api.removeToken (Api.setToken "alice.jwt" {["theme" := "dark"]}))))
           vault
     = (reply 401 false "Access denied. No token provided.", vault).
Proof.
  split; [reflexivity|].
  exact (removeToken_logs_out (Api.setToken "alice.jwt" {["theme" := "dark"]})
           (GET_passwords
              (Api.getAuthHeaders
                 (Api.removeToken (Api.setToken "alice.jwt" {["theme" := "dark"]}))))
           vault eq_refl).
Defined.

(** ** X18, X19 and X20 *)

Lemma Manager_form_passes_server_validation_witness :
  Manager.validateForm (Manager.mkForm " example.org " "alice" "pw") = None
  /\ authenticated as_alice alice
  /\ save_validation (JStr " example.org ") (JStr "alice") (JStr "pw") = Ok None
  /\ update_validation (JStr " example.org ") (JStr "alice") (JStr "pw") = Ok None
  /\ serve (POST_passwords as_alice (JStr " example.org ") (JStr "alice") (JStr "pw"))
           vault
     = (mkResponse 201
          (Inserted (generate_id (S (S (drawn vault)))) "Password saved successfully"),
        set_passwords
          (passwords vault ++
           [Cred.mk (generate_id (S (S (drawn vault)))) (trim " example.org ")
                    (trim "alice") (JStr "pw") (Claims.id alice)
                    (clock (drawn vault)) (clock (S (drawn vault)))])
          (logged passwords_insertOne_op (draw (draw (draw vault))))).
Proof.
  pose proof (Manager_form_passes_server_validation
                (Manager.mkForm " example.org " "alice" "pw") as_alice alice vault
                eq_refl alice_authenticated) as (Hsave & Hupdate & Hcreate).
  split; [reflexivity|]. split; [exact alice_authenticated|].
  split; [exact Hsave|]. split; [exact Hupdate|].
  apply Hcreate. intros d Hd. simpl in Hd.
  apply elem_of_cons in Hd as [->|Hd]; [discriminate|].
  apply elem_of_cons in Hd as [->|Hd]; [discriminate|inversion Hd].
Defined.

Lemma Register_form_passes_server_validation_witness :
  RegisterPage.validateForm
    (RegisterPage.mkForm " Carol " "Carol@x.com" "secret3" "secret3") = []
  /\ (status (fst (serve (POST_register (JStr " Carol ") (JStr "Carol@x.com")
                            (JStr "secret3")) registered)) = 201%nat
      \/ fst (serve (POST_register (JStr " Carol ") (JStr "Carol@x.com")
                       (JStr "secret3")) registered)
         = reply 400 false "Email already exists"
      \/ fst (serve (POST_register (JStr " Carol ") (JStr "Carol@x.com")
                       (JStr "secret3")) registered)
         = reply 400 false "Username already exists"
      \/ fst (serve (POST_register (JStr " Carol ") (JStr "Carol@x.com")
                       (JStr "secret3")) registered)
         = reply 500 false "Internal server error").
Proof.
  split; [reflexivity|].
  exact (Register_form_passes_server_validation
           (RegisterPage.mkForm " Carol " "Carol@x.com" "secret3" "secret3")
           registered eq_refl).
Defined.

Lemma Login_form_is_answered_200_or_401_witness :
  LoginPage.validateForm (LoginPage.mkForm "Alice@x.com" "letmein") = []
  /\ (status (fst (serve (POST_login (JStr "Alice@x.com") (JStr "letmein"))
                     registered)) = 200%nat
      \/ fst (serve (POST_login (JStr "Alice@x.com") (JStr "letmein")) registered)
         = reply 401 false "Invalid email or password").
Proof.
  split; [reflexivity|].
  exact (Login_form_is_answered_200_or_401
           (LoginPage.mkForm "Alice@x.com" "letmein") registered eq_refl).
Defined.

(** ** X21 *)

Lemma Manager_logs_out_on_two_of_three_denials_witness :
  protected (GET_passwords None) = Some None
  /\ (Api.handleResponse (fst (serve (GET_passwords None) vault))
      = inr "Access denied. No token provided."
      /\ Manager.logs_out "Access denied. No token provided." = true)
  /\ (Api.handleResponse (fst (serve (GET_passwords (Some "Bearer old.jwt")) vault))
      = inr "Token expired. Please login again."
      /\ Manager.logs_out "Token expired. Please login again." = false)
  /\ (Api.handleResponse (fst (serve (GET_passwords (Some "Bearer forged")) vault))
      = inr "Invalid token."
      /\ Manager.logs_out "Invalid token." = true).
Proof.
  split; [reflexivity|]. split; [|split].
  - apply (proj1 (Manager_logs_out_on_two_of_three_denials
                    (GET_passwords None) None vault eq_refl)).
    reflexivity.
  - apply (proj1 (proj2 (Manager_logs_out_on_two_of_three_denials
                           (GET_passwords (Some "Bearer old.jwt"))
                           (Some "Bearer old.jwt") vault eq_refl)) "old.jwt");
      [reflexivity|discriminate|reflexivity].
  - apply (proj2 (proj2 (Manager_logs_out_on_two_of_three_denials
                           (GET_passwords (Some "Bearer forged"))
                           (Some "Bearer forged") vault eq_refl))
             "forged" "JsonWebTokenError");
      [reflexivity|discriminate|reflexivity|discriminate].
Defined.

(** ** X22 and X23 *)

Lemma create_appends_one_record_of_the_caller_witness :
  authenticated as_alice alice
  /\ status (fst (serve (POST_passwords as_alice (JStr "mail.example") (JStr "alice")
                           (JNum 1234)) vault)) = 201%nat
  /\ exists new,
       passwords (snd (serve (POST_passwords as_alice (JStr "mail.example")
                                (JStr "alice") (JNum 1234)) vault))
       = passwords vault ++ [new]
       /\ Cred.userId new = Claims.id alice
       /\ Cred.password new = JNum 1234
       /\ json (fst (serve (POST_passwords as_alice (JStr "mail.example")
                              (JStr "alice") (JNum 1234)) vault))
          = Inserted (Cred._id new) "Password saved successfully"
       /\ (forall d, d ∈ passwords vault -> Cred._id d <> Cred._id new)
       /\ users (snd (serve (POST_passwords as_alice (JStr "mail.example")
                               (JStr "alice") (JNum 1234)) vault))
          = users vault.
Proof.
  split; [exact alice_authenticated|]. split; [reflexivity|].
  exact (create_appends_one_record_of_the_caller as_alice alice
           (JStr "mail.example") (JStr "alice") (JNum 1234) vault _ _
           alice_authenticated eq_refl eq_refl).
Defined.

Lemma routes_write_only_their_own_collection_witness :
  serve (POST_register (JStr "carol") (JStr "carol@x.com") (JStr "secret3")) vault
  = (fst (serve (POST_register (JStr "carol") (JStr "carol@x.com") (JStr "secret3"))
            vault),
     snd (serve (POST_register (JStr "carol") (JStr "carol@x.com") (JStr "secret3"))
            vault))
  /\ passwords (snd (serve (POST_register (JStr "carol") (JStr "carol@x.com")
                              (JStr "secret3")) vault))
     = passwords vault.
Proof.
  split; [reflexivity|].
  exact (routes_write_only_their_own_collection
           (POST_register (JStr "carol") (JStr "carol@x.com") (JStr "secret3")) vault
           (snd (serve (POST_register (JStr "carol") (JStr "carol@x.com")
                          (JStr "secret3")) vault))
           (fst (serve (POST_register (JStr "carol") (JStr "carol@x.com")
                          (JStr "secret3")) vault))
           eq_refl).
Defined.

(** ** X24 *)

(** Served in turn, the second of the two registrations is refused;
    overlapped, both are stored. *)
Lemma overlapped_registrations_share_an_email_witness :
  validateUsername (JStr "alice") = Ok true
  /\ validateUsername (JStr "alice2") = Ok true
  /\ toLowerCase "alice@x.com" = toLowerCase "Alice@X.com"
  /\ fst (serve_all
            [POST_register (JStr "alice") (JStr "alice@x.com") (JStr "secret1");
             POST_register (JStr "alice2") (JStr "Alice@X.com") (JStr "secret2")]
            empty)
     = [mkResponse 201
          (Registered "User registered successfully" "65c000000000000000000002");
        reply 400 false "Email already exists"]
  /\ exists w',
       register_overlapped (JStr "alice") (JStr "alice@x.com") (JStr "secret1")
         (JStr "alice2") (JStr "Alice@X.com") (JStr "secret2") empty
       = (Ok (mkResponse 201
                (Registered "User registered successfully"
                   (generate_id (2 + drawn empty)%nat)),
              mkResponse 201
                (Registered "User registered successfully"
                   (generate_id (5 + drawn empty)%nat))),
          w')
       /\ users w' = users empty ++
            [User.mk (generate_id (2 + drawn empty)%nat) (trim "alice")
                     (toLowerCase "alice@x.com")
                     (bcrypt_hash "secret1" 12 (drawn empty))
                     (clock (1 + drawn empty)%nat);
             User.mk (generate_id (5 + drawn empty)%nat) (trim "alice2")
                     (toLowerCase "alice@x.com")
                     (bcrypt_hash "secret2" 12 (3 + drawn empty)%nat)
                     (clock (4 + drawn empty)%nat)]
       /\ ~ emails_unique w'.
Proof.
  split; [reflexivity|]. split; [reflexivity|]. split; [reflexivity|].
  split; [reflexivity|].
  apply (overlapped_registrations_share_an_email
           "alice" "alice@x.com" "secret1" "alice2" "Alice@X.com" "secret2" empty).
  - reflexivity.
  - reflexivity.
  - reflexivity.
  - reflexivity.
  - reflexivity.
  - reflexivity.
  - reflexivity.
  - intros d Hd. inversion Hd.
  - intros d Hd. inversion Hd.
  - discriminate.
Defined.
